(** * Checkout orchestration of the Telegram shopping bot

  A shallow embedding of the TypeScript sources of the bot's checkout
  pipeline, and the properties of the specification checked against it:

  - [SearchHandler]   : the per-user search result cache and the
                        checks of the pagination callback
                        (bot/handlers/searchHandler.ts);
  - [Wallet]          : the wallet user registry
                        (commerce/crossmint/wallet.ts);
  - [Checkout]        : the headless checkout service with its
                        locator-variant retry loop
                        (commerce/crossmint/checkout.ts);
  - [Delegation]      : the delegated-signer check
                        (commerce/crossmint/delegation.ts);
  - [CheckoutHandler] : the checkout session state machine
                        (bot/handlers/checkoutHandler.ts).

  Two further modules cover what surrounds the pipeline:

  - [Memory]          : the conversation memory (utils/memory.ts);
  - [Formatting]      : the text and keyboard helpers of the result
                        pages (commerce/search/formatting.ts).

  JavaScript strings are modelled as [string]; numbers that hold user
  ids, indices and millisecond timestamps as [Z]; the in-memory maps
  as [gmap Z _].  Promises are run to completion: an [async] function
  is a computation that either returns or throws. *)

From Stdlib Require Import ZArith Ascii String List Bool Lia DecimalString
  DecimalPos.
From stdpp Require Import base option list gmap strings.

Local Open Scope string_scope.
Local Open Scope Z_scope.

(** ** JavaScript values *)

Module Js.

(** Truthiness of a string: only the empty string is falsy. *)
Definition truthy (s : string) : bool :=
  match s with EmptyString => false | String _ _ => true end.

(** Truthiness of an optional string property ([undefined] is falsy). *)
Definition truthy_opt (o : option string) : bool :=
  match o with Some s => truthy s | None => false end.

(** [a || b] on optional strings. *)
Definition or_else (o : option string) (d : string) : string :=
  match o with
  | Some s => if truthy s then s else d
  | None => d
  end.

Fixpoint starts_with (p s : string) : bool :=
  match p, s with
  | EmptyString, _ => true
  | String a p', String b s' => Ascii.eqb a b && starts_with p' s'
  | String _ _, EmptyString => false
  end.

(** [String.prototype.includes]. *)
Fixpoint includes (s needle : string) : bool :=
  starts_with needle s ||
  match s with
  | EmptyString => false
  | String _ s' => includes s' needle
  end.

(** The code units below 256 that [\s] and [trim] treat as white
    space: TAB, LF, VT, FF, CR, SPACE and NO-BREAK SPACE. *)
Definition is_space (c : ascii) : bool :=
  let n := nat_of_ascii c in
  ((9 <=? n) && (n <=? 13) || (n =? 32) || (n =? 160))%nat.

Fixpoint trim_start (s : string) : string :=
  match s with
  | String c s' => if is_space c then trim_start s' else s
  | EmptyString => EmptyString
  end.

Fixpoint trim_end (s : string) : string :=
  match s with
  | EmptyString => EmptyString
  | String c s' =>
      match trim_end s' with
      | EmptyString => if is_space c then EmptyString else String c EmptyString
      | t => String c t
      end
  end.

(** [String.prototype.trim]. *)
Definition trim (s : string) : string := trim_end (trim_start s).

(** [s.split(sep)] for a one-character separator; the result is never
    empty: splitting the empty string gives one empty field. *)
Fixpoint split (sep : ascii) (s : string) : list string :=
  match s with
  | EmptyString => [EmptyString]
  | String c s' =>
      if Ascii.eqb c sep then EmptyString :: split sep s'
      else match split sep s' with
           | p :: ps => String c p :: ps
           | [] => [String c EmptyString]
           end
  end.

(** The locale-independent case mappings of the runtime.  They are
    tables of the Unicode standard and stay abstract; the development
    holds for every choice of them. *)
Class CaseMapping := {
  toUpperCase : string -> string;
  toLowerCase : string -> string
}.

(** The mappings restricted to the letters of Basic Latin. *)
Definition upper_ascii (c : ascii) : ascii :=
  let n := nat_of_ascii c in
  if ((97 <=? n) && (n <=? 122))%nat then ascii_of_nat (n - 32) else c.

Definition lower_ascii (c : ascii) : ascii :=
  let n := nat_of_ascii c in
  if ((65 <=? n) && (n <=? 90))%nat then ascii_of_nat (n + 32) else c.

Fixpoint map_string (f : ascii -> ascii) (s : string) : string :=
  match s with
  | EmptyString => EmptyString
  | String c s' => String (f c) (map_string f s')
  end.

Definition BasicLatin : CaseMapping :=
  {| toUpperCase := map_string upper_ascii;
     toLowerCase := map_string lower_ascii |}.

(** *** Regular expressions

    Character classes, sequence, alternation and iteration, matched
    against a whole string ([^...$]) by derivatives. *)
Inductive Regex :=
| Void
| Eps
| Cls (p : ascii -> bool)
| Seq (r1 r2 : Regex)
| Alt (r1 r2 : Regex)
| Star (r : Regex).

Definition Plus (r : Regex) : Regex := Seq r (Star r).
Definition Chr (c : ascii) : Regex := Cls (Ascii.eqb c).

Fixpoint nullable (r : Regex) : bool :=
  match r with
  | Void => false
  | Eps => true
  | Cls _ => false
  | Seq r1 r2 => nullable r1 && nullable r2
  | Alt r1 r2 => nullable r1 || nullable r2
  | Star _ => true
  end.

Fixpoint deriv (c : ascii) (r : Regex) : Regex :=
  match r with
  | Void => Void
  | Eps => Void
  | Cls p => if p c then Eps else Void
  | Seq r1 r2 =>
      if nullable r1 then Alt (Seq (deriv c r1) r2) (deriv c r2)
      else Seq (deriv c r1) r2
  | Alt r1 r2 => Alt (deriv c r1) (deriv c r2)
  | Star r1 => Seq (deriv c r1) (Star r1)
  end.

(** [regex.test(s)] for an anchored pattern. *)
Fixpoint test (r : Regex) (s : string) : bool :=
  match s with
  | EmptyString => nullable r
  | String c s' => test (deriv c r) s'
  end.

(** *** Thrown values *)
Inductive Error :=
| AxiosError (status : option Z) (dataMessage statusText : option string)
    (message : string)
| ZodError (message : string)
| JsError (message : string)
| ThrownNull.

(** [error instanceof Error ? error.message : ...] *)
Definition error_message (e : Error) : option string :=
  match e with
  | AxiosError _ _ _ m => Some m
  | ZodError m => Some m
  | JsError m => Some m
  | ThrownNull => None
  end.

Definition named (name message : string) : string :=
  if truthy message then name ++ ": " ++ message else name.

(** The text a template literal gives a thrown value. *)
Definition display (e : Error) : string :=
  match e with
  | AxiosError _ _ _ m => named "AxiosError" m
  | ZodError m => named "ZodError" m
  | JsError m => named "Error" m
  | ThrownNull => "null"
  end.

(** *** Completion of a function body

    A body either returns a value or throws. *)
Inductive Completion (A : Type) : Type :=
| Return (a : A)
| Throw (e : Error).
Arguments Return {A} a.
Arguments Throw {A} e.

(** *** Patterns without anchors *)

Definition any_char : Regex := Cls (fun _ => true).

(** [regex.test(s)] for a pattern without anchors: the match may start
    and end anywhere in [s]. *)
Definition search (r : Regex) (s : string) : bool :=
  test (Seq (Star any_char) (Seq r (Star any_char))) s.

(** A character of a literal under the [i] flag. *)
Definition same_letter (a c : ascii) : bool :=
  Ascii.eqb (upper_ascii a) (upper_ascii c).

(** A literal under the [i] flag. *)
Fixpoint literal_ci (p : string) : Regex :=
  match p with
  | EmptyString => Eps
  | String a p' => Seq (Cls (same_letter a)) (literal_ci p')
  end.

(** [r{n}] *)
Fixpoint repeat_n (n : nat) (r : Regex) : Regex :=
  match n with
  | O => Eps
  | S n' => Seq r (repeat_n n' r)
  end.

(** [.]: any character but a line terminator. *)
Definition not_line_terminator (c : ascii) : bool :=
  let n := nat_of_ascii c in
  negb ((n =? 10) || (n =? 13))%nat.

Definition dot : Regex := Cls not_line_terminator.

(** *** Slices *)

Fixpoint take_string (n : nat) (s : string) : string :=
  match n, s with
  | S n', String c s' => String c (take_string n' s')
  | _, _ => EmptyString
  end.

(** [s.substring(0, e)]: a negative end counts as 0, an end past the
    string as its length. *)
Definition substring_to (s : string) (e : Z) : string :=
  take_string (Z.to_nat e) s.

(** A relative index of [slice], brought into [0 .. len]. *)
Definition clamp_index (len i : Z) : Z :=
  if i <? 0 then Z.max (len + i) 0 else Z.min i len.

(** [a.slice(start, end)]: negative indices count from the end. *)
Definition slice {A} (a : list A) (start final : Z) : list A :=
  let len := Z.of_nat (length a) in
  let k := clamp_index len start in
  take (Z.to_nat (clamp_index len final - k)) (drop (Z.to_nat k) a).

(** [a.slice(start)] *)
Definition slice_from {A} (a : list A) (start : Z) : list A :=
  slice a start (Z.of_nat (length a)).

(** [s.replace(/c/g, r)] for one character [c] and a replacement
    without [$] patterns. *)
Fixpoint replace_all (c : ascii) (r : string) (s : string) : string :=
  match s with
  | EmptyString => EmptyString
  | String a s' =>
      (if Ascii.eqb a c then r else String a EmptyString)
      ++ replace_all c r s'
  end.

(** *** Numbers in texts *)

(** The value of [c] as a digit of [radix], if it is one: [0-9], then
    the letters of either case from ten on. *)
Definition digit_of (radix : Z) (c : ascii) : option Z :=
  let n := Z.of_nat (nat_of_ascii c) in
  let v :=
    if (48 <=? n) && (n <=? 57) then n - 48
    else if (97 <=? n) && (n <=? 122) then n - 87
    else if (65 <=? n) && (n <=? 90) then n - 55
    else radix in
  if v <? radix then Some v else None.

Definition so_far (acc : option Z) : Z :=
  match acc with
  | Some n => n
  | None => 0
  end.

(** The longest prefix of digits of [s], read from [acc] on; [acc] is
    [None] as long as no digit was read. *)
Fixpoint digits (radix : Z) (s : string) (acc : option Z) : option Z :=
  match s with
  | String c s' =>
      match digit_of radix c with
      | Some d => digits radix s' (Some (radix * so_far acc + d))
      | None => acc
      end
  | EmptyString => acc
  end.

(** [parseInt(s)] without a radix: leading white space is skipped, a
    sign and the prefix [0x] are read, then the longest prefix of
    digits; [None] is [NaN]. *)
Definition parseInt (s : string) : option Z :=
  let s1 := trim_start s in
  let '(sign, s2) :=
    match s1 with
    | String c r =>
        if Ascii.eqb c "-" then (-1, r)
        else if Ascii.eqb c "+" then (1, r)
        else (1, s1)
    | EmptyString => (1, s1)
    end in
  let '(radix, s3) :=
    match s2 with
    | String c (String x r) =>
        if Ascii.eqb c "0" && (Ascii.eqb x "x" || Ascii.eqb x "X")
        then (16, r) else (10, s2)
    | _ => (10, s2)
    end in
  option_map (Z.mul sign) (digits radix s3 None).
End Js.

(** ** The search result cache (searchHandler.ts) *)

Module SearchHandler.

(** A search result as the checkout reads it; the cache itself stores
    [any]. *)
Record SearchProduct := {
  title : option string;
  price : option string;
  link : option string;
  thumbnail : option string;
  snippet : option string
}.

Record CacheEntry := {
  products : list SearchProduct;
  timestamp : Z;
  query : string
}.

Definition CACHE_DURATION : Z := 2 * 60 * 60 * 1000.

(** [Date.now() - cache.timestamp > CACHE_DURATION] *)
Definition isExpired (now : Z) (cache : CacheEntry) : bool :=
  now - timestamp cache >? CACHE_DURATION.

(** [cacheSearchResults]: [t_store] is the clock read stamped on the
    entry, [t_clean] the later read used by the clean-up loop. *)
Definition cacheSearchResults (t_store t_clean : Z) (userId : Z)
    (ps : list SearchProduct) (q : string)
    (searchCache : gmap Z CacheEntry) : gmap Z CacheEntry :=
  let stored :=
    <[userId := {| products := ps; timestamp := t_store; query := q |}]>
      searchCache in
  filter (fun kv => isExpired t_clean (snd kv) = false) stored.

(** [getCachedSearchResults]: the result and the cache after the read. *)
Definition getCachedSearchResults (now : Z) (userId : Z)
    (searchCache : gmap Z CacheEntry)
    : option (list SearchProduct * string) * gmap Z CacheEntry :=
  match searchCache !! userId with
  | None => (None, searchCache)
  | Some cache =>
      if isExpired now cache then (None, delete userId searchCache)
      else (Some (products cache, query cache), searchCache)
  end.

(** [getCachedProduct] *)
Definition getCachedProduct (now : Z) (userId : Z) (index : Z)
    (searchCache : gmap Z CacheEntry)
    : option SearchProduct * gmap Z CacheEntry :=
  match getCachedSearchResults now userId searchCache with
  | (None, c) => (None, c)
  | (Some (ps, _), c) =>
      if (index <? 0) || (index >=? Z.of_nat (length ps)) then (None, c)
      else (ps !! Z.to_nat index, c)
  end.

(** What [handleSearchCallback] makes of a callback query before it
    searches: one of its three early answers, or the query and the page
    it goes on to search for and to show. *)
Inductive SearchCallback :=
| InvalidCallbackData
| InvalidSearchCallback
| InvalidPageNumber
| LoadPage (searchQuery : string) (page : Z).

(** [!n] for an optional number: [undefined] and [0] are falsy. *)
Definition falsy (n : option Z) : bool :=
  match n with
  | Some k => k =? 0
  | None => true
  end.

(** The checks of [handleSearchCallback] on the chat, the message and
    the callback data [search:query:page]. *)
Definition handleSearchCallback_parse (chatId messageId : option Z)
    (data : option string) : SearchCallback :=
  if falsy chatId || falsy messageId then InvalidCallbackData
  else
    match Js.split ":" (Js.or_else data "") with
    | [p0; p1; p2] =>
        if negb (String.eqb p0 "search") then InvalidSearchCallback
        else
          match Js.parseInt (Js.or_else (Some p2) "1") with
          | None => InvalidPageNumber
          | Some page =>
              if page <? 1 then InvalidPageNumber
              else LoadPage (Js.or_else (Some p1) "") page
          end
    | _ => InvalidSearchCallback
    end.

End SearchHandler.

(** ** The wallet registry (wallet.ts) *)

Module Wallet.

Inductive WalletStatus := not_created | creating | created | error.

Record WalletUser := {
  userId : Z;
  telegramUsername : option string;
  firstName : option string;
  email : option string;
  crossmintUserId : option string;
  walletAddress : option string;
  walletStatus : WalletStatus;
  authToken : option string;
  createdAt : Z;
  lastActivity : Z
}.

(** The part of the process environment the wallet service reads. *)
Record Config := {
  webAppUrl : string;
  nodeEnv : option string;
  serverApiKey : string;
  baseUrl : string
}.

(** A top-up URL, kept in its parts:
    [webAppUrl/topup?session=topup_<user>_<time>&amount=..&currency=..]. *)
Record TopUpLink := {
  topUpBase : string;
  topUpUser : Z;
  topUpTime : Z;
  topUpAmount : Z;
  topUpCurrency : string
}.

(** [isValidWebAppUrl()] on the configured URL. *)
Definition isValidWebAppUrl (cfg : Config) : bool :=
  let urlToValidate := webAppUrl cfg in
  if negb (Js.truthy urlToValidate)
     || negb (Js.starts_with "https://" urlToValidate)
  then false
  else
    let isDevelopment :=
      match nodeEnv cfg with
      | Some e => String.eqb e "development"
      | None => false
      end in
    let isLocalhost := Js.includes urlToValidate "localhost" in
    let isNotPlaceholder :=
      negb (Js.includes urlToValidate "your-app.vercel.app") in
    if isDevelopment && isLocalhost then true else isNotPlaceholder.

Definition getUser (walletUsers : gmap Z WalletUser) (uid : Z)
    : option WalletUser :=
  walletUsers !! uid.

Definition status_created (s : WalletStatus) : bool :=
  match s with created => true | _ => false end.

Definition hasWallet (walletUsers : gmap Z WalletUser) (uid : Z) : bool :=
  match getUser walletUsers uid with
  | Some user =>
      status_created (walletStatus user) && Js.truthy_opt (walletAddress user)
  | None => false
  end.

(** [generateTopUpLink]: throws without a wallet, gives [null] when the
    web application URL is unusable, and a link otherwise. *)
Definition generateTopUpLink (cfg : Config) (now : Z)
    (walletUsers : gmap Z WalletUser) (uid amount : Z) (currency : string)
    : Js.Completion (option TopUpLink) :=
  match getUser walletUsers uid with
  | Some user =>
      if Js.truthy_opt (walletAddress user) then
        if negb (isValidWebAppUrl cfg) then Js.Return None
        else Js.Return (Some {| topUpBase := webAppUrl cfg;
                                topUpUser := uid;
                                topUpTime := now;
                                topUpAmount := amount;
                                topUpCurrency := currency |})
      else Js.Throw (Js.JsError "User wallet not found")
  | None => Js.Throw (Js.JsError "User wallet not found")
  end.

Record TokenBalance := {
  balanceChain : string;
  balanceCurrency : string;
  balanceAmount : string;
  decimals : Z
}.

(** [getWalletBalance]: [null] without a wallet; otherwise what the
    balance request gives after its transformation, [null] when the
    request fails, is answered with an error status or is malformed. *)
Definition getWalletBalance (fetchBalances : string -> option (list TokenBalance))
    (walletUsers : gmap Z WalletUser) (uid : Z)
    : option (list TokenBalance) :=
  match getUser walletUsers uid with
  | Some user =>
      match walletAddress user with
      | Some addr => if Js.truthy addr then fetchBalances addr else None
      | None => None
      end
  | None => None
  end.

(** An authentication URL, kept in its parts: the base and the user id
    and clock read encoded in its [state] parameter. *)
Record AuthLink := {
  authBase : string;
  authUser : Z;
  authTime : Z
}.

(** [generateAuthLink]: creates or touches the user record, then builds
    the link unless the web application URL is unusable. *)
Definition generateAuthLink (cfg : Config) (now : Z)
    (walletUsers : gmap Z WalletUser) (uid : Z)
    (username first : option string)
    : option AuthLink * gmap Z WalletUser :=
  let walletUsers' :=
    match walletUsers !! uid with
    | None =>
        <[uid := {| userId := uid;
                    telegramUsername :=
                      if Js.truthy_opt username then username else None;
                    firstName := if Js.truthy_opt first then first else None;
                    email := None;
                    crossmintUserId := None;
                    walletAddress := None;
                    walletStatus := not_created;
                    authToken := None;
                    createdAt := now;
                    lastActivity := now |}]> walletUsers
    | Some user =>
        <[uid := {| userId := userId user;
                    telegramUsername :=
                      if Js.truthy_opt username then username
                      else telegramUsername user;
                    firstName :=
                      if Js.truthy_opt first then first else firstName user;
                    email := email user;
                    crossmintUserId := crossmintUserId user;
                    walletAddress := walletAddress user;
                    walletStatus := walletStatus user;
                    authToken := authToken user;
                    createdAt := createdAt user;
                    lastActivity := now |}]> walletUsers
    end in
  if negb (isValidWebAppUrl cfg) then (None, walletUsers')
  else (Some {| authBase := webAppUrl cfg; authUser := uid; authTime := now |},
        walletUsers').

(** *** Authentication and logout *)

(** What the web application reports after a login; the webhook hands
    [email] and [authToken] over as it received them. *)
Record AuthData := {
  authEmail : option string;
  authCrossmintUserId : string;
  authWalletAddress : string;
  authJwt : option string
}.

(** [updateUserAuth]: the record is created when absent ([t_created] is
    the clock read of the creation, [now] the later one of the update),
    then the wallet is written into it. *)
Definition updateUserAuth (t_created now : Z)
    (walletUsers : gmap Z WalletUser) (uid : Z) (authData : AuthData)
    : gmap Z WalletUser :=
  let user :=
    match walletUsers !! uid with
    | Some user => user
    | None =>
        {| userId := uid;
           telegramUsername := None;
           firstName := None;
           email := None;
           crossmintUserId := None;
           walletAddress := None;
           walletStatus := not_created;
           authToken := None;
           createdAt := t_created;
           lastActivity := t_created |}
    end in
  <[uid := {| userId := userId user;
              telegramUsername := telegramUsername user;
              firstName := firstName user;
              email :=
                if Js.truthy_opt (authEmail authData)
                then authEmail authData else None;
              crossmintUserId := Some (authCrossmintUserId authData);
              walletAddress := Some (authWalletAddress authData);
              walletStatus := created;
              authToken := authJwt authData;
              createdAt := createdAt user;
              lastActivity := now |}]> walletUsers.

Definition isUserLoggedIn (walletUsers : gmap Z WalletUser) (uid : Z) : bool :=
  match walletUsers !! uid with
  | Some user =>
      status_created (walletStatus user)
      && Js.truthy_opt (walletAddress user)
      && Js.truthy_opt (authToken user)
  | None => false
  end.

(** *** Top-up sessions and transactions *)

Inductive TopUpStatus :=
| session_initiated
| session_pending
| session_completed
| session_failed
| session_expired.

Record TopUpSession := {
  sessionUser : Z;
  sessionId : string;
  sessionAmount : Z;
  sessionCurrency : string;
  sessionStatus : TopUpStatus;
  sessionOrderId : option string;
  sessionCreatedAt : Z;
  expiresAt : Z
}.

(** The decimal text of an integer in a template literal. *)
Definition decimal (n : Z) : string :=
  DecimalString.NilZero.string_of_int (Z.to_int n).

(** [`topup_${userId}_${Date.now()}`] *)
Definition topUpSessionId (uid now : Z) : string :=
  "topup_" ++ decimal uid ++ "_" ++ decimal now.

(** The session [generateTopUpLink] records for the link it returns.
    The call reads the clock three times: the link carries the read
    that names the session, [t_created] is the read stored as
    [createdAt] and [t_expires] the read that [expiresAt] adds thirty
    minutes to. *)
Definition topUpSessionOf (l : TopUpLink) (t_created t_expires : Z)
    : TopUpSession :=
  {| sessionUser := topUpUser l;
     sessionId := topUpSessionId (topUpUser l) (topUpTime l);
     sessionAmount := topUpAmount l;
     sessionCurrency := topUpCurrency l;
     sessionStatus := session_initiated;
     sessionOrderId := None;
     sessionCreatedAt := t_created;
     expiresAt := t_expires + 30 * 60 * 1000 |}.

(** The session store after [generateTopUpLink] with the clock reads
    [now], [t_created] and [t_expires], in this order: a session is
    recorded exactly when a link is returned. *)
Definition generateTopUpLink_sessions (cfg : Config)
    (now t_created t_expires : Z) (walletUsers : gmap Z WalletUser)
    (uid amount : Z) (currency : string)
    (topUpSessions : gmap string TopUpSession) : gmap string TopUpSession :=
  match generateTopUpLink cfg now walletUsers uid amount currency with
  | Js.Return (Some l) =>
      <[sessionId (topUpSessionOf l t_created t_expires)
        := topUpSessionOf l t_created t_expires]> topUpSessions
  | _ => topUpSessions
  end.

Definition getTopUpSession (topUpSessions : gmap string TopUpSession)
    (sid : string) : option TopUpSession :=
  topUpSessions !! sid.

(** [cleanupExpiredSessions]: the sessions with [now > expiresAt] go. *)
Definition cleanupExpiredSessions (now : Z)
    (topUpSessions : gmap string TopUpSession) : gmap string TopUpSession :=
  filter (fun kv => (now >? expiresAt (snd kv)) = false) topUpSessions.

(** A [WalletTransaction], without its type, its status and the
    description of its product. *)
Record WalletTransaction := {
  transactionId : string;
  transactionUser : Z;
  transactionWallet : string;
  transactionAmount : string;
  transactionCurrency : string;
  transactionChain : string;
  transactionCreatedAt : Z
}.

(** The three in-memory maps of the service. *)
Record Stores := {
  walletUsers : gmap Z WalletUser;
  topUpSessions : gmap string TopUpSession;
  transactions : gmap string WalletTransaction
}.

(** [clearUser]: [false] without a record; otherwise the record, the
    user's top-up sessions and the user's transactions are deleted. *)
Definition clearUser (uid : Z) (s : Stores) : bool * Stores :=
  match walletUsers s !! uid with
  | None => (false, s)
  | Some _ =>
      (true,
       {| walletUsers := delete uid (walletUsers s);
          topUpSessions :=
            filter (fun kv => sessionUser (snd kv) <> uid) (topUpSessions s);
          transactions :=
            filter (fun kv => transactionUser (snd kv) <> uid)
              (transactions s) |})
  end.

End Wallet.

(** ** The headless checkout service (checkout.ts) *)

Module Checkout.

Record PhysicalAddress := {
  name : string;
  line1 : string;
  line2 : option string;
  city : string;
  state : option string;
  postalCode : string;
  country : string
}.

Record Recipient := {
  recipientEmail : string;
  physicalAddress : PhysicalAddress
}.

Record Payment := {
  method : string;
  currency : string;
  payerAddress : string;
  receiptEmail : option string
}.

Record LineItem := { productLocator : string }.

Record CreateOrderRequest := {
  recipient : Recipient;
  payment : Payment;
  lineItems : list LineItem
}.

Record Price := { amount : string; priceCurrency : string }.

Record Quote := { quoteStatus : string; totalPrice : Price }.

Record Preparation := {
  chain : option string;
  preparationPayer : option string;
  serializedTransaction : option string
}.

Record OrderPayment := {
  paymentStatus : string;
  paymentMethod : string;
  paymentCurrency : string;
  preparation : option Preparation
}.

(** The fields of [OrderResponseSchema] the service and its callers
    read; [lineItems] of the response is validated but not read. *)
Record Order := {
  orderId : string;
  phase : string;
  locale : option string;
  quote : Quote;
  orderPayment : OrderPayment
}.

Record OrderResponse := {
  order : Order;
  orderClientSecret : option string
}.

Record AmazonProduct := {
  title : string;
  price : string;
  amazonUrl : string;
  imageUrl : option string;
  description : option string
}.

(** What [createWalletAmazonOrder] is declared to return:
    [OrderResponse & { requiresTransaction; serializedTransaction? }]. *)
Record WalletOrder := {
  response : OrderResponse;
  requiresTransaction : bool;
  walletTransaction : option string
}.

(** *** Locator extraction *)

(** [[A-Z0-9]] under the [i] flag. *)
Definition is_alnum (c : ascii) : bool :=
  let n := nat_of_ascii c in
  ((48 <=? n) && (n <=? 57) || (65 <=? n) && (n <=? 90)
   || (97 <=? n) && (n <=? 122))%nat.

(** A literal of the pattern against a prefix of the input, under [i]. *)
Fixpoint strip_prefix_ci (p s : string) : option string :=
  match p, s with
  | EmptyString, _ => Some s
  | String a p', String b s' =>
      if Ascii.eqb (Js.upper_ascii a) (Js.upper_ascii b)
      then strip_prefix_ci p' s' else None
  | String _ _, EmptyString => None
  end.

(** [([A-Z0-9]{n})]: the next [n] characters when all are in the class. *)
Fixpoint take_alnum (n : nat) (s : string) : option string :=
  match n with
  | O => Some EmptyString
  | S n' =>
      match s with
      | String c s' =>
          if is_alnum c
          then option_map (String c) (take_alnum n' s') else None
      | EmptyString => None
      end
  end.

Fixpoint first_alternative (alts : list string) (s : string) : option string :=
  match alts with
  | [] => None
  | p :: alts' =>
      match strip_prefix_ci p s with
      | Some rest =>
          match take_alnum 10 rest with
          | Some a => Some a
          | None => first_alternative alts' s
          end
      | None => first_alternative alts' s
      end
  end.

(** [s.match(/(?:p1|p2|..)([A-Z0-9]{10})/i)], group 1 of the leftmost
    match. *)
Fixpoint match_group (alts : list string) (s : string) : option string :=
  match first_alternative alts s with
  | Some a => Some a
  | None =>
      match s with
      | EmptyString => None
      | String _ s' => match_group alts s'
      end
  end.

(** [/\/(?:dp|gp\/product)\/([A-Z0-9]{10})/i] *)
Definition asinMatch (amazonUrl : string) : option string :=
  match_group ["/dp/"; "/gp/product/"] amazonUrl.

(** [/amazon\.com\/dp\/([A-Z0-9]{10})/i] *)
Definition urlMatch (amazonUrl : string) : option string :=
  match_group ["amazon.com/dp/"] amazonUrl.

Definition extractProductLocator (amazonUrl : string) : option string :=
  match asinMatch amazonUrl with
  | Some extractedAsin => Some ("amazon:" ++ extractedAsin)
  | None =>
      match urlMatch amazonUrl with
      | Some asinFromUrl => Some ("amazon:" ++ asinFromUrl)
      | None => None
      end
  end.

Definition getBestBlockchainForWallet (_walletAddress : string) : string :=
  "base-sepolia".

Definition getProductLocatorVariations (asin amazonUrl : string)
    : list string :=
  [ "amazon:" ++ asin;
    "amazon:https://www.amazon.com/dp/" ++ asin;
    "amazon:" ++ amazonUrl;
    asin;
    "https://www.amazon.com/dp/" ++ asin ].

(** *** The provider's answer to [POST /orders] *)

(** A response body either conforms to [OrderResponseSchema] or makes
    [parse] throw a [ZodError]. *)
Inductive ResponseData :=
| Conforming (r : OrderResponse)
| NonConforming (issues : string).

Inductive PostReply :=
| Resolved (status : Z) (data : ResponseData)
| RejectedAxios (status : option Z) (dataMessage statusText : option string)
    (message : string)
| RejectedOther (e : Js.Error).

Definition OrderResponseSchema_parse (d : ResponseData)
    : Js.Completion OrderResponse :=
  match d with
  | Conforming r => Js.Return r
  | NonConforming issues => Js.Throw (Js.ZodError issues)
  end.

(** The provider: its reply to the [i]-th order request of one
    [createOrderWithRetry] run. *)
Definition Provider := nat -> CreateOrderRequest -> PostReply.

Definition with_locator (orderRequest : CreateOrderRequest) (locator : string)
    : CreateOrderRequest :=
  {| recipient := recipient orderRequest;
     payment := payment orderRequest;
     lineItems := [ {| productLocator := locator |} ] |}.

(** [status !== 400 || !message?.includes('Product not found')] *)
Definition not_product_not_found (status : option Z)
    (message : option string) : bool :=
  negb (match status with Some st => st =? 400 | None => false end)
  || negb (match message with
           | Some m => Js.includes m "Product not found"
           | None => false
           end).

(** The loop of [createOrderWithRetry] from iteration [i] on, with the
    requests it posts. *)
Fixpoint retry_loop (post : Provider) (orderRequest : CreateOrderRequest)
    (i : nat) (lastError : Js.Error) (variations : list string)
    : Js.Completion OrderResponse * list CreateOrderRequest :=
  match variations with
  | [] => (Js.Throw lastError, [])
  | locator :: rest =>
      let currentRequest := with_locator orderRequest locator in
      match post i currentRequest with
      | Resolved _ data =>
          match OrderResponseSchema_parse data with
          | Js.Return r => (Js.Return r, [currentRequest])
          | Js.Throw e =>
              let (res, calls) := retry_loop post orderRequest (S i) e rest in
              (res, currentRequest :: calls)
          end
      | RejectedAxios status message statusText m =>
          let e := Js.AxiosError status message statusText m in
          if not_product_not_found status message
          then (Js.Throw e, [currentRequest])
          else
            let (res, calls) := retry_loop post orderRequest (S i) e rest in
            (res, currentRequest :: calls)
      | RejectedOther e =>
          let (res, calls) := retry_loop post orderRequest (S i) e rest in
          (res, currentRequest :: calls)
      end
  end.

Definition createOrderWithRetry (post : Provider)
    (orderRequest : CreateOrderRequest) (productLocatorVariations : list string)
    : Js.Completion OrderResponse * list CreateOrderRequest :=
  retry_loop post orderRequest 0 Js.ThrownNull productLocatorVariations.

(** The [catch] of [createWalletAmazonOrder]: every error leaves as a
    fresh [Error] with a message chosen by its kind. *)
Definition rewrap (e : Js.Error) : Js.Error :=
  match e with
  | Js.AxiosError status dataMessage statusText m =>
      let message :=
        if Js.truthy_opt dataMessage then dataMessage else statusText in
      match status with
      | Some 400 =>
          Js.JsError ("Invalid order data: "
            ++ Js.or_else message "Check product locator and payment details")
      | Some 401 | Some 403 =>
          Js.JsError "Invalid Crossmint API key or insufficient permissions"
      | Some 404 =>
          Js.JsError "Product not found or not supported for Amazon purchases"
      | _ =>
          if match status with
             | Some st => negb (st =? 0) && (st >=? 500)
             | None => false
             end
          then Js.JsError "Crossmint service is temporarily unavailable"
          else Js.JsError ("Order creation failed: " ++ Js.or_else message m)
      end
  | Js.ZodError _ =>
      Js.JsError "Invalid response format from Crossmint API"
  | _ =>
      Js.JsError ("Unexpected error during order creation: " ++ Js.display e)
  end.

(** The checks of [createWalletAmazonOrder] on a validated response. *)
Definition classify (validatedResponse : OrderResponse)
    : Js.Completion WalletOrder :=
  let o := order validatedResponse in
  if String.eqb (paymentStatus (orderPayment o))
       "crypto-payer-insufficient-funds"
  then Js.Throw (Js.JsError "Insufficient USDC funds in wallet")
  else if String.eqb (quoteStatus (quote o)) "requires-physical-address"
  then Js.Throw (Js.JsError "Physical address is required for this product")
  else
    let tx :=
      match preparation (orderPayment o) with
      | Some prep => serializedTransaction prep
      | None => None
      end in
    if negb (Js.truthy_opt tx)
    then Js.Throw (Js.JsError
      "No serialized transaction found for order. This item may not be available for purchase.")
    else Js.Return {| response := validatedResponse;
                      requiresTransaction := true;
                      walletTransaction := tx |}.

(** The [orderRequest] literal of [createWalletAmazonOrder]. *)
Definition orderRequestFor (userEmail walletAddress : string)
    (shippingAddress : PhysicalAddress) (locator : string)
    : CreateOrderRequest :=
  let blockchainMethod := getBestBlockchainForWallet walletAddress in
  {| recipient := {| recipientEmail := userEmail;
                     physicalAddress := shippingAddress |};
     payment := {| method := blockchainMethod;
                   currency := "usdc";
                   payerAddress := walletAddress;
                   receiptEmail := Some userEmail |};
     lineItems := [ {| productLocator := locator |} ] |}.

(** The [try] block of [createWalletAmazonOrder]. *)
Definition createWalletAmazonOrder_try (post : Provider)
    (product : AmazonProduct) (userEmail walletAddress : string)
    (shippingAddress : PhysicalAddress)
    : Js.Completion WalletOrder * list CreateOrderRequest :=
  match extractProductLocator (amazonUrl product) with
  | None =>
      (Js.Throw (Js.JsError
         "Could not extract product locator from Amazon URL"), [])
  | Some locator =>
      match asinMatch (amazonUrl product) with
      | None =>
          (Js.Throw (Js.JsError "Could not extract ASIN from Amazon URL"), [])
      | Some asin =>
          if negb (Js.truthy asin) then
            (Js.Throw (Js.JsError "Could not extract ASIN from Amazon URL"),
             [])
          else if negb (String.eqb (country shippingAddress) "US") then
            (Js.Throw (Js.JsError
               "Only US shipping addresses are supported at this time"), [])
          else if negb (Js.truthy_opt (state shippingAddress)) then
            (Js.Throw (Js.JsError
               "State is required for US shipping addresses"), [])
          else
            let orderRequest :=
              orderRequestFor userEmail walletAddress shippingAddress locator in
            let productLocatorVariations :=
              getProductLocatorVariations asin (amazonUrl product) in
            match createOrderWithRetry post orderRequest
                    productLocatorVariations with
            | (Js.Return validatedResponse, calls) =>
                (classify validatedResponse, calls)
            | (Js.Throw e, calls) => (Js.Throw e, calls)
            end
      end
  end.

Definition createWalletAmazonOrder (post : Provider)
    (product : AmazonProduct) (userEmail walletAddress : string)
    (shippingAddress : PhysicalAddress)
    : Js.Completion WalletOrder * list CreateOrderRequest :=
  match createWalletAmazonOrder_try post product userEmail walletAddress
          shippingAddress with
  | (Js.Return r, calls) => (Js.Return r, calls)
  | (Js.Throw e, calls) => (Js.Throw (rewrap e), calls)
  end.

(** *** Transaction submission *)

(** The wallet provider's answer to [POST /wallets/<address>/transactions]. *)
Inductive TransactionReply :=
| TxResolved (status : Z) (id transactionId : option string)
| TxRejectedResponse (dataMessage : option string) (statusText : string)
| TxRejectedNetwork (message : string).

Record SigningResult := {
  success : bool;
  signedTransactionId : option string;
  signingError : option string
}.

(** The wallet provider, by wallet address, transaction and chain. *)
Definition Signer := string -> string -> string -> TransactionReply.

(** The decimal text of a status code in a template literal. *)
Definition show_status (n : Z) : string :=
  DecimalString.NilZero.string_of_int (Z.to_int n).

Definition signOrderTransaction (submit : Signer)
    (walletAddress tx chainName : string) : SigningResult :=
  match submit walletAddress tx chainName with
  | TxResolved status id transactionId =>
      if (status =? 200) || (status =? 201) then
        {| success := true;
           signedTransactionId :=
             if Js.truthy_opt id then id else transactionId;
           signingError := None |}
      else
        {| success := false;
           signedTransactionId := None;
           signingError :=
             Some ("Transaction failed with status: " ++ show_status status) |}
  | TxRejectedResponse dataMessage statusText =>
      {| success := false;
         signedTransactionId := None;
         signingError :=
           Some ("Transaction signing failed: "
                 ++ Js.or_else dataMessage statusText) |}
  | TxRejectedNetwork message =>
      {| success := false;
         signedTransactionId := None;
         signingError := Some ("Network error: " ++ message) |}
  end.

(** *** URL validation *)

(** [/amazon\.com\/.*\/dp\/[A-Z0-9]{10}/i] *)
Definition amazonUrlPattern : Js.Regex :=
  Js.Seq (Js.literal_ci "amazon.com/")
    (Js.Seq (Js.Star Js.dot)
       (Js.Seq (Js.literal_ci "/dp/") (Js.repeat_n 10 (Js.Cls is_alnum)))).

Definition validateAmazonUrl (url : string) : bool :=
  Js.search amazonUrlPattern url.

End Checkout.

(** ** The delegated-signer check (delegation.ts) *)

Module Delegation.

Definition BOT_SIGNER_ADDRESS : string :=
  "0x9AF659Ef26583C0793c35C52E076FBeA6486E31d".

Record DelegatedSigner := { signer : string }.

(** What [response.json()] gives: it may throw, give something that is
    not an array, or give the list of delegated signers. *)
Inductive SignersBody :=
| BodyThrows (e : Js.Error)
| BodyNotArray
| BodySigners (l : list DelegatedSigner).

(** The outcome of [fetch] on the signers endpoint. *)
Inductive FetchReply :=
| FetchRejected (e : Js.Error)
| FetchResponse (ok : bool) (body : SignersBody).

Definition signers_url (cfg : Wallet.Config) (walletAddress : string)
    : string :=
  Wallet.baseUrl cfg ++ "/api/2022-06-09/wallets/" ++ walletAddress
  ++ "/signers".

Section WithRuntime.
Context {cm : Js.CaseMapping}.

(** [delegatedSigners.some(s => s.signer.toLowerCase() ===
    BOT_SIGNER_ADDRESS.toLowerCase())] *)
Definition some_is_bot (delegatedSigners : list DelegatedSigner) : bool :=
  existsb
    (fun s => String.eqb (Js.toLowerCase (signer s))
                         (Js.toLowerCase BOT_SIGNER_ADDRESS))
    delegatedSigners.

(** The [try] block of [isDelegatedToBotSigner]. *)
Definition isDelegatedToBotSigner_try (cfg : Wallet.Config)
    (fetch : string -> FetchReply)
    (walletUsers : gmap Z Wallet.WalletUser) (uid : Z)
    : Js.Completion bool :=
  match Wallet.getUser walletUsers uid with
  | None => Js.Return false
  | Some user =>
      match Wallet.walletAddress user with
      | None => Js.Return false
      | Some addr =>
          if negb (Js.truthy addr) then Js.Return false
          else if negb (Js.truthy (Wallet.serverApiKey cfg))
          then Js.Return false
          else
            match fetch (signers_url cfg addr) with
            | FetchRejected e => Js.Throw e
            | FetchResponse false _ => Js.Return false
            | FetchResponse true (BodyThrows e) => Js.Throw e
            | FetchResponse true BodyNotArray =>
                Js.Throw (Js.JsError "delegatedSigners.some is not a function")
            | FetchResponse true (BodySigners delegatedSigners) =>
                if some_is_bot delegatedSigners then Js.Return true
                else Js.Return false
            end
      end
  end.

(** [isDelegatedToBotSigner]: the [catch] answers [false]. *)
Definition isDelegatedToBotSigner (cfg : Wallet.Config)
    (fetch : string -> FetchReply)
    (walletUsers : gmap Z Wallet.WalletUser) (uid : Z)
    : Js.Completion bool :=
  match isDelegatedToBotSigner_try cfg fetch walletUsers uid with
  | Js.Return b => Js.Return b
  | Js.Throw _ => Js.Return false
  end.

End WithRuntime.

End Delegation.

(** ** The conversation memory (utils/memory.ts) *)

Module Memory.

Inductive Role := user | assistant.

Inductive MessageType := text | command | callback | checkout.

Record StoredMessage := {
  timestamp : Z;
  role : Role;
  content : string;
  messageType : MessageType
}.

(** A preference object: a field is [None] when the key is absent. *)
Record Preferences := {
  preferredCategories : option (list string);
  priceRange : option (Z * Z);
  lastSearchQuery : option string
}.

Record MessageMemory := {
  userId : Z;
  username : option string;
  firstName : option string;
  messages : list StoredMessage;
  preferences : option Preferences
}.

Record UserInfo := {
  infoUsername : option string;
  infoFirstName : option string
}.

Definition MAX_MESSAGES_PER_USER : Z := 20.

Definition MAX_MEMORY_AGE : Z := 24 * 60 * 60 * 1000.

(** [addMessage]: the memory is created when absent, the trimmed
    message is pushed, the latest messages are kept and the user's
    names are refreshed. *)
Definition addMessage (now : Z) (uid : Z) (r : Role) (c : string)
    (mt : MessageType) (userInfo : option UserInfo)
    (userMemories : gmap Z MessageMemory) : gmap Z MessageMemory :=
  let memory :=
    match userMemories !! uid with
    | Some memory => memory
    | None =>
        {| userId := uid;
           username := userInfo ≫= infoUsername;
           firstName := userInfo ≫= infoFirstName;
           messages := [];
           preferences := None |}
    end in
  let pushed :=
    (messages memory
     ++ [ {| timestamp := now; role := r; content := Js.trim c;
             messageType := mt |} ])%list in
  <[uid := {| userId := userId memory;
              username :=
                if Js.truthy_opt (userInfo ≫= infoUsername)
                then userInfo ≫= infoUsername else username memory;
              firstName :=
                if Js.truthy_opt (userInfo ≫= infoFirstName)
                then userInfo ≫= infoFirstName else firstName memory;
              messages :=
                if Z.of_nat (length pushed) >? MAX_MESSAGES_PER_USER
                then Js.slice_from pushed (- MAX_MESSAGES_PER_USER)
                else pushed;
              preferences := preferences memory |}]> userMemories.

Definition getConversationHistory (uid : Z)
    (userMemories : gmap Z MessageMemory) : list (Role * string) :=
  match userMemories !! uid with
  | None => []
  | Some memory => map (fun msg => (role msg, content msg)) (messages memory)
  end.

Definition role_text (r : Role) : string :=
  match r with user => "user" | assistant => "assistant" end.

(** [getRecentMessages(userId, count)]; [count] is 10 when left out. *)
Definition getRecentMessages (uid : Z) (count : Z)
    (userMemories : gmap Z MessageMemory) : list string :=
  match userMemories !! uid with
  | None => []
  | Some memory =>
      map (fun msg => role_text (role msg) ++ ": " ++ content msg)
        (Js.slice_from (messages memory) (- count))
  end.

Definition getUserMemory (uid : Z) (userMemories : gmap Z MessageMemory)
    : option MessageMemory :=
  userMemories !! uid.

(** [{ ...memory.preferences, ...preferences }] *)
Definition spread (old : option Preferences) (new : Preferences)
    : Preferences :=
  {| preferredCategories :=
       match preferredCategories new with
       | Some v => Some v
       | None => old ≫= preferredCategories
       end;
     priceRange :=
       match priceRange new with
       | Some v => Some v
       | None => old ≫= priceRange
       end;
     lastSearchQuery :=
       match lastSearchQuery new with
       | Some v => Some v
       | None => old ≫= lastSearchQuery
       end |}.

Definition updateUserPreferences (uid : Z) (new : Preferences)
    (userMemories : gmap Z MessageMemory) : gmap Z MessageMemory :=
  let memory :=
    match userMemories !! uid with
    | Some memory => memory
    | None =>
        {| userId := uid;
           username := None;
           firstName := None;
           messages := [];
           preferences := None |}
    end in
  <[uid := {| userId := userId memory;
              username := username memory;
              firstName := firstName memory;
              messages := messages memory;
              preferences := Some (spread (preferences memory) new) |}]>
    userMemories.

Definition clearUserMemory (uid : Z) (userMemories : gmap Z MessageMemory)
    : gmap Z MessageMemory :=
  delete uid userMemories.

(** [memory.messages[memory.messages.length - 1]?.timestamp || 0] *)
Definition lastMessageTime (memory : MessageMemory) : Z :=
  match last (messages memory) with
  | Some msg => timestamp msg
  | None => 0
  end.

(** [cleanupOldMemories]: the memories whose last message is older
    than [MAX_MEMORY_AGE] go. *)
Definition cleanupOldMemories (now : Z) (userMemories : gmap Z MessageMemory)
    : gmap Z MessageMemory :=
  filter (fun kv => (now - lastMessageTime (snd kv) >? MAX_MEMORY_AGE) = false)
    userMemories.

End Memory.

(** ** Message formatting (commerce/search/formatting.ts) *)

Module Formatting.

(** [truncateText] *)
Definition truncateText (text : string) (maxLength : Z) : string :=
  if Z.of_nat (String.length text) <=? maxLength then text
  else Js.substring_to text (maxLength - 3) ++ "...".

(** The characters [escapeMarkdown] replaces, in the order of its
    [replace] calls. *)
Definition special_characters : list ascii :=
  ["*"; "_"; "["; "]"; "("; ")"; "~"; "`"; ">"; "#"; "+"; "-"; "="; "|";
   "{"; "}"; "."; "!"]%char.

(** The replacement of one call: a backslash and the character. *)
Definition escaped (c : ascii) : string :=
  String "\" (String c EmptyString).

(** [escapeMarkdown]: one global [replace] per special character. *)
Definition escapeMarkdown (text : string) : string :=
  fold_left (fun s c => Js.replace_all c (escaped c) s)
    special_characters text.

(** Inline keyboard buttons of a result page, by their action; the
    pagination buttons with the callback data they carry. *)
Inductive InlineButton :=
| ViewOnAmazon (url : string)
| BuyWithCrossmint (index : Z)
| Previous (callback_data : string)
| PageIndicator (currentPage totalPages : Z)
| Next (callback_data : string).

(** [`search:${query}:${page}`] *)
Definition search_callback_data (query : string) (page : Z) : string :=
  "search:" ++ query ++ ":" ++ Wallet.decimal page.

Definition createPaginationKeyboard (query : string)
    (currentPage totalPages : Z) : list (list InlineButton) :=
  if totalPages >? 1 then
    [ ((if currentPage >? 1
        then [Previous (search_callback_data query (currentPage - 1))]
        else [])
       ++ [PageIndicator currentPage totalPages]
       ++ (if currentPage <? totalPages
           then [Next (search_callback_data query (currentPage + 1))]
           else []))%list ]
  else [].

Definition createProductActionKeyboard (product : SearchHandler.SearchProduct)
    (index : Z) : list (list InlineButton) :=
  [ ((match SearchHandler.link product with
      | Some url => if Js.truthy url then [ViewOnAmazon url] else []
      | None => []
      end)
     ++ [BuyWithCrossmint index])%list ].

(** [Math.ceil(n / d)] for a positive [d]. *)
Definition ceil_div (n d : Z) : Z := (n + d - 1) / d.

(** The products [formatProductList] shows on a page. *)
Definition currentProducts (products : list SearchHandler.SearchProduct)
    (page itemsPerPage : Z) : list SearchHandler.SearchProduct :=
  let startIdx := (page - 1) * itemsPerPage in
  let endIdx :=
    Z.min (startIdx + itemsPerPage) (Z.of_nat (length products)) in
  Js.slice products startIdx endIdx.

(** The [keyboard] of [formatProductList]: the action row of every
    product shown, then the pagination row. *)
Definition formatProductList_keyboard
    (products : list SearchHandler.SearchProduct) (query : string)
    (page itemsPerPage : Z) : list (list InlineButton) :=
  if (length products =? 0)%nat then []
  else
    let startIdx := (page - 1) * itemsPerPage in
    let totalPages := ceil_div (Z.of_nat (length products)) itemsPerPage in
    (concat
       (imap (fun idx product =>
                createProductActionKeyboard product (startIdx + Z.of_nat idx))
          (currentProducts products page itemsPerPage))
     ++ createPaginationKeyboard query page totalPages)%list.

End Formatting.

(** ** The checkout session handler (checkoutHandler.ts) *)

Module CheckoutHandler.

Inductive Step :=
| product_selected
| collecting_email
| collecting_address
| creating_order
| completed.

Record UserSession := {
  userId : Z;
  selectedProduct : option Checkout.AmazonProduct;
  email : option string;
  physicalAddress : option Checkout.PhysicalAddress;
  step : Step;
  productIndex : option Z
}.

(** An incoming text message: [msg.from?.id], [msg.chat.id], [msg.text]. *)
Record Message := {
  from_id : option Z;
  chat_id : Z;
  text : option string
}.

(** Inline keyboard buttons, by their action. *)
Inductive Button :=
| BtnCancel
| BtnCreateWallet (l : Wallet.AuthLink)
| BtnAddFunds (l : Wallet.TopUpLink)
| BtnSearchAgain
| BtnTryAgain
| BtnCheckOrderStatus (orderId : string)
| BtnSearchMoreProducts
| BtnRetryBuy (index : Z).

(** The outgoing messages, by template and the values filled in. *)
Inductive Prompt :=
| WalletUnavailable (title : string)
| WalletRequired (title : string)
| FundsRequired (title : string)
| CheckoutStartError
| EmailRequired (title : string)
| ShippingAddressRequired (title : string)
| SomethingWentWrong
| InvalidEmail
| InvalidAddressFormat
| IncompleteAddress
| UnsupportedCountry
| CreatingOrder
| InsufficientFundsFor (title amount currency : string)
| ProcessingOrder (orderId title amount currency : string)
| PaymentSuccessful (orderId title amount currency : string)
    (transactionId : option string)
| PaymentFailed (error : string)
| OrderCreatedSuccessfully (orderId title amount currency status : string)
| InsufficientFunds
| ShippingRestriction
| OrderCreationFailed (errorMessage : string).

(** What one run does to the outside, in order. *)
Inductive Event :=
| EvSend (chatId : Z) (p : Prompt) (keyboard : list (list Button))
| EvSessionSet (uid : Z) (s : UserSession)
| EvSessionDelete (uid : Z)
| EvPostOrder (req : Checkout.CreateOrderRequest)
| EvSubmitTransaction (walletAddress tx chain : string)
| EvFetchSigners (url : string)
| EvTopUpSession (l : Wallet.TopUpLink)
| EvMonitor (orderId : string) (uid : Z).

(** The collaborators of a run. [deliver n] tells whether the [n]-th
    [sendMessage] resolves ([None]) or rejects with an [Error] of the
    given message; [fetchSigners] answers the request for a wallet's
    delegated signers. *)
Record Env := {
  config : Wallet.Config;
  clock : Z;
  deliver : nat -> option string;
  provider : Checkout.Provider;
  signerService : Checkout.Signer;
  fetchSigners : string -> Delegation.FetchReply;
  fetchBalances : string -> option (list Wallet.TokenBalance)
}.

(** The process-wide state the handler works on. *)
Record World := {
  userSessions : gmap Z UserSession;
  walletUsers : gmap Z Wallet.WalletUser;
  trace : list Event
}.

(** *** Computations over the world that may throw *)

Definition M (A : Type) : Type := World -> Js.Completion A * World.

Definition ret {A} (a : A) : M A := fun w => (Js.Return a, w).

Definition throw {A} (e : Js.Error) : M A := fun w => (Js.Throw e, w).

Definition bind {A B} (m : M A) (k : A -> M B) : M B :=
  fun w =>
    match m w with
    | (Js.Return a, w') => k a w'
    | (Js.Throw e, w') => (Js.Throw e, w')
    end.

Definition tryCatch {A} (body : M A) (handler : Js.Error -> M A) : M A :=
  fun w =>
    match body w with
    | (Js.Return a, w') => (Js.Return a, w')
    | (Js.Throw e, w') => handler e w'
    end.

Notation "'do' x <- m ; k" := (bind m (fun x => k))
  (at level 10, x name, m at level 100, k at level 200).
Notation "'run' m ; k" := (bind m (fun _ => k))
  (at level 10, m at level 100, k at level 200).

(** The world with further events on its trace. *)
Definition logged (w : World) (evs : list Event) : World :=
  {| userSessions := userSessions w;
     walletUsers := walletUsers w;
     trace := trace w ++ evs |}.

Definition emit (ev : Event) : M unit :=
  fun w => (Js.Return tt, logged w [ev]).

Definition is_send (ev : Event) : bool :=
  match ev with EvSend _ _ _ => true | _ => false end.

Definition sends_so_far (w : World) : nat :=
  length (filter (fun ev => is_send ev = true) (trace w)).

Definition sessionsGet (uid : Z) : M (option UserSession) :=
  fun w => (Js.Return (userSessions w !! uid), w).

(** The world with another session store. *)
Definition with_sessions (w : World) (sessions : gmap Z UserSession)
    : World :=
  {| userSessions := sessions;
     walletUsers := walletUsers w;
     trace := trace w |}.

Definition sessionsSet (uid : Z) (s : UserSession) : M unit :=
  fun w => (Js.Return tt,
            logged (with_sessions w (<[uid := s]> (userSessions w)))
              [EvSessionSet uid s]).

Definition sessionsDelete (uid : Z) : M unit :=
  fun w => (Js.Return tt,
            logged (with_sessions w (delete uid (userSessions w)))
              [EvSessionDelete uid]).

Definition getWalletUser (uid : Z) : M (option Wallet.WalletUser) :=
  fun w => (Js.Return (Wallet.getUser (walletUsers w) uid), w).

Definition lift {A} (c : Js.Completion A) : M A :=
  fun w => (c, w).

Fixpoint emit_all (evs : list Event) : M unit :=
  match evs with
  | [] => ret tt
  | ev :: evs' => run emit ev; emit_all evs'
  end.

Section Handlers.
Context {cm : Js.CaseMapping}.
Variable env : Env.

(** [bot.sendMessage]: the attempt is recorded, then it resolves or
    rejects as the transport decides. *)
Definition sendMessage (chatId : Z) (p : Prompt)
    (keyboard : list (list Button)) : M unit :=
  fun w =>
    let w' := logged w [EvSend chatId p keyboard] in
    match deliver env (sends_so_far w) with
    | None => (Js.Return tt, w')
    | Some m => (Js.Throw (Js.JsError m), w')
    end.

Definition generateTopUpLink (uid amount : Z) (currency : string)
    : M (option Wallet.TopUpLink) :=
  fun w =>
    match Wallet.generateTopUpLink (config env) (clock env) (walletUsers w)
            uid amount currency with
    | Js.Return (Some l) => (Js.Return (Some l), logged w [EvTopUpSession l])
    | r => (r, w)
    end.

Definition generateAuthLink (uid : Z) : M (option Wallet.AuthLink) :=
  fun w =>
    let (l, users) :=
      Wallet.generateAuthLink (config env) (clock env) (walletUsers w) uid
        None None in
    (Js.Return l,
     {| userSessions := userSessions w;
        walletUsers := users;
        trace := trace w |}).

(** [isDelegatedToBotSigner] of the delegation service, on the wallet
    registry of the world; the request for the signers is recorded when
    the check gets as far as making it. *)
Definition isDelegatedToBotSigner (uid : Z) : M bool :=
  fun w =>
    let answer :=
      Delegation.isDelegatedToBotSigner (config env) (fetchSigners env)
        (walletUsers w) uid in
    match Wallet.getUser (walletUsers w) uid ≫= Wallet.walletAddress with
    | Some addr =>
        if Js.truthy addr && Js.truthy (Wallet.serverApiKey (config env))
        then (answer,
              logged w [EvFetchSigners (Delegation.signers_url (config env)
                                          addr)])
        else (answer, w)
    | None => (answer, w)
    end.

(** [canAutoSign] *)
Definition canAutoSign (uid : Z) : M bool :=
  tryCatch
    (do users <- (fun w => (Js.Return (walletUsers w), w));
     if negb (Wallet.hasWallet users uid) then ret false
     else isDelegatedToBotSigner uid)
    (fun _ => ret false).

(** [createWalletAmazonOrder] with its order requests recorded. *)
Definition createWalletAmazonOrder (product : Checkout.AmazonProduct)
    (userEmail walletAddress : string)
    (shippingAddress : Checkout.PhysicalAddress) : M Checkout.WalletOrder :=
  let (r, calls) :=
    Checkout.createWalletAmazonOrder (provider env) product userEmail
      walletAddress shippingAddress in
  run emit_all (map EvPostOrder calls); lift r.

(** [signOrderTransaction] with its submission recorded. *)
Definition signOrderTransaction (walletAddress tx chain : string)
    : M Checkout.SigningResult :=
  run emit (EvSubmitTransaction walletAddress tx chain);
  ret (Checkout.signOrderTransaction (signerService env) walletAddress tx
         chain).

(** [startOrderMonitoring] arms its one-shot timer and returns. *)
Definition startOrderMonitoring (orderId : string) (uid : Z) : M unit :=
  emit (EvMonitor orderId uid).

Definition requestEmail (chatId : Z) (product : Checkout.AmazonProduct)
    : M unit :=
  sendMessage chatId (EmailRequired (Checkout.title product)) [[BtnCancel]].

Definition requestShippingAddress (chatId : Z)
    (product : Checkout.AmazonProduct) : M unit :=
  sendMessage chatId (ShippingAddressRequired (Checkout.title product))
    [[BtnCancel]].

(** The keyboard built by pushing an optional top-up row, then [last]. *)
Definition topup_keyboard (topupLink : option Wallet.TopUpLink)
    (last : Button) : list (list Button) :=
  match topupLink with
  | Some l => [[BtnAddFunds l]; [last]]
  | None => [[last]]
  end.

Definition order_buttons (orderId : string) : list (list Button) :=
  [[BtnCheckOrderStatus orderId]; [BtnSearchMoreProducts]].

(** The [catch] of [createHeadlessOrder]. *)
Definition createHeadlessOrder_catch (chatId uid : Z) (error : Js.Error)
    : M unit :=
  let errorMessage :=
    match Js.error_message error with
    | Some m => m
    | None => "Unknown error occurred"
    end in
  run (if Js.includes errorMessage "Insufficient USDC funds" then
         do topupLink <- generateTopUpLink uid 50 "USD";
         sendMessage chatId InsufficientFunds
           (topup_keyboard topupLink BtnTryAgain)
       else if Js.includes errorMessage "US shipping addresses" then
         sendMessage chatId ShippingRestriction [[BtnSearchAgain]]
       else
         sendMessage chatId (OrderCreationFailed errorMessage)
           [[BtnTryAgain]]);
  sessionsDelete uid.

(** The values [createHeadlessOrder] reads off the order it got. *)
Definition orderStatus (order : Checkout.Order) : string :=
  Js.or_else (Some (Checkout.paymentStatus (Checkout.orderPayment order)))
    "pending".

Definition totalAmount (order : Checkout.Order) : string :=
  Js.or_else
    (Some (Checkout.amount (Checkout.totalPrice (Checkout.quote order))))
    "N/A".

Definition totalCurrency (order : Checkout.Order) : string :=
  Js.or_else
    (Some (Js.toUpperCase
             (Checkout.priceCurrency
                (Checkout.totalPrice (Checkout.quote order)))))
    "USDC".

Definition paymentChain (order : Checkout.Order) : string :=
  Js.or_else
    (Checkout.preparation (Checkout.orderPayment order) ≫= Checkout.chain)
    "base-sepolia".

(** The message that follows the submission of the transaction. *)
Definition reportSigning (chatId uid : Z) (session : UserSession)
    (productTitle : string) (order : Checkout.Order)
    (signingResult : Checkout.SigningResult) : M unit :=
  let orderId := Checkout.orderId order in
  if Checkout.success signingResult then
    run sendMessage chatId
      (PaymentSuccessful orderId productTitle (totalAmount order)
         (totalCurrency order)
         (if Js.truthy_opt (Checkout.signedTransactionId signingResult)
          then Checkout.signedTransactionId signingResult
          else None))
      (order_buttons orderId);
    startOrderMonitoring orderId uid
  else
    sendMessage chatId
      (PaymentFailed
         (Js.or_else (Checkout.signingError signingResult) "Unknown error"))
      [[BtnRetryBuy (match productIndex session with
                     | Some i => i
                     | None => 0
                     end)]].

(** The branch [if (serializedTransaction)]: the transaction is signed
    automatically. *)
Definition signTransaction (chatId uid : Z) (session : UserSession)
    (productTitle walletAddress : string) (order : Checkout.Order)
    (tx : string) : M unit :=
  run sendMessage chatId
    (ProcessingOrder (Checkout.orderId order) productTitle
       (totalAmount order) (totalCurrency order)) [];
  do signingResult <-
    signOrderTransaction walletAddress tx (paymentChain order);
  reportSigning chatId uid session productTitle order signingResult.

(** The [else] branch: the order completed without a transaction. *)
Definition reportCreated (chatId uid : Z) (productTitle : string)
    (order : Checkout.Order) : M unit :=
  run sendMessage chatId
    (OrderCreatedSuccessfully (Checkout.orderId order) productTitle
       (totalAmount order) (totalCurrency order) (orderStatus order))
    (order_buttons (Checkout.orderId order));
  startOrderMonitoring (Checkout.orderId order) uid.

(** "Handle different order states": what [createHeadlessOrder] does
    with the order it got. *)
Definition handleOrderStates (chatId uid : Z) (session : UserSession)
    (productTitle walletAddress : string)
    (orderResponse : Checkout.WalletOrder) : M unit :=
  let order := Checkout.order (Checkout.response orderResponse) in
  let serializedTransaction :=
    Checkout.preparation (Checkout.orderPayment order)
      ≫= Checkout.serializedTransaction in
  if String.eqb (orderStatus order) "crypto-payer-insufficient-funds" then
    do topupLink <- generateTopUpLink uid 50 "USD";
    sendMessage chatId
      (InsufficientFundsFor productTitle (totalAmount order)
         (totalCurrency order))
      (topup_keyboard topupLink BtnSearchAgain)
  else if String.eqb (Checkout.quoteStatus (Checkout.quote order))
            "requires-physical-address" then
    throw (Js.JsError
      "Physical address validation failed. Please check your shipping address.")
  else
    run (match serializedTransaction with
         | Some tx =>
             if Js.truthy tx
             then signTransaction chatId uid session productTitle
                    walletAddress order tx
             else reportCreated chatId uid productTitle order
         | None => reportCreated chatId uid productTitle order
         end);
    sessionsDelete uid.

(** The [try] block of [createHeadlessOrder]. *)
Definition createHeadlessOrder_try (chatId uid : Z) (session : UserSession)
    : M unit :=
  match selectedProduct session, email session, physicalAddress session with
  | Some product, Some mail, Some address =>
      if negb (Js.truthy mail)
      then throw (Js.JsError "Missing required session data")
      else
        run sendMessage chatId CreatingOrder [];
        do userWallet <- getWalletUser uid;
        match userWallet ≫= Wallet.walletAddress with
        | None => throw (Js.JsError "User wallet not found")
        | Some walletAddress =>
            if negb (Js.truthy walletAddress)
            then throw (Js.JsError "User wallet not found")
            else
              do orderResponse <-
                createWalletAmazonOrder product mail walletAddress address;
              handleOrderStates chatId uid session (Checkout.title product)
                walletAddress orderResponse
        end
  | _, _, _ => throw (Js.JsError "Missing required session data")
  end.

Definition createHeadlessOrder (chatId uid : Z) (session : UserSession)
    : M unit :=
  tryCatch (createHeadlessOrder_try chatId uid session)
           (createHeadlessOrder_catch chatId uid).

(** [[^\s@]] *)
Definition not_space_or_at (c : ascii) : bool :=
  negb (Js.is_space c) && negb (Ascii.eqb c "@").

(** [/^[^\s@]+@[^\s@]+\.[^\s@]+$/] *)
Definition emailRegex : Js.Regex :=
  Js.Seq (Js.Plus (Js.Cls not_space_or_at))
    (Js.Seq (Js.Chr "@")
       (Js.Seq (Js.Plus (Js.Cls not_space_or_at))
          (Js.Seq (Js.Chr ".") (Js.Plus (Js.Cls not_space_or_at))))).

Definition with_email (session : UserSession) (mail : string) : UserSession :=
  {| userId := userId session;
     selectedProduct := selectedProduct session;
     email := Some mail;
     physicalAddress := physicalAddress session;
     step := collecting_address;
     productIndex := productIndex session |}.

Definition handleEmailInput (chatId uid : Z) (mail : string)
    (session : UserSession) : M bool :=
  if negb (Js.test emailRegex mail) then
    run sendMessage chatId InvalidEmail [];
    ret true
  else
    let session' := with_email session mail in
    run sessionsSet uid session';
    run (match selectedProduct session' with
         | Some product => requestShippingAddress chatId product
         | None => ret tt
         end);
    ret true.

(** [addressText.split('|').map(p => p.trim())] *)
Definition address_parts (addressText : string) : list string :=
  map Js.trim (Js.split "|" addressText).

(** [parts[i]], read after the length check. *)
Definition part (parts : list string) (i : nat) : string :=
  nth i parts EmptyString.

(** The address literal of [handleAddressInput]. *)
Definition address_of (parts : list string) (countryCode : string)
    : Checkout.PhysicalAddress :=
  {| Checkout.name := part parts 0;
     Checkout.line1 := part parts 1;
     Checkout.line2 := None;
     Checkout.city := part parts 2;
     Checkout.state := Some (part parts 3);
     Checkout.postalCode := part parts 4;
     Checkout.country := countryCode |}.

Definition with_address (session : UserSession) (parts : list string)
    (countryCode : string) : UserSession :=
  {| userId := userId session;
     selectedProduct := selectedProduct session;
     email := email session;
     physicalAddress := Some (address_of parts countryCode);
     step := creating_order;
     productIndex := productIndex session |}.

Definition handleAddressInput (chatId uid : Z) (addressText : string)
    (session : UserSession) : M bool :=
  let parts := address_parts addressText in
  if (length parts <? 6)%nat then
    run sendMessage chatId InvalidAddressFormat [];
    ret true
  else if negb (Js.truthy (part parts 0)) || negb (Js.truthy (part parts 1))
          || negb (Js.truthy (part parts 2)) || negb (Js.truthy (part parts 3))
          || negb (Js.truthy (part parts 4)) || negb (Js.truthy (part parts 5))
  then
    run sendMessage chatId IncompleteAddress [];
    ret true
  else
    let countryCode := Js.toUpperCase (part parts 5) in
    if negb (String.eqb countryCode "US") then
      run sendMessage chatId UnsupportedCountry [];
      ret true
    else
      let session' := with_address session parts countryCode in
      run sessionsSet uid session';
      run createHeadlessOrder chatId uid session';
      ret true.

Definition handleCheckoutMessage (msg : Message) : M bool :=
  match from_id msg, text msg with
  | Some uid, Some raw =>
      let chatId := chat_id msg in
      let txt := Js.trim raw in
      if (uid =? 0) || negb (Js.truthy txt) then ret false
      else
        do found <- sessionsGet uid;
        match found with
        | None => ret false
        | Some session =>
            match selectedProduct session with
            | None => ret false
            | Some _ =>
                tryCatch
                  (match step session with
                   | collecting_email =>
                       handleEmailInput chatId uid txt session
                   | collecting_address =>
                       handleAddressInput chatId uid txt session
                   | _ => ret false
                   end)
                  (fun _ =>
                     run sendMessage chatId SomethingWentWrong [];
                     run sessionsDelete uid;
                     ret true)
            end
        end
  | _, _ => ret false
  end.

(** [startWalletCheckoutFlow] *)
Definition startWalletCheckoutFlow (chatId uid : Z)
    (product : Checkout.AmazonProduct) (index : Z) : M unit :=
  tryCatch
    (do users <- (fun w => (Js.Return (walletUsers w), w));
     if negb (Wallet.hasWallet users uid) then
       do authLink <- generateAuthLink uid;
       match authLink with
       | None =>
           sendMessage chatId (WalletUnavailable (Checkout.title product)) []
       | Some l =>
           sendMessage chatId (WalletRequired (Checkout.title product))
             [[BtnCreateWallet l]; [BtnCancel]]
       end
     else
       let userWallet := Wallet.getUser users uid in
       let balance :=
         Wallet.getWalletBalance (fetchBalances env) users uid in
       match balance with
       | None | Some [] =>
           do topupLink <- generateTopUpLink uid 50 "USD";
           sendMessage chatId (FundsRequired (Checkout.title product))
             (topup_keyboard topupLink BtnCancel)
       | Some (_ :: _) =>
           let walletEmail := userWallet ≫= Wallet.email in
           let session :=
             {| userId := uid;
                selectedProduct := Some product;
                email :=
                  if Js.truthy_opt walletEmail then walletEmail else None;
                physicalAddress := None;
                step := collecting_email;
                productIndex := Some index |} in
           run sessionsSet uid session;
           if Js.truthy_opt (email session) then
             run sessionsSet uid
               {| userId := userId session;
                  selectedProduct := selectedProduct session;
                  email := email session;
                  physicalAddress := physicalAddress session;
                  step := collecting_address;
                  productIndex := productIndex session |};
             requestShippingAddress chatId product
           else requestEmail chatId product
       end)
    (fun _ => sendMessage chatId CheckoutStartError []).

(** The message the transport hands over for a text of [uid]. *)
Definition text_message (uid chatId : Z) (t : string) : Message :=
  {| from_id := Some uid; chat_id := chatId; text := Some t |}.

(** The user's texts handled one after the other, as the message
    handler receives them. *)
Fixpoint handleTexts (uid chatId : Z) (texts : list string) (w : World)
    : World :=
  match texts with
  | [] => w
  | t :: rest =>
      handleTexts uid chatId rest
        (snd (handleCheckoutMessage (text_message uid chatId t) w))
  end.

End Handlers.

(** A button press: [callbackQuery.from.id] and
    [callbackQuery.message?.chat.id]. *)
Record CallbackQuery := {
  query_from : Z;
  query_chat : option Z
}.

(** [handleCheckoutCancel], as far as the session store goes: unless
    the press carries no chat, the user's session is deleted before the
    acknowledgement and the message are sent. *)
Definition handleCheckoutCancel_sessions (callbackQuery : CallbackQuery)
    (userSessions : gmap Z UserSession) : gmap Z UserSession :=
  match query_chat callbackQuery with
  | Some chatId =>
      if chatId =? 0 then userSessions
      else delete (query_from callbackQuery) userSessions
  | None => userSessions
  end.

End CheckoutHandler.

(** ** Vocabulary of the properties *)

Module Reading.
Import Delegation Checkout.

(** When the check reaches the provider: the user's record holds the
    wallet address [addr], the API key is set, and [reply] is what the
    provider answers on the signers endpoint of that very wallet,
    [<baseUrl>/api/2022-06-09/wallets/<addr>/signers]. *)
Definition asks_provider (cfg : Wallet.Config) (fetch : string -> FetchReply)
    (walletUsers : gmap Z Wallet.WalletUser) (uid : Z) (reply : FetchReply)
    : Prop :=
  exists user addr,
    walletUsers !! uid = Some user
    /\ Wallet.walletAddress user = Some addr
    /\ addr <> EmptyString
    /\ Wallet.serverApiKey cfg <> EmptyString
    /\ fetch (Wallet.baseUrl cfg ++ "/api/2022-06-09/wallets/" ++ addr
              ++ "/signers")
       = reply.

(** The user has no wallet: [!user || !user.walletAddress]. *)
Definition no_wallet (walletUsers : gmap Z Wallet.WalletUser) (uid : Z)
    : Prop :=
  match walletUsers !! uid with
  | None => True
  | Some user => Js.truthy_opt (Wallet.walletAddress user) = false
  end.

(** A provider call that fails: the request is rejected, the response
    has an error status, or its body cannot be read as a list. *)
Definition failed (reply : FetchReply) : Prop :=
  match reply with
  | FetchResponse true (BodySigners _) => False
  | _ => True
  end.

(** The replies after which the retry loop goes on to the next
    variation. *)
Definition carried_on (reply : PostReply) : bool :=
  match reply with
  | Resolved _ (Conforming _) => false
  | Resolved _ (NonConforming _) => true
  | RejectedAxios status message _ _ =>
      negb (not_product_not_found status message)
  | RejectedOther _ => true
  end.

(** The error the loop keeps as [lastError] after a failed reply. *)
Definition error_of (reply : PostReply) : Js.Error :=
  match reply with
  | Resolved _ (Conforming _) => Js.ThrownNull
  | Resolved _ (NonConforming issues) => Js.ZodError issues
  | RejectedAxios status message statusText m =>
      Js.AxiosError status message statusText m
  | RejectedOther e => e
  end.

(** The provider created an order: [axios.post] resolved. *)
Definition accepted (reply : PostReply) : Prop :=
  match reply with
  | Resolved _ _ => True
  | _ => False
  end.

(** [order.payment.preparation?.serializedTransaction] *)
Definition transaction_of (r : OrderResponse) : option string :=
  preparation (orderPayment (order r)) ≫= serializedTransaction.

Definition insufficient_funds (r : OrderResponse) : Prop :=
  paymentStatus (orderPayment (order r)) = "crypto-payer-insufficient-funds".

Definition address_required (r : OrderResponse) : Prop :=
  quoteStatus (quote (order r)) = "requires-physical-address".

(** The order request reaches the provider: the URL yields an ASIN and
    the address passes the service's own checks. *)
Definition orderable (product : AmazonProduct)
    (shippingAddress : PhysicalAddress) (asin : string) : Prop :=
  asinMatch (amazonUrl product) = Some asin
  /\ country shippingAddress = "US"
  /\ Js.truthy_opt (state shippingAddress) = true.

End Reading.

Module HandlerReading.
Import CheckoutHandler.

(** The events a run added to the trace. *)
Definition events_since (w w' : World) : list Event :=
  drop (length (trace w)) (trace w').

(** Events that neither write a session nor ask for delegated signers. *)
Definition quiet (ev : Event) : Prop :=
  match ev with
  | EvSessionSet _ _ | EvFetchSigners _ => False
  | _ => True
  end.

(** From [w] to [w']: the trace grew by quiet events, the session of
    [uid] was kept or deleted and nothing else in the stores changed. *)
Definition evolves (uid : Z) (w w' : World) : Prop :=
  (exists evs, trace w' = (trace w ++ evs)%list /\ Forall quiet evs)
  /\ (userSessions w' = userSessions w
      \/ userSessions w' = delete uid (userSessions w))
  /\ walletUsers w' = walletUsers w.

Definition preserves {A} (uid : Z) (m : M A) : Prop :=
  forall w, evolves uid w (snd (m w)).

(** A computation that leaves the session store as it is. *)
Definition keeps {A} (m : M A) : Prop :=
  forall w, userSessions (snd (m w)) = userSessions w.

(** The world right after [sessionsSet]. *)
Definition stored (w : World) (uid : Z) (session : UserSession) : World :=
  logged (with_sessions w (<[uid := session]> (userSessions w)))
    [EvSessionSet uid session].

(** The session of [uid] is complete and its user holds a wallet: what
    [createHeadlessOrder] checks before it creates the order. *)
Definition ready (session : UserSession) (w : World) (uid : Z)
    (product : Checkout.AmazonProduct) (mail : string)
    (address : Checkout.PhysicalAddress) (walletAddress : string) : Prop :=
  selectedProduct session = Some product
  /\ email session = Some mail
  /\ Js.truthy mail = true
  /\ physicalAddress session = Some address
  /\ (exists user, walletUsers w !! uid = Some user
                   /\ Wallet.walletAddress user = Some walletAddress)
  /\ Js.truthy walletAddress = true.

(** The top-up link [generateTopUpLink(userId, 50, 'USD')] gives a user
    with a wallet, and the session it records for it. *)
Definition topUpLinkFor (env : Env) (uid : Z) : option Wallet.TopUpLink :=
  if Wallet.isValidWebAppUrl (config env)
  then Some {| Wallet.topUpBase := Wallet.webAppUrl (config env);
               Wallet.topUpUser := uid;
               Wallet.topUpTime := clock env;
               Wallet.topUpAmount := 50;
               Wallet.topUpCurrency := "USD" |}
  else None.

Definition topup_events (link : option Wallet.TopUpLink) : list Event :=
  match link with
  | Some l => [EvTopUpSession l]
  | None => []
  end.

(** Events that store no session. *)
Definition stores_nothing (ev : Event) : Prop :=
  match ev with
  | EvSessionSet _ _ => False
  | _ => True
  end.

(** A computation that adds events to the trace and stores no
    session. *)
Definition sets_no_session {A} (m : M A) : Prop :=
  forall w, exists evs,
    trace (snd (m w)) = (trace w ++ evs)%list /\ Forall stores_nothing evs.

Section WithRuntime.
Context {cm : Js.CaseMapping}.

(** The checks of [handleAddressInput]: six fields or more, the first
    six non-empty after trimming, the sixth upper-casing to [US]. *)
Definition address_accepted (addressText : string) : bool :=
  let parts := address_parts addressText in
  negb (length parts <? 6)%nat
  && Js.truthy (part parts 0) && Js.truthy (part parts 1)
  && Js.truthy (part parts 2) && Js.truthy (part parts 3)
  && Js.truthy (part parts 4) && Js.truthy (part parts 5)
  && String.eqb (Js.toUpperCase (part parts 5)) "US".

(** The input [txt] moves [session] on to [session']: an email that
    matches the pattern while collecting the email, an accepted address
    while collecting the address. *)
Definition advance (txt : string) (session session' : UserSession) : Prop :=
  (step session = collecting_email
   /\ Js.test emailRegex txt = true
   /\ session' = with_email session txt)
  \/ (step session = collecting_address
      /\ address_accepted txt = true
      /\ session' = with_address session (address_parts txt) "US").

(** The input passes the check of the step the session is in. *)
Definition passes (txt : string) (session : UserSession) : bool :=
  match step session with
  | collecting_email => Js.test emailRegex txt
  | collecting_address => address_accepted txt
  | _ => false
  end.

End WithRuntime.

End HandlerReading.

(** ** Vocabulary of the further properties *)

Module Matching.
Import Js.

(** The strings a pattern matches as a whole. *)
Inductive matches : Regex -> string -> Prop :=
| matches_eps : matches Eps EmptyString
| matches_cls (p : ascii -> bool) (c : ascii) :
    p c = true -> matches (Cls p) (String c EmptyString)
| matches_seq (r1 r2 : Regex) (s1 s2 : string) :
    matches r1 s1 -> matches r2 s2 -> matches (Seq r1 r2) (s1 ++ s2)
| matches_alt_l (r1 r2 : Regex) (s : string) :
    matches r1 s -> matches (Alt r1 r2) s
| matches_alt_r (r1 r2 : Regex) (s : string) :
    matches r2 s -> matches (Alt r1 r2) s
| matches_star_nil (r : Regex) : matches (Star r) EmptyString
| matches_star_cons (r : Regex) (s1 s2 : string) :
    matches r s1 -> matches (Star r) s2 -> matches (Star r) (s1 ++ s2).

(** All characters of a string satisfy [p]. *)
Fixpoint all_chars (p : ascii -> bool) (s : string) : bool :=
  match s with
  | EmptyString => true
  | String c s' => p c && all_chars p s'
  end.

End Matching.

Module PaymentReading.
Import CheckoutHandler.

(** An order request or a transaction submission names the wallet the
    registry holds for [uid], and an order request the email and the
    address of the session. *)
Definition own_wallet (users : gmap Z Wallet.WalletUser) (uid : Z)
    (session : UserSession) (ev : Event) : Prop :=
  match ev with
  | EvPostOrder req =>
      users !! uid ≫= Wallet.walletAddress
      = Some (Checkout.payerAddress (Checkout.payment req))
      /\ email session
         = Some (Checkout.recipientEmail (Checkout.recipient req))
      /\ physicalAddress session
         = Some (Checkout.physicalAddress (Checkout.recipient req))
  | EvSubmitTransaction walletAddress _ _ =>
      users !! uid ≫= Wallet.walletAddress = Some walletAddress
  | _ => True
  end.

(** Run on the registry [users], the computation leaves it alone and
    adds only events that satisfy [P]. *)
Definition emits (users : gmap Z Wallet.WalletUser) (P : Event -> Prop)
    {A} (m : M A) : Prop :=
  forall w,
    walletUsers w = users ->
    walletUsers (snd (m w)) = users
    /\ exists evs, trace (snd (m w)) = (trace w ++ evs)%list /\ Forall P evs.

(** Events that neither post an order nor submit a transaction. *)
Definition no_payment (ev : Event) : Prop :=
  match ev with
  | EvPostOrder _ | EvSubmitTransaction _ _ _ => False
  | _ => True
  end.

End PaymentReading.

Module WalletReading.
Import Wallet.

(** The calls that change the stores of the wallet service. *)
Inductive Request :=
| AuthLinkRequested (now uid : Z) (username first : option string)
| Authenticated (t_created now uid : Z) (authData : AuthData)
| TopUpRequested (now t_created t_expires uid amount : Z)
    (currency : string)
| SessionsCleaned (now : Z)
| LoggedOut (uid : Z).

Definition with_users (s : Stores) (us : gmap Z WalletUser) : Stores :=
  {| walletUsers := us;
     topUpSessions := topUpSessions s;
     transactions := transactions s |}.

Definition with_topUpSessions (s : Stores)
    (ts : gmap string TopUpSession) : Stores :=
  {| walletUsers := walletUsers s;
     topUpSessions := ts;
     transactions := transactions s |}.

(** The stores after one call. *)
Definition serve (cfg : Config) (s : Stores) (r : Request) : Stores :=
  match r with
  | AuthLinkRequested now uid username first =>
      with_users s
        (snd (generateAuthLink cfg now (walletUsers s) uid username first))
  | Authenticated t_created now uid authData =>
      with_users s (updateUserAuth t_created now (walletUsers s) uid authData)
  | TopUpRequested now t_created t_expires uid amount currency =>
      with_topUpSessions s
        (generateTopUpLink_sessions cfg now t_created t_expires
           (walletUsers s) uid amount currency (topUpSessions s))
  | SessionsCleaned now =>
      with_topUpSessions s (cleanupExpiredSessions now (topUpSessions s))
  | LoggedOut uid => snd (clearUser uid s)
  end.

Definition empty_stores : Stores :=
  {| walletUsers := ∅; topUpSessions := ∅; transactions := ∅ |}.

(** The stores after a sequence of calls on a fresh service. *)
Definition served (cfg : Config) (rs : list Request) : Stores :=
  fold_left (serve cfg) rs empty_stores.

(** What holds of the stores between any two calls: a record is filed
    under its own id and its status is [created] exactly when it holds
    a wallet address, [not_created] otherwise; a top-up session is
    filed under its own id, awaits payment and belongs to a user with a
    record. *)
Definition consistent (s : Stores) : Prop :=
  (forall u user,
     walletUsers s !! u = Some user ->
     userId user = u
     /\ (walletStatus user = created <-> walletAddress user <> None)
     /\ (walletStatus user = created \/ walletStatus user = not_created))
  /\ (forall sid session,
        topUpSessions s !! sid = Some session ->
        sessionId session = sid
        /\ sessionStatus session = session_initiated
        /\ exists user, walletUsers s !! sessionUser session = Some user).

(** The clock did not run backwards between the two reads a top-up
    request stores. *)
Definition clock_forward (r : Request) : Prop :=
  match r with
  | TopUpRequested _ t_created t_expires _ _ _ => t_created <= t_expires
  | _ => True
  end.

(** Every session is kept for thirty minutes at least. *)
Definition timely (s : Stores) : Prop :=
  forall sid session,
    topUpSessions s !! sid = Some session ->
    sessionCreatedAt session + 30 * 60 * 1000 <= expiresAt session.

End WalletReading.

Module MemoryReading.
Import Memory.

(** The calls that change the conversation memory. *)
Inductive Update :=
| MessageAdded (now uid : Z) (r : Role) (c : string) (mt : MessageType)
    (userInfo : option UserInfo)
| PreferencesUpdated (uid : Z) (new : Preferences)
| MemoryCleared (uid : Z)
| MemoriesCleaned (now : Z).

Definition apply_update (userMemories : gmap Z MessageMemory) (u : Update)
    : gmap Z MessageMemory :=
  match u with
  | MessageAdded now uid r c mt userInfo =>
      addMessage now uid r c mt userInfo userMemories
  | PreferencesUpdated uid new => updateUserPreferences uid new userMemories
  | MemoryCleared uid => clearUserMemory uid userMemories
  | MemoriesCleaned now => cleanupOldMemories now userMemories
  end.

(** The memory after a sequence of calls on an empty one. *)
Definition remembered (us : list Update) : gmap Z MessageMemory :=
  fold_left apply_update us ∅.

(** The last [n] elements of a list. *)
Definition last_n {A} (n : nat) (l : list A) : list A :=
  drop (length l - n) l.

(** A message as [getRecentMessages] prints it. *)
Definition printed (m : Role * string) : string :=
  role_text (fst m) ++ ": " ++ snd m.

End MemoryReading.

Module FormattingReading.
Import Formatting.

Definition is_special (c : ascii) : bool :=
  existsb (Ascii.eqb c) special_characters.

(** A character as [escapeMarkdown] leaves it. *)
Definition escape_character (c : ascii) : string :=
  if is_special c then escaped c else String c EmptyString.

(** Every character escaped on its own, in order. *)
Fixpoint escape_each (s : string) : string :=
  match s with
  | EmptyString => EmptyString
  | String c s' => escape_character c ++ escape_each s'
  end.

Fixpoint count_special (s : string) : nat :=
  match s with
  | EmptyString => O
  | String c s' => ((if is_special c then 1 else 0) + count_special s')%nat
  end.

(** The one row [createProductActionKeyboard] returns. *)
Definition action_row (product : SearchHandler.SearchProduct) (index : Z)
    : list InlineButton :=
  ((match SearchHandler.link product with
    | Some url => if Js.truthy url then [ViewOnAmazon url] else []
    | None => []
    end) ++ [BuyWithCrossmint index])%list.

End FormattingReading.

Module ReportReading.
Import CheckoutHandler.

Section WithEnv.
Context {cm : Js.CaseMapping}.
Variable env : Env.

(** The order of [orderId] was created by the provider for the session
    and its transaction was submitted for the user's wallet with
    success. *)
Definition paid (users : gmap Z Wallet.WalletUser) (uid : Z)
    (session : UserSession) (orderId : string) : Prop :=
  exists product mail address walletAddress wo tx,
    selectedProduct session = Some product
    /\ email session = Some mail
    /\ physicalAddress session = Some address
    /\ users !! uid ≫= Wallet.walletAddress = Some walletAddress
    /\ fst (Checkout.createWalletAmazonOrder (provider env) product mail
              walletAddress address) = Js.Return wo
    /\ orderId = Checkout.orderId (Checkout.order (Checkout.response wo))
    /\ Reading.transaction_of (Checkout.response wo) = Some tx
    /\ Checkout.success
         (Checkout.signOrderTransaction (signerService env) walletAddress tx
            (paymentChain (Checkout.order (Checkout.response wo)))) = true.

(** What [createHeadlessOrder] may report: not the two messages of its
    own insufficient-funds and no-transaction branches, success only of
    a paid order, and monitoring only of a paid order of the user. *)
Definition reported (users : gmap Z Wallet.WalletUser) (uid : Z)
    (session : UserSession) (ev : Event) : Prop :=
  match ev with
  | EvSend _ (InsufficientFundsFor _ _ _) _ => False
  | EvSend _ (OrderCreatedSuccessfully _ _ _ _ _) _ => False
  | EvSend _ (PaymentSuccessful orderId _ _ _ _) _ =>
      paid users uid session orderId
  | EvMonitor orderId u => u = uid /\ paid users uid session orderId
  | _ => True
  end.

End WithEnv.

End ReportReading.

Module EmailReading.
Import CheckoutHandler Matching.

(** A non-empty run without white space and [@]. *)
Definition word (s : string) : Prop :=
  s <> EmptyString /\ all_chars not_space_or_at s = true.

End EmailReading.

(** ** Sample data *)

Module Sample.

Definition product_named (t : string) : SearchHandler.SearchProduct :=
  {| SearchHandler.title := Some t;
     SearchHandler.price := Some "$19.99";
     SearchHandler.link := Some "https://www.amazon.com/dp/B000X12345";
     SearchHandler.thumbnail := None;
     SearchHandler.snippet := None |}.

(** Five headphones cached for user 42 at time 0. *)
Definition headphones : SearchHandler.CacheEntry :=
  {| SearchHandler.products :=
       [product_named "p0"; product_named "p1"; product_named "p2";
        product_named "p3"; product_named "p4"];
     SearchHandler.timestamp := 0;
     SearchHandler.query := "headphones" |}.

Definition cache42 : gmap Z SearchHandler.CacheEntry :=
  SearchHandler.cacheSearchResults 0 0 42 (SearchHandler.products headphones)
    "headphones" ∅.

(** User 7 holds a wallet; the provider lists the bot signer, written
    in lower case, among its delegated signers. *)
Definition staging : Wallet.Config :=
  {| Wallet.webAppUrl := "https://shop.example.app";
     Wallet.nodeEnv := None;
     Wallet.serverApiKey := "sk_staging_key";
     Wallet.baseUrl := "https://staging.crossmint.com" |}.

Definition wallet_user (uid : Z) (mail : option string) : Wallet.WalletUser :=
  {| Wallet.userId := uid;
     Wallet.telegramUsername := None;
     Wallet.firstName := None;
     Wallet.email := mail;
     Wallet.crossmintUserId := Some "cm-user";
     Wallet.walletAddress := Some "0xabc";
     Wallet.walletStatus := Wallet.created;
     Wallet.authToken := Some "token";
     Wallet.createdAt := 0;
     Wallet.lastActivity := 0 |}.

Definition users7 : gmap Z Wallet.WalletUser :=
  {[ 7 := wallet_user 7 None ]}.

Definition delegated_fetch (_ : string) : Delegation.FetchReply :=
  Delegation.FetchResponse true
    (Delegation.BodySigners
       [ {| Delegation.signer := "0x1111" |};
         {| Delegation.signer :=
              "0x9af659ef26583c0793c35c52e076fbea6486e31d" |} ]).

Definition undelegated_fetch (_ : string) : Delegation.FetchReply :=
  Delegation.FetchResponse true (Delegation.BodySigners []).

(** A product, a shipping address and provider answers. *)
Definition kettle : Checkout.AmazonProduct :=
  {| Checkout.title := "Kettle";
     Checkout.price := "$19.99";
     Checkout.amazonUrl := "https://www.amazon.com/dp/B000X12345";
     Checkout.imageUrl := None;
     Checkout.description := None |}.

Definition austin : Checkout.PhysicalAddress :=
  {| Checkout.name := "John Doe";
     Checkout.line1 := "123 Main St";
     Checkout.line2 := None;
     Checkout.city := "Austin";
     Checkout.state := Some "TX";
     Checkout.postalCode := "73301";
     Checkout.country := "US" |}.

Definition order_response (id status : string) (tx : option string)
    : Checkout.OrderResponse :=
  {| Checkout.order :=
       {| Checkout.orderId := id;
          Checkout.phase := "payment";
          Checkout.locale := None;
          Checkout.quote :=
            {| Checkout.quoteStatus := "valid";
               Checkout.totalPrice :=
                 {| Checkout.amount := "21.64";
                    Checkout.priceCurrency := "usdc" |} |};
          Checkout.orderPayment :=
            {| Checkout.paymentStatus := status;
               Checkout.paymentMethod := "base-sepolia";
               Checkout.paymentCurrency := "usdc";
               Checkout.preparation :=
                 Some {| Checkout.chain := Some "base-sepolia";
                         Checkout.preparationPayer := Some "0xabc";
                         Checkout.serializedTransaction := tx |} |} |};
     Checkout.orderClientSecret := None |}.

(** The provider creates an order for every request; the body of its
    first answer lacks a field the schema requires. *)
Definition provider_first_body_malformed : Checkout.Provider :=
  fun i _ =>
    match i with
    | O => Checkout.Resolved 201
             (Checkout.NonConforming "order.quote.totalPrice: Required")
    | S _ => Checkout.Resolved 201
               (Checkout.Conforming
                  (order_response "order-2" "awaiting-payment"
                     (Some "0xdeadbeef")))
    end.

(** The provider answers 400 "Product not found" twice, then 201. *)
Definition provider_third_accepted : Checkout.Provider :=
  fun i _ =>
    match i with
    | O | S O =>
        Checkout.RejectedAxios (Some 400) (Some "Product not found")
          (Some "Bad Request") "Request failed with status code 400"
    | _ => Checkout.Resolved 201
             (Checkout.Conforming
                (order_response "order-3" "awaiting-payment"
                   (Some "0xdeadbeef")))
    end.

(** The provider settles at once: its order carries no transaction. *)
Definition provider_no_transaction : Checkout.Provider :=
  fun _ _ =>
    Checkout.Resolved 201
      (Checkout.Conforming (order_response "order-1" "completed" None)).

Definition provider_insufficient_funds : Checkout.Provider :=
  fun _ _ =>
    Checkout.Resolved 201
      (Checkout.Conforming
         (order_response "order-1" "crypto-payer-insufficient-funds"
            (Some "0xdeadbeef"))).

Definition kettle_request (locator : string) : Checkout.CreateOrderRequest :=
  Checkout.orderRequestFor "jd@example.com" "0xabc" austin locator.

(** A checkout environment with a reliable transport, a wallet provider
    that signs and lists no delegated signer, and a funded wallet. *)
Definition reliable : nat -> option string := fun _ => None.

Definition provider_with_transaction : Checkout.Provider :=
  fun _ _ =>
    Checkout.Resolved 201
      (Checkout.Conforming
         (order_response "order-1" "awaiting-payment" (Some "0xdeadbeef"))).

Definition wallet_signs : Checkout.Signer :=
  fun _ _ _ => Checkout.TxResolved 201 (Some "tx-1") None.

Definition usdc : Wallet.TokenBalance :=
  {| Wallet.balanceChain := "base-sepolia";
     Wallet.balanceCurrency := "USDC";
     Wallet.balanceAmount := "50.00";
     Wallet.decimals := 6 |}.

Definition shop (p : Checkout.Provider) : CheckoutHandler.Env :=
  {| CheckoutHandler.config := staging;
     CheckoutHandler.clock := 0;
     CheckoutHandler.deliver := reliable;
     CheckoutHandler.provider := p;
     CheckoutHandler.signerService := wallet_signs;
     CheckoutHandler.fetchSigners := undelegated_fetch;
     CheckoutHandler.fetchBalances := fun _ => Some [usdc] |}.

Definition world_of (users : gmap Z Wallet.WalletUser)
    (sessions : gmap Z CheckoutHandler.UserSession) : CheckoutHandler.World :=
  {| CheckoutHandler.userSessions := sessions;
     CheckoutHandler.walletUsers := users;
     CheckoutHandler.trace := [] |}.

(** The wallet record of user 7 carries an email that the validation
    pattern would refuse. *)
Definition users_with_email : gmap Z Wallet.WalletUser :=
  {[ 7 := wallet_user 7 (Some "bob@localhost") ]}.

Definition session_at (st : CheckoutHandler.Step) (mail : option string)
    : CheckoutHandler.UserSession :=
  {| CheckoutHandler.userId := 7;
     CheckoutHandler.selectedProduct := Some kettle;
     CheckoutHandler.email := mail;
     CheckoutHandler.physicalAddress := None;
     CheckoutHandler.step := st;
     CheckoutHandler.productIndex := Some 0 |}.

Definition ready_session : CheckoutHandler.UserSession :=
  {| CheckoutHandler.userId := 7;
     CheckoutHandler.selectedProduct := Some kettle;
     CheckoutHandler.email := Some "jd@example.com";
     CheckoutHandler.physicalAddress := Some austin;
     CheckoutHandler.step := CheckoutHandler.creating_order;
     CheckoutHandler.productIndex := Some 0 |}.

Definition signed_order : Checkout.WalletOrder :=
  {| Checkout.response :=
       order_response "order-1" "awaiting-payment" (Some "0xdeadbeef");
     Checkout.requiresTransaction := true;
     Checkout.walletTransaction := Some "0xdeadbeef" |}.

Definition austin_text : string := "John Doe|123 Main St|Austin|TX|73301|US".

(** The shop when no message gets through. *)
Definition shop_offline (p : Checkout.Provider) : CheckoutHandler.Env :=
  {| CheckoutHandler.config := staging;
     CheckoutHandler.clock := 0;
     CheckoutHandler.deliver := fun _ => Some "ETELEGRAM: 502 Bad Gateway";
     CheckoutHandler.provider := p;
     CheckoutHandler.signerService := wallet_signs;
     CheckoutHandler.fetchSigners := undelegated_fetch;
     CheckoutHandler.fetchBalances := fun _ => Some [usdc] |}.

(** The shop before its web application is deployed: the URL is the
    placeholder that config.ts falls back to. *)
Definition unconfigured : Wallet.Config :=
  {| Wallet.webAppUrl := "https://your-app.vercel.app";
     Wallet.nodeEnv := None;
     Wallet.serverApiKey := "sk_staging_key";
     Wallet.baseUrl := "https://staging.crossmint.com" |}.

Definition shop_unconfigured (p : Checkout.Provider) : CheckoutHandler.Env :=
  {| CheckoutHandler.config := unconfigured;
     CheckoutHandler.clock := 0;
     CheckoutHandler.deliver := reliable;
     CheckoutHandler.provider := p;
     CheckoutHandler.signerService := wallet_signs;
     CheckoutHandler.fetchSigners := undelegated_fetch;
     CheckoutHandler.fetchBalances := fun _ => Some [usdc] |}.

(** A product page as the search results link to it. *)
Definition listing_url : string :=
  "https://www.amazon.com/Some-Kettle/dp/B000X12345".

(** User 7 presses "Cancel" in chat 100. *)
Definition cancel_press : CheckoutHandler.CallbackQuery :=
  {| CheckoutHandler.query_from := 7;
     CheckoutHandler.query_chat := Some 100 |}.

(** The memory of user 7 after a first message at time 1000. *)
Definition greeting : Memory.MessageMemory :=
  {| Memory.userId := 7;
     Memory.username := None;
     Memory.firstName := None;
     Memory.messages :=
       [ {| Memory.timestamp := 1000;
            Memory.role := Memory.user;
            Memory.content := "hello";
            Memory.messageType := Memory.text |} ];
     Memory.preferences := None |}.

Definition memories : gmap Z Memory.MessageMemory := {[ 7 := greeting ]}.

(** A provider that lists the bot signer for the wallet [0xabc] of the
    staging project and no signer for any other wallet. *)
Definition signers_of_0xabc (url : string) : Delegation.FetchReply :=
  if String.eqb url
       "https://staging.crossmint.com/api/2022-06-09/wallets/0xabc/signers"
  then delegated_fetch url
  else undelegated_fetch url.

(** Ten search results: two pages of five. *)
Definition ten_products : list SearchHandler.SearchProduct :=
  (SearchHandler.products headphones ++ SearchHandler.products headphones)%list.

End Sample.

(** * Properties *)

(** ** The search result cache *)

Module SearchHandlerSpec.
Import SearchHandler.

Lemma CACHE_DURATION_two_hours : CACHE_DURATION = 7200000.
Proof. reflexivity. Qed.

Lemma isExpired_true (now : Z) (cache : CacheEntry) :
  isExpired now cache = true <-> now - timestamp cache > CACHE_DURATION.
Proof. unfold isExpired. rewrite Z.gtb_gt. lia. Qed.

Lemma isExpired_false (now : Z) (cache : CacheEntry) :
  isExpired now cache = false <-> now - timestamp cache <= CACHE_DURATION.
Proof.
  rewrite <- not_true_iff_false, isExpired_true. lia.
Qed.

(** A read leaves a live entry and an absent one alone. *)
Lemma getCachedSearchResults_live (now userId : Z)
    (searchCache : gmap Z CacheEntry) (cache : CacheEntry) :
  searchCache !! userId = Some cache ->
  isExpired now cache = false ->
  getCachedSearchResults now userId searchCache
  = (Some (products cache, query cache), searchCache).
Proof.
  intros Hget Hlive. unfold getCachedSearchResults.
  rewrite Hget, Hlive. reflexivity.
Qed.

Lemma getCachedSearchResults_absent (now userId : Z)
    (searchCache : gmap Z CacheEntry) :
  searchCache !! userId = None ->
  getCachedSearchResults now userId searchCache = (None, searchCache).
Proof.
  intros Hget. unfold getCachedSearchResults. rewrite Hget. reflexivity.
Qed.

(** The entry a store writes is the one a later read sees, as long as
    the clean-up of that store did not already drop it. *)
Lemma cacheSearchResults_lookup (t_store t_clean userId : Z)
    (ps : list SearchProduct) (q : string) (searchCache : gmap Z CacheEntry) :
  t_clean - t_store <= CACHE_DURATION ->
  cacheSearchResults t_store t_clean userId ps q searchCache !! userId
  = Some {| products := ps; timestamp := t_store; query := q |}.
Proof.
  intros Hfresh. unfold cacheSearchResults.
  apply map_lookup_filter_Some. split.
  - apply lookup_insert_eq.
  - cbn. apply isExpired_false. cbn. lia.
Qed.

(** C7. [getCachedProduct] answers "not found" ([None]) when the user
    has no cache entry and when the index lies outside
    [0 .. length products - 1]; for an index inside these bounds and an
    entry that has not expired it answers the product at that position.
    The function is total: no case raises an error. *)
Theorem getCachedProduct_by_index (now userId index : Z)
    (searchCache : gmap Z CacheEntry) :
  (searchCache !! userId = None ->
   getCachedProduct now userId index searchCache = (None, searchCache))
  /\ (forall cache,
        searchCache !! userId = Some cache ->
        index < 0 \/ index > Z.of_nat (length (products cache)) - 1 ->
        fst (getCachedProduct now userId index searchCache) = None)
  /\ (forall cache,
        searchCache !! userId = Some cache ->
        now - timestamp cache <= CACHE_DURATION ->
        0 <= index <= Z.of_nat (length (products cache)) - 1 ->
        exists product,
          products cache !! Z.to_nat index = Some product
          /\ getCachedProduct now userId index searchCache
             = (Some product, searchCache)).
Proof.
  repeat split.
  - intros Hnone. unfold getCachedProduct.
    rewrite getCachedSearchResults_absent by exact Hnone. reflexivity.
  - intros cache Hget Hout. unfold getCachedProduct, getCachedSearchResults.
    rewrite Hget. destruct (isExpired now cache); [reflexivity|].
    destruct (index <? 0) eqn:Hneg; [reflexivity|].
    destruct (index >=? Z.of_nat (length (products cache))) eqn:Hge;
      [reflexivity|].
    apply Z.ltb_ge in Hneg. rewrite Z.geb_leb in Hge.
    apply Z.leb_gt in Hge. lia.
  - intros cache Hget Hlive Hin. apply isExpired_false in Hlive.
    unfold getCachedProduct.
    rewrite (getCachedSearchResults_live _ _ _ _ Hget Hlive).
    assert (Hneg : (index <? 0) = false) by (apply Z.ltb_ge; lia).
    assert (Hge : (index >=? Z.of_nat (length (products cache))) = false)
      by (rewrite Z.geb_leb; apply Z.leb_gt; lia).
    rewrite Hneg, Hge. cbn.
    destruct (lookup_lt_is_Some_2 (products cache) (Z.to_nat index))
      as [product Hp]; [lia|].
    exists product. rewrite Hp. split; reflexivity.
Qed.

(** C8. Once more than [CACHE_DURATION] (two hours) has passed since the
    time stamped on a user's entry, [getCachedSearchResults] answers
    "not found" and the cache it leaves no longer holds the entry: the
    read itself deletes it. *)
Theorem getCachedSearchResults_expired (now userId : Z)
    (searchCache : gmap Z CacheEntry) (cache : CacheEntry) :
  searchCache !! userId = Some cache ->
  now - timestamp cache > CACHE_DURATION ->
  getCachedSearchResults now userId searchCache
  = (None, delete userId searchCache)
  /\ snd (getCachedSearchResults now userId searchCache) !! userId = None
  /\ CACHE_DURATION = 2 * 60 * 60 * 1000.
Proof.
  intros Hget Hold. apply isExpired_true in Hold.
  unfold getCachedSearchResults. rewrite Hget, Hold. cbn.
  repeat split. apply lookup_delete_eq.
Qed.

Lemma getCachedProduct_by_index_witness :
  getCachedProduct 1000 7 0 Sample.cache42 = (None, Sample.cache42)
  /\ fst (getCachedProduct 1000 42 9 Sample.cache42) = None
  /\ exists product,
       products Sample.headphones !! 2%nat = Some product
       /\ getCachedProduct 1000 42 2 Sample.cache42
          = (Some product, Sample.cache42).
Proof.
  split; [|split].
  - apply (proj1 (getCachedProduct_by_index 1000 7 0 Sample.cache42)).
    reflexivity.
  - apply (proj1 (proj2 (getCachedProduct_by_index 1000 42 9 Sample.cache42))
             Sample.headphones).
    + reflexivity.
    + right. cbn. lia.
  - apply (proj2 (proj2 (getCachedProduct_by_index 1000 42 2 Sample.cache42))
             Sample.headphones).
    + reflexivity.
    + unfold CACHE_DURATION. cbn. lia.
    + cbn. lia.
Defined.

Lemma getCachedSearchResults_expired_witness :
  getCachedSearchResults 7200001 42 Sample.cache42
  = (None, delete 42 Sample.cache42)
  /\ snd (getCachedSearchResults 7200001 42 Sample.cache42) !! 42 = None
  /\ CACHE_DURATION = 2 * 60 * 60 * 1000.
Proof.
  apply (getCachedSearchResults_expired 7200001 42 Sample.cache42
           Sample.headphones).
  - reflexivity.
  - unfold CACHE_DURATION. cbn. lia.
Defined.

End SearchHandlerSpec.

(** ** The delegated-signer check *)

Module DelegationSpec.
Import Delegation Reading.

Lemma append_cancel_l (p a b : string) : p ++ a = p ++ b -> a = b.
Proof.
  induction p as [|c p IH]; [exact (fun H => H)|].
  change (String c (p ++ a) = String c (p ++ b) -> a = b).
  intros H. injection H as H. exact (IH H).
Qed.

Lemma length_append (a b : string) :
  String.length (a ++ b) = (String.length a + String.length b)%nat.
Proof.
  induction a as [|x a IH]; [reflexivity|].
  change (S (String.length (a ++ b)) = S (String.length a + String.length b)).
  rewrite IH. reflexivity.
Qed.

Lemma append_cancel_r (s : string) :
  forall a b : string, a ++ s = b ++ s -> a = b.
Proof.
  induction a as [|x a IH]; intros [|y b] H.
  - reflexivity.
  - apply (f_equal String.length) in H.
    rewrite !length_append in H. cbn [String.length] in H. lia.
  - apply (f_equal String.length) in H.
    rewrite !length_append in H. cbn [String.length] in H. lia.
  - change (String x (a ++ s) = String y (b ++ s)) in H.
    injection H as -> H. rewrite (IH b H). reflexivity.
Qed.

(** The signers endpoint names the wallet: two wallets never share it. *)
Lemma signers_url_injective (cfg : Wallet.Config) (a b : string) :
  signers_url cfg a = signers_url cfg b -> a = b.
Proof.
  unfold signers_url. intros H.
  apply append_cancel_l, append_cancel_l in H.
  exact (append_cancel_r _ _ _ H).
Qed.

Section WithRuntime.
Context {cm : Js.CaseMapping}.

Lemma some_is_bot_iff (delegatedSigners : list DelegatedSigner) :
  some_is_bot delegatedSigners = true <->
  exists s, In s delegatedSigners
            /\ Js.toLowerCase (signer s) = Js.toLowerCase BOT_SIGNER_ADDRESS.
Proof.
  unfold some_is_bot. rewrite existsb_exists.
  split; intros [s [Hin Heq]]; exists s; split; try exact Hin.
  - apply String.eqb_eq. exact Heq.
  - apply String.eqb_eq. exact Heq.
Qed.

Lemma truthy_true (s : string) : Js.truthy s = true <-> s <> EmptyString.
Proof. destruct s; cbn; split; congruence. Qed.

Lemma truthy_false (s : string) : Js.truthy s = false <-> s = EmptyString.
Proof. destruct s; cbn; split; congruence. Qed.

Lemma isDelegatedToBotSigner_try_asks (cfg : Wallet.Config)
    (fetch : string -> FetchReply) (walletUsers : gmap Z Wallet.WalletUser)
    (uid : Z) (reply : FetchReply) :
  asks_provider cfg fetch walletUsers uid reply ->
  isDelegatedToBotSigner_try cfg fetch walletUsers uid
  = match reply with
    | FetchRejected e => Js.Throw e
    | FetchResponse false _ => Js.Return false
    | FetchResponse true (BodyThrows e) => Js.Throw e
    | FetchResponse true BodyNotArray =>
        Js.Throw (Js.JsError "delegatedSigners.some is not a function")
    | FetchResponse true (BodySigners l) => Js.Return (some_is_bot l)
    end.
Proof.
  intros (user & addr & Hu & Ha & Hne & Hkey & Hf).
  unfold isDelegatedToBotSigner_try, Wallet.getUser, signers_url.
  rewrite Hu, Ha.
  apply truthy_true in Hne. apply truthy_true in Hkey.
  rewrite Hne, Hkey, Hf. cbn.
  destruct reply as [e | [] [e | | l]]; try reflexivity.
  destruct (some_is_bot l); reflexivity.
Qed.

Lemma isDelegatedToBotSigner_try_true (cfg : Wallet.Config)
    (fetch : string -> FetchReply) (walletUsers : gmap Z Wallet.WalletUser)
    (uid : Z) :
  isDelegatedToBotSigner_try cfg fetch walletUsers uid = Js.Return true ->
  exists l, asks_provider cfg fetch walletUsers uid
              (FetchResponse true (BodySigners l))
            /\ some_is_bot l = true.
Proof.
  unfold isDelegatedToBotSigner_try, Wallet.getUser, asks_provider.
  destruct (walletUsers !! uid) as [user|] eqn:Hu; [|discriminate].
  destruct (Wallet.walletAddress user) as [addr|] eqn:Ha; [|discriminate].
  destruct (Js.truthy addr) eqn:Hne; cbn; [|discriminate].
  destruct (Js.truthy (Wallet.serverApiKey cfg)) eqn:Hkey; cbn; [|discriminate].
  destruct (fetch (signers_url cfg addr)) as [e | [] [e | | l]] eqn:Hf;
    try discriminate.
  destruct (some_is_bot l) eqn:Hbot; [|discriminate].
  intros _. exists l. split; [|exact Hbot].
  exists user, addr. repeat split; try assumption.
  - apply truthy_true. exact Hne.
  - apply truthy_true. exact Hkey.
Qed.

(** The check reads the provider's answer at one place only: the
    signers endpoint of the wallet address in the user's record. *)
Lemma isDelegatedToBotSigner_try_reads (cfg : Wallet.Config)
    (fetch fetch' : string -> FetchReply)
    (walletUsers : gmap Z Wallet.WalletUser) (uid : Z) :
  (forall user addr,
     walletUsers !! uid = Some user ->
     Wallet.walletAddress user = Some addr ->
     fetch' (Wallet.baseUrl cfg ++ "/api/2022-06-09/wallets/" ++ addr
             ++ "/signers")
     = fetch (Wallet.baseUrl cfg ++ "/api/2022-06-09/wallets/" ++ addr
              ++ "/signers")) ->
  isDelegatedToBotSigner_try cfg fetch' walletUsers uid
  = isDelegatedToBotSigner_try cfg fetch walletUsers uid.
Proof.
  intros Hsame. unfold isDelegatedToBotSigner_try, Wallet.getUser, signers_url.
  destruct (walletUsers !! uid) as [user|] eqn:Hu; [|reflexivity].
  destruct (Wallet.walletAddress user) as [addr|] eqn:Ha; [|reflexivity].
  rewrite (Hsame user addr eq_refl Ha). reflexivity.
Qed.

(** C9. [isDelegatedToBotSigner] never raises: it always returns a
    boolean.  It returns [true] exactly when the user has a wallet, the
    API key is configured, the provider answers the request for the
    delegated signers of that wallet, sent to
    [<baseUrl>/api/2022-06-09/wallets/<the user's wallet address>/signers],
    with a list, and that list holds a signer equal to the bot's signer
    address after lower-casing both.  It returns [false] when the user
    has no wallet, when the API key is missing, when the provider call
    fails (rejected request, error status, unreadable body), and when
    the signer is absent from the list.  The endpoint is that of the
    user's wallet and of no other: two wallet addresses never give the
    same endpoint, and what the provider would answer about any other
    wallet does not change the result. *)
Theorem isDelegatedToBotSigner_spec (cfg : Wallet.Config)
    (fetch : string -> FetchReply) (walletUsers : gmap Z Wallet.WalletUser)
    (uid : Z) :
  let result := isDelegatedToBotSigner cfg fetch walletUsers uid in
  (exists b, result = Js.Return b)
  /\ (result = Js.Return true <->
      exists l,
        asks_provider cfg fetch walletUsers uid
          (FetchResponse true (BodySigners l))
        /\ exists s, In s l
             /\ Js.toLowerCase (signer s)
                = Js.toLowerCase BOT_SIGNER_ADDRESS)
  /\ (no_wallet walletUsers uid -> result = Js.Return false)
  /\ (Wallet.serverApiKey cfg = EmptyString -> result = Js.Return false)
  /\ (forall reply,
        asks_provider cfg fetch walletUsers uid reply ->
        failed reply ->
        result = Js.Return false)
  /\ (forall l,
        asks_provider cfg fetch walletUsers uid
          (FetchResponse true (BodySigners l)) ->
        (forall s, In s l ->
           Js.toLowerCase (signer s) <> Js.toLowerCase BOT_SIGNER_ADDRESS) ->
        result = Js.Return false)
  /\ (forall addr other,
        signers_url cfg addr = signers_url cfg other -> addr = other)
  /\ (forall fetch',
        (forall user addr,
           walletUsers !! uid = Some user ->
           Wallet.walletAddress user = Some addr ->
           fetch' (Wallet.baseUrl cfg ++ "/api/2022-06-09/wallets/" ++ addr
                   ++ "/signers")
           = fetch (Wallet.baseUrl cfg ++ "/api/2022-06-09/wallets/" ++ addr
                    ++ "/signers")) ->
        isDelegatedToBotSigner cfg fetch' walletUsers uid = result).
Proof.
  cbv zeta. unfold isDelegatedToBotSigner.
  split; [|split; [|split; [|split; [|split; [|split; [|split]]]]]].
  - destruct (isDelegatedToBotSigner_try cfg fetch walletUsers uid) as [b|e];
      eauto.
  - split.
    + destruct (isDelegatedToBotSigner_try cfg fetch walletUsers uid)
        as [b|e] eqn:Htry; [|discriminate].
      intros Hb. injection Hb as ->.
      destruct (isDelegatedToBotSigner_try_true _ _ _ _ Htry)
        as (l & Hask & Hbot).
      exists l. split; [exact Hask|]. apply some_is_bot_iff. exact Hbot.
    + intros (l & Hask & Hs).
      rewrite (isDelegatedToBotSigner_try_asks _ _ _ _ _ Hask).
      apply some_is_bot_iff in Hs. rewrite Hs. reflexivity.
  - unfold no_wallet, isDelegatedToBotSigner_try, Wallet.getUser.
    destruct (walletUsers !! uid) as [user|]; [|reflexivity].
    destruct (Wallet.walletAddress user) as [addr|]; [|reflexivity].
    cbn. intros ->. reflexivity.
  - intros Hkey.
    unfold isDelegatedToBotSigner_try, Wallet.getUser.
    destruct (walletUsers !! uid) as [user|]; [|reflexivity].
    destruct (Wallet.walletAddress user) as [addr|]; [|reflexivity].
    rewrite Hkey. cbn. destruct (Js.truthy addr); reflexivity.
  - intros reply Hask Hfail.
    rewrite (isDelegatedToBotSigner_try_asks _ _ _ _ _ Hask).
    destruct reply as [e | [] [e | | l]]; try reflexivity.
    destruct Hfail.
  - intros l Hask Habsent.
    rewrite (isDelegatedToBotSigner_try_asks _ _ _ _ _ Hask).
    destruct (some_is_bot l) eqn:Hbot; [|reflexivity].
    apply some_is_bot_iff in Hbot. destruct Hbot as (s & Hin & Heq).
    destruct (Habsent s Hin Heq).
  - intros addr other. apply signers_url_injective.
  - intros fetch' Hsame.
    rewrite (isDelegatedToBotSigner_try_reads _ _ _ _ _ Hsame). reflexivity.
Qed.

End WithRuntime.

Lemma isDelegatedToBotSigner_spec_witness :
  isDelegatedToBotSigner (cm := Js.BasicLatin) Sample.staging
    Sample.signers_of_0xabc Sample.users7 7 = Js.Return true
  /\ isDelegatedToBotSigner (cm := Js.BasicLatin) Sample.staging
       Sample.undelegated_fetch Sample.users7 7 = Js.Return false
  /\ isDelegatedToBotSigner (cm := Js.BasicLatin) Sample.staging
       Sample.delegated_fetch Sample.users7 8 = Js.Return false.
Proof.
  assert (Hask : forall fetch,
            asks_provider Sample.staging fetch Sample.users7 7
              (fetch "https://staging.crossmint.com/api/2022-06-09/wallets/0xabc/signers")).
  { intros fetch. exists (Sample.wallet_user 7 None), "0xabc".
    repeat split; try reflexivity; discriminate. }
  split; [|split].
  - apply (proj1 (proj2 (isDelegatedToBotSigner_spec (cm := Js.BasicLatin)
                           Sample.staging Sample.signers_of_0xabc
                           Sample.users7 7))).
    eexists. split; [exact (Hask Sample.signers_of_0xabc)|].
    eexists. split; [right; left; reflexivity|reflexivity].
  - apply (proj1 (proj2 (proj2 (proj2 (proj2 (proj2
             (isDelegatedToBotSigner_spec (cm := Js.BasicLatin)
                Sample.staging Sample.undelegated_fetch Sample.users7 7))))))
             []).
    + exact (Hask Sample.undelegated_fetch).
    + intros s [].
  - apply (proj1 (proj2 (proj2
             (isDelegatedToBotSigner_spec (cm := Js.BasicLatin)
                Sample.staging Sample.delegated_fetch Sample.users7 8)))).
    unfold no_wallet. vm_compute. exact I.
Defined.

End DelegationSpec.

(** ** The checkout service *)

Module CheckoutSpec.
Import Checkout Reading.

Lemma getProductLocatorVariations_length (asin amazonUrl : string) :
  length (getProductLocatorVariations asin amazonUrl) = 5%nat.
Proof. reflexivity. Qed.

(** One turn of the loop: a reply that is carried on hands its error to
    the next turn; any other reply ends the loop after this request. *)
Lemma retry_loop_step (post : Provider) (orderRequest : CreateOrderRequest)
    (i : nat) (lastError : Js.Error) (locator : string) (rest : list string) :
  let request := with_locator orderRequest locator in
  retry_loop post orderRequest i lastError (locator :: rest)
  = if carried_on (post i request)
    then (fst (retry_loop post orderRequest (S i)
                 (error_of (post i request)) rest),
          request :: snd (retry_loop post orderRequest (S i)
                            (error_of (post i request)) rest))
    else (match post i request with
          | Resolved _ (Conforming r) => Js.Return r
          | reply => Js.Throw (error_of reply)
          end, [request]).
Proof.
  cbn. destruct (post i (with_locator orderRequest locator))
    as [status [r | issues] | status message statusText m | e]; cbn.
  - reflexivity.
  - destruct (retry_loop post orderRequest (S i) (Js.ZodError issues) rest).
    reflexivity.
  - destruct (not_product_not_found status message); cbn; [reflexivity|].
    destruct (retry_loop post orderRequest (S i)
                (Js.AxiosError status message statusText m) rest).
    reflexivity.
  - destruct (retry_loop post orderRequest (S i) e rest). reflexivity.
Qed.

(** The loop posts at most one request per variation. *)
Lemma retry_loop_calls_le (post : Provider) (orderRequest : CreateOrderRequest)
    (variations : list string) :
  forall i lastError,
    (length (snd (retry_loop post orderRequest i lastError variations))
     <= length variations)%nat.
Proof.
  induction variations as [|locator rest IH]; intros i lastError.
  - cbn. lia.
  - rewrite retry_loop_step. cbv zeta.
    destruct (carried_on _); cbn.
    + specialize (IH (S i)
        (error_of (post i (with_locator orderRequest locator)))). lia.
    + lia.
Qed.

(** The requests are those of a prefix of the variations, in order. *)
Lemma retry_loop_calls_prefix (post : Provider)
    (orderRequest : CreateOrderRequest) (variations : list string) :
  forall i lastError,
    let calls := snd (retry_loop post orderRequest i lastError variations) in
    calls = map (with_locator orderRequest)
              (firstn (length calls) variations).
Proof.
  induction variations as [|locator rest IH]; intros i lastError.
  - reflexivity.
  - cbv zeta. rewrite retry_loop_step. cbv zeta.
    destruct (carried_on _); cbn.
    + f_equal. apply IH.
    + reflexivity.
Qed.

(** When the loop returns an order, the request that produced it is the
    last one posted. *)
Lemma retry_loop_returns_last (post : Provider)
    (orderRequest : CreateOrderRequest) (variations : list string) :
  forall i lastError r calls,
    retry_loop post orderRequest i lastError variations
    = (Js.Return r, calls) ->
    exists earlier request status,
      calls = (earlier ++ [request])%list
      /\ post (i + length earlier)%nat request
         = Resolved status (Conforming r)
      /\ forall k req, earlier !! k = Some req ->
           carried_on (post (i + k)%nat req) = true.
Proof.
  induction variations as [|locator rest IH]; intros i lastError r calls.
  - cbn. discriminate.
  - rewrite retry_loop_step. cbv zeta.
    destruct (carried_on (post i (with_locator orderRequest locator)))
      eqn:Hc.
    + intros Heq. injection Heq as Hres Hcalls.
      destruct (retry_loop post orderRequest (S i)
                  (error_of (post i (with_locator orderRequest locator)))
                  rest) as [res calls'] eqn:Hloop.
      cbn in Hres, Hcalls. subst res calls.
      destruct (IH _ _ _ _ Hloop)
        as (earlier & request & status & -> & Hpost & Hearlier).
      exists (with_locator orderRequest locator :: earlier), request, status.
      repeat split.
      * cbn [length].
        replace (i + S (length earlier))%nat with (S i + length earlier)%nat
          by lia.
        exact Hpost.
      * intros [|k] req Hk; cbn in Hk.
        -- injection Hk as <-. rewrite Nat.add_0_r. exact Hc.
        -- replace (i + S k)%nat with (S i + k)%nat by lia.
           exact (Hearlier k req Hk).
    + destruct (post i (with_locator orderRequest locator))
        as [status [r' | issues] | status message statusText m | e] eqn:Hp;
        try discriminate.
      intros Heq. injection Heq as -> <-.
      exists [], (with_locator orderRequest locator), status.
      repeat split.
      * cbn. rewrite Nat.add_0_r. exact Hp.
      * intros k req Hk. rewrite lookup_nil in Hk. discriminate.
Qed.

(** As long as every body the provider sends with an acceptance
    conforms to the schema, an accepted request is the last one
    posted. *)
Lemma retry_loop_stops_when_bodies_conform (post : Provider)
    (orderRequest : CreateOrderRequest) (variations : list string) :
  (forall k request status data,
     post k request = Resolved status data -> exists r, data = Conforming r) ->
  forall i lastError k request,
    snd (retry_loop post orderRequest i lastError variations) !! k
    = Some request ->
    accepted (post (i + k)%nat request) ->
    S k = length (snd (retry_loop post orderRequest i lastError variations)).
Proof.
  intros Hconf.
  induction variations as [|locator rest IH]; intros i lastError k request.
  - cbn. rewrite lookup_nil. discriminate.
  - rewrite retry_loop_step. cbv zeta.
    destruct (carried_on (post i (with_locator orderRequest locator)))
      eqn:Hc; cbn [snd].
    + destruct k as [|k]; cbn [lookup list_lookup length].
      * intros Heq. injection Heq as <-. rewrite Nat.add_0_r.
        destruct (post i (with_locator orderRequest locator))
          as [status data | | ] eqn:Hp; cbn; try contradiction.
        destruct (Hconf _ _ _ _ Hp) as [r ->]. discriminate.
      * intros Hk Hacc. f_equal.
        apply (IH (S i) _ k request Hk).
        replace (S i + k)%nat with (i + S k)%nat by lia. exact Hacc.
    + destruct k as [|k]; cbn [lookup list_lookup length]; [reflexivity|].
      destruct k; discriminate.
Qed.

(** An HTTP error other than 400 "Product not found" ends the loop at
    once with that error. *)
Lemma retry_loop_aborts (post : Provider) (orderRequest : CreateOrderRequest)
    (i : nat) (lastError : Js.Error) (locator : string) (rest : list string)
    (status : option Z) (message statusText : option string) (m : string) :
  post i (with_locator orderRequest locator)
  = RejectedAxios status message statusText m ->
  not_product_not_found status message = true ->
  retry_loop post orderRequest i lastError (locator :: rest)
  = (Js.Throw (Js.AxiosError status message statusText m),
     [with_locator orderRequest locator]).
Proof.
  intros Hp Hn. rewrite retry_loop_step. cbv zeta. rewrite Hp. cbn.
  rewrite Hn. reflexivity.
Qed.

(** When every reply is carried on, the loop throws the error of the
    last reply. *)
Lemma retry_loop_exhausted (post : Provider)
    (orderRequest : CreateOrderRequest) (init : list string)
    (final : string) :
  forall i lastError,
    (forall k locator, (init ++ [final])%list !! k = Some locator ->
       carried_on (post (i + k)%nat (with_locator orderRequest locator))
       = true) ->
    retry_loop post orderRequest i lastError (init ++ [final])%list
    = (Js.Throw (error_of (post (i + length init)%nat
                             (with_locator orderRequest final))),
       map (with_locator orderRequest) (init ++ [final])%list).
Proof.
  induction init as [|locator rest IH]; intros i lastError Hall.
  - cbn [app]. rewrite retry_loop_step. cbv zeta.
    assert (H0 := Hall 0%nat final eq_refl).
    rewrite Nat.add_0_r in *. rewrite H0. reflexivity.
  - cbn [app]. rewrite retry_loop_step. cbv zeta.
    assert (H0 := Hall 0%nat locator eq_refl).
    rewrite Nat.add_0_r in H0. rewrite H0.
    rewrite IH.
    + cbn [fst snd map length].
      replace (S i + length rest)%nat with (i + S (length rest))%nat by lia.
      reflexivity.
    + intros k loc Hk. specialize (Hall (S k) loc Hk).
      replace (S i + k)%nat with (i + S k)%nat by lia. exact Hall.
Qed.

(** *** From the retry loop to the classified order *)

Lemma take_alnum_truthy (n : nat) (s a : string) :
  take_alnum (S n) s = Some a -> Js.truthy a = true.
Proof.
  cbn. destruct s as [|c s']; [discriminate|].
  destruct (is_alnum c); [|discriminate].
  destruct (take_alnum n s'); cbn; [|discriminate].
  intros Heq. injection Heq as <-. reflexivity.
Qed.

Lemma first_alternative_truthy (alts : list string) (s a : string) :
  first_alternative alts s = Some a -> Js.truthy a = true.
Proof.
  induction alts as [|alt alts IH]; cbn [first_alternative]; [discriminate|].
  destruct (strip_prefix_ci alt s) as [rest|]; [|exact IH].
  destruct (take_alnum 10 rest) as [a'|] eqn:Ht; [|exact IH].
  intros Heq. injection Heq as <-. exact (take_alnum_truthy _ _ _ Ht).
Qed.

Lemma match_group_truthy (alts : list string) (s a : string) :
  match_group alts s = Some a -> Js.truthy a = true.
Proof.
  induction s as [|c s IH]; cbn [match_group].
  - destruct (first_alternative alts "") as [a'|] eqn:Hf; [|discriminate].
    intros Heq. injection Heq as <-. exact (first_alternative_truthy _ _ _ Hf).
  - destruct (first_alternative alts (String c s)) as [a'|] eqn:Hf;
      [|exact IH].
    intros Heq. injection Heq as <-. exact (first_alternative_truthy _ _ _ Hf).
Qed.

(** With an ASIN in the URL and a US address with a state, the service
    runs the retry loop, classifies the order it returns and re-wraps
    whatever is thrown. *)
Lemma createWalletAmazonOrder_reaches (post : Provider)
    (product : AmazonProduct) (userEmail walletAddress : string)
    (shippingAddress : PhysicalAddress) (asin : string) :
  orderable product shippingAddress asin ->
  createWalletAmazonOrder post product userEmail walletAddress shippingAddress
  = let loop :=
      createOrderWithRetry post
        (orderRequestFor userEmail walletAddress shippingAddress
           ("amazon:" ++ asin))
        (getProductLocatorVariations asin (amazonUrl product)) in
    (match fst loop with
     | Js.Return r =>
         match classify r with
         | Js.Return wo => Js.Return wo
         | Js.Throw e => Js.Throw (rewrap e)
         end
     | Js.Throw e => Js.Throw (rewrap e)
     end, snd loop).
Proof.
  intros (Hasin & Hcountry & Hstate).
  unfold createWalletAmazonOrder, createWalletAmazonOrder_try,
    extractProductLocator.
  rewrite Hasin, (match_group_truthy _ _ _ Hasin), Hcountry, Hstate.
  cbn [negb String.eqb Ascii.eqb Bool.eqb fst snd].
  destruct (createOrderWithRetry post _ _) as [[r|e] calls];
    cbn [fst snd]; [|reflexivity].
  destruct (classify r); reflexivity.
Qed.

(** One call of the service posts at most five order requests. *)
Lemma createWalletAmazonOrder_calls_le (post : Provider)
    (product : AmazonProduct) (userEmail walletAddress : string)
    (shippingAddress : PhysicalAddress) :
  (length (snd (createWalletAmazonOrder post product userEmail walletAddress
                  shippingAddress)) <= 5)%nat.
Proof.
  unfold createWalletAmazonOrder, createWalletAmazonOrder_try.
  destruct (extractProductLocator _); [|cbn; lia].
  destruct (asinMatch _) as [asin|]; [|cbn; lia].
  destruct (negb (Js.truthy asin)); [cbn; lia|].
  destruct (negb (String.eqb _ _)); [cbn; lia|].
  destruct (negb (Js.truthy_opt _)); [cbn; lia|].
  unfold createOrderWithRetry.
  pose proof (retry_loop_calls_le post
    (orderRequestFor userEmail walletAddress shippingAddress s)
    (getProductLocatorVariations asin (amazonUrl product)) 0 Js.ThrownNull)
    as Hle.
  rewrite getProductLocatorVariations_length in Hle.
  destruct (retry_loop _ _ _ _ _) as [[r|e] calls]; cbn in *;
    [destruct (classify r)|]; exact Hle.
Qed.

Lemma classify_returns (r : OrderResponse) (wo : WalletOrder) :
  classify r = Js.Return wo ->
  response wo = r
  /\ requiresTransaction wo = true
  /\ walletTransaction wo = transaction_of r
  /\ Js.truthy_opt (transaction_of r) = true.
Proof.
  unfold classify, transaction_of.
  destruct (String.eqb _ _); [discriminate|].
  destruct (String.eqb _ _); [discriminate|].
  destruct (preparation (orderPayment (order r))) as [prep|]; cbn;
    [|discriminate].
  destruct (Js.truthy_opt (serializedTransaction prep)) eqn:Htx; cbn;
    [|discriminate].
  intros Heq. injection Heq as <-. cbn. repeat split.
Qed.

Lemma classify_insufficient_funds (r : OrderResponse) :
  insufficient_funds r ->
  classify r = Js.Throw (Js.JsError "Insufficient USDC funds in wallet").
Proof.
  unfold insufficient_funds, classify. intros ->. reflexivity.
Qed.

Lemma classify_no_transaction (r : OrderResponse) :
  ~ insufficient_funds r ->
  ~ address_required r ->
  Js.truthy_opt (transaction_of r) = false ->
  classify r
  = Js.Throw (Js.JsError
      "No serialized transaction found for order. This item may not be available for purchase.").
Proof.
  unfold insufficient_funds, address_required, transaction_of, classify.
  intros Hfunds Haddr Htx.
  destruct (String.eqb_spec (paymentStatus (orderPayment (order r)))
              "crypto-payer-insufficient-funds"); [contradiction|].
  destruct (String.eqb_spec (quoteStatus (quote (order r)))
              "requires-physical-address"); [contradiction|].
  destruct (preparation (orderPayment (order r))) as [prep|]; cbn in *.
  - rewrite Htx. reflexivity.
  - reflexivity.
Qed.

(** C2 (as the code has it). [createWalletAmazonOrder] never signals an
    order without a transaction: whenever it returns, the result
    requires a transaction and carries a non-empty serialized one.  For
    a validated response that is neither insufficient-funds nor
    address-required and holds no serialized transaction, it raises an
    error whose message reports that no serialized transaction was
    found. *)
Theorem createWalletAmazonOrder_without_transaction (post : Provider)
    (product : AmazonProduct) (userEmail walletAddress : string)
    (shippingAddress : PhysicalAddress) :
  let result :=
    createWalletAmazonOrder post product userEmail walletAddress
      shippingAddress in
  (forall wo, fst result = Js.Return wo ->
     requiresTransaction wo = true
     /\ Js.truthy_opt (walletTransaction wo) = true
     /\ walletTransaction wo = transaction_of (response wo))
  /\ (forall asin r,
        orderable product shippingAddress asin ->
        fst (createOrderWithRetry post
               (orderRequestFor userEmail walletAddress shippingAddress
                  ("amazon:" ++ asin))
               (getProductLocatorVariations asin (amazonUrl product)))
        = Js.Return r ->
        ~ insufficient_funds r ->
        ~ address_required r ->
        Js.truthy_opt (transaction_of r) = false ->
        fst result
        = Js.Throw (Js.JsError
            "Unexpected error during order creation: Error: No serialized transaction found for order. This item may not be available for purchase.")).
Proof.
  cbv zeta. split.
  - intros wo. unfold createWalletAmazonOrder, createWalletAmazonOrder_try.
    destruct (extractProductLocator _); [|discriminate].
    destruct (asinMatch _) as [asin|]; [|discriminate].
    destruct (negb (Js.truthy asin)); [discriminate|].
    destruct (negb (String.eqb _ _)); [discriminate|].
    destruct (negb (Js.truthy_opt _)); [discriminate|].
    destruct (createOrderWithRetry _ _ _) as [[r|e] calls]; cbn;
      [|discriminate].
    destruct (classify r) as [wo'|e] eqn:Hc; cbn; [|discriminate].
    intros Heq. injection Heq as <-.
    destruct (classify_returns _ _ Hc) as (Hr & Hreq & Htx & Htruthy).
    rewrite Hreq, Htx, Hr. repeat split. exact Htruthy.
  - intros asin r Hord Hloop Hfunds Haddr Htx.
    rewrite (createWalletAmazonOrder_reaches _ _ _ _ _ _ Hord). cbv zeta.
    cbn [fst]. rewrite Hloop.
    rewrite (classify_no_transaction _ Hfunds Haddr Htx). reflexivity.
Qed.

Lemma createWalletAmazonOrder_without_transaction_witness :
  fst (createWalletAmazonOrder Sample.provider_no_transaction Sample.kettle
         "jd@example.com" "0xabc" Sample.austin)
  = Js.Throw (Js.JsError
      "Unexpected error during order creation: Error: No serialized transaction found for order. This item may not be available for purchase.").
Proof.
  apply (proj2 (createWalletAmazonOrder_without_transaction
                  Sample.provider_no_transaction Sample.kettle
                  "jd@example.com" "0xabc" Sample.austin)
           "B000X12345" (Sample.order_response "order-1" "completed" None)).
  - repeat split; reflexivity.
  - reflexivity.
  - unfold insufficient_funds. cbn. discriminate.
  - unfold address_required. cbn. discriminate.
  - reflexivity.
Defined.

(** C2, as stated, fails: the provider settles the order at once and
    its response (status [completed], no serialized transaction, quote
    valid) makes [createWalletAmazonOrder] raise instead of returning a
    success signal. *)
Lemma createWalletAmazonOrder_raises_without_transaction :
  createWalletAmazonOrder Sample.provider_no_transaction Sample.kettle
    "jd@example.com" "0xabc" Sample.austin
  = (Js.Throw (Js.JsError
       "Unexpected error during order creation: Error: No serialized transaction found for order. This item may not be available for purchase."),
     [Sample.kettle_request "amazon:B000X12345"]).
Proof. vm_compute. reflexivity. Qed.

(** C3, the failing case. The provider answers the first request with
    201 and a body the schema rejects: the loop does not abort with the
    parse error but posts the second variation, whose order it
    returns. *)
Theorem createOrderWithRetry_retries_after_parse_failure :
  createOrderWithRetry Sample.provider_first_body_malformed
    (Sample.kettle_request "amazon:B000X12345")
    (getProductLocatorVariations "B000X12345"
       (amazonUrl Sample.kettle))
  = (Js.Return
       (Sample.order_response "order-2" "awaiting-payment"
          (Some "0xdeadbeef")),
     [Sample.kettle_request "amazon:B000X12345";
      Sample.kettle_request "amazon:https://www.amazon.com/dp/B000X12345"]).
Proof. vm_compute. reflexivity. Qed.

(** C4, the failing case. One call of [createWalletAmazonOrder] against
    a provider that accepts every request: the first acceptance does
    not stop the loop, a second order request is posted and accepted. *)
Theorem createWalletAmazonOrder_posts_after_acceptance :
  let calls :=
    snd (createWalletAmazonOrder Sample.provider_first_body_malformed
           Sample.kettle "jd@example.com" "0xabc" Sample.austin) in
  length calls = 2%nat
  /\ forall k request, calls !! k = Some request ->
       accepted (Sample.provider_first_body_malformed k request).
Proof.
  vm_compute. split; [reflexivity|].
  intros [|[|k]] request Hk; try discriminate; exact I.
Qed.

(** The three-call scenario of the specification: 400 "Product not
    found" twice, then 201. *)
Example createWalletAmazonOrder_third_variation :
  let result :=
    createWalletAmazonOrder Sample.provider_third_accepted Sample.kettle
      "jd@example.com" "0xabc" Sample.austin in
  (exists wo, fst result = Js.Return wo
              /\ orderId (order (response wo)) = "order-3")
  /\ snd result
     = [Sample.kettle_request "amazon:B000X12345";
        Sample.kettle_request "amazon:https://www.amazon.com/dp/B000X12345";
        Sample.kettle_request "amazon:https://www.amazon.com/dp/B000X12345"].
Proof.
  vm_compute. split; [|reflexivity]. eexists. split; reflexivity.
Qed.

End CheckoutSpec.

(** ** The checkout session handler *)

Module CheckoutHandlerSpec.
Import CheckoutHandler HandlerReading Reading.

(** *** How a run may change the world *)

Lemma evolves_refl (uid : Z) (w : World) : evolves uid w w.
Proof.
  repeat split; [|left; reflexivity].
  exists []. split; [symmetry; apply app_nil_r|constructor].
Qed.

Lemma evolves_trans (uid : Z) (w1 w2 w3 : World) :
  evolves uid w1 w2 -> evolves uid w2 w3 -> evolves uid w1 w3.
Proof.
  intros ((evs1 & Ht1 & Hq1) & Hs1 & Hu1) ((evs2 & Ht2 & Hq2) & Hs2 & Hu2).
  repeat split.
  - exists (evs1 ++ evs2)%list. split.
    + rewrite Ht2, Ht1. symmetry. apply app_assoc.
    + apply Forall_app. split; assumption.
  - destruct Hs1 as [Hs1|Hs1], Hs2 as [Hs2|Hs2]; rewrite Hs2, Hs1.
    + left; reflexivity.
    + right; reflexivity.
    + right; reflexivity.
    + right. apply delete_delete_eq.
  - congruence.
Qed.

Lemma evolves_logged (uid : Z) (w : World) (evs : list Event) :
  Forall quiet evs -> evolves uid w (logged w evs).
Proof.
  intros Hq. repeat split; [|left; reflexivity].
  exists evs. split; [reflexivity|exact Hq].
Qed.

Lemma preserves_ret {A} (uid : Z) (a : A) : preserves uid (ret a).
Proof. intros w. apply evolves_refl. Qed.

Lemma preserves_throw {A} (uid : Z) (e : Js.Error) :
  preserves uid (@throw A e).
Proof. intros w. apply evolves_refl. Qed.

Lemma preserves_lift {A} (uid : Z) (c : Js.Completion A) :
  preserves uid (lift c).
Proof. intros w. apply evolves_refl. Qed.

Lemma preserves_bind {A B} (uid : Z) (m : M A) (k : A -> M B) :
  preserves uid m -> (forall a, preserves uid (k a)) ->
  preserves uid (bind m k).
Proof.
  intros Hm Hk w. unfold bind. specialize (Hm w).
  destruct (m w) as [[a|e] w1]; cbn in *.
  - eapply evolves_trans; [exact Hm|apply Hk].
  - exact Hm.
Qed.

Lemma preserves_tryCatch {A} (uid : Z) (body : M A)
    (handler : Js.Error -> M A) :
  preserves uid body -> (forall e, preserves uid (handler e)) ->
  preserves uid (tryCatch body handler).
Proof.
  intros Hm Hk w. unfold tryCatch. specialize (Hm w).
  destruct (body w) as [[a|e] w1]; cbn in *.
  - exact Hm.
  - eapply evolves_trans; [exact Hm|apply Hk].
Qed.

Lemma preserves_emit (uid : Z) (ev : Event) :
  quiet ev -> preserves uid (emit ev).
Proof.
  intros Hq w. apply evolves_logged. constructor; [exact Hq|constructor].
Qed.

Lemma preserves_emit_all (uid : Z) (evs : list Event) :
  Forall quiet evs -> preserves uid (emit_all evs).
Proof.
  induction 1 as [|ev evs Hq _ IH]; cbn.
  - apply preserves_ret.
  - apply preserves_bind; [apply preserves_emit; exact Hq|intros _; exact IH].
Qed.

Lemma preserves_sessionsDelete (uid : Z) : preserves uid (sessionsDelete uid).
Proof.
  intros w. repeat split; [|right; reflexivity].
  exists [EvSessionDelete uid]. split; [reflexivity|].
  constructor; [exact I|constructor].
Qed.

Lemma preserves_getWalletUser (uid u : Z) : preserves uid (getWalletUser u).
Proof. intros w. apply evolves_refl. Qed.

Create HintDb preserves.

#[local] Hint Resolve preserves_ret preserves_throw preserves_lift
  preserves_sessionsDelete preserves_getWalletUser : preserves.

Section WithEnv.
Context {cm : Js.CaseMapping}.
Variable env : Env.

Lemma preserves_sendMessage (uid chatId : Z) (p : Prompt)
    (keyboard : list (list Button)) :
  preserves uid (sendMessage env chatId p keyboard).
Proof.
  intros w. unfold sendMessage.
  destruct (deliver env (sends_so_far w)); cbn;
    apply evolves_logged; constructor; (exact I || constructor).
Qed.

Lemma preserves_generateTopUpLink (uid u amount : Z) (currency : string) :
  preserves uid (generateTopUpLink env u amount currency).
Proof.
  intros w. unfold generateTopUpLink.
  destruct (Wallet.generateTopUpLink _ _ _ _ _ _) as [[l|]|e]; cbn.
  - apply evolves_logged. constructor; [exact I|constructor].
  - apply evolves_refl.
  - apply evolves_refl.
Qed.

Lemma preserves_createWalletAmazonOrder (uid : Z)
    (product : Checkout.AmazonProduct) (userEmail walletAddress : string)
    (shippingAddress : Checkout.PhysicalAddress) :
  preserves uid
    (createWalletAmazonOrder env product userEmail walletAddress
       shippingAddress).
Proof.
  unfold createWalletAmazonOrder.
  destruct (Checkout.createWalletAmazonOrder _ _ _ _ _) as [r calls].
  apply preserves_bind; [|intros _; apply preserves_lift].
  apply preserves_emit_all. apply List.Forall_forall.
  intros ev Hin. apply in_map_iff in Hin. destruct Hin as (req & <- & _).
  exact I.
Qed.

Lemma preserves_signOrderTransaction (uid : Z)
    (walletAddress tx chain : string) :
  preserves uid (signOrderTransaction env walletAddress tx chain).
Proof.
  unfold signOrderTransaction.
  apply preserves_bind; [apply preserves_emit; exact I|].
  intros _. apply preserves_ret.
Qed.

Lemma preserves_startOrderMonitoring (uid u : Z) (orderId : string) :
  preserves uid (startOrderMonitoring orderId u).
Proof. apply preserves_emit. exact I. Qed.

#[local] Hint Resolve preserves_sendMessage preserves_generateTopUpLink
  preserves_createWalletAmazonOrder preserves_signOrderTransaction
  preserves_startOrderMonitoring : preserves.

(** Breaks a computation down to the primitives above. *)
Ltac preserve :=
  repeat first
    [ solve [auto with preserves]
    | apply preserves_bind; [|intros ?]
    | apply preserves_tryCatch; [|intros ?]
    | match goal with
      | |- preserves _ (match ?x with _ => _ end) => destruct x
      | |- preserves _ (if ?b then _ else _) => destruct b
      | |- preserves _ (let _ := _ in _) => cbv zeta
      end ].

Lemma preserves_createHeadlessOrder_catch (chatId uid : Z) (e : Js.Error) :
  preserves uid (createHeadlessOrder_catch env chatId uid e).
Proof. unfold createHeadlessOrder_catch. preserve. Qed.

Lemma preserves_reportSigning (chatId uid : Z) (session : UserSession)
    (productTitle : string) (order : Checkout.Order)
    (signingResult : Checkout.SigningResult) :
  preserves uid
    (reportSigning env chatId uid session productTitle order signingResult).
Proof. unfold reportSigning. preserve. Qed.

Lemma preserves_signTransaction (chatId uid : Z) (session : UserSession)
    (productTitle walletAddress : string) (order : Checkout.Order)
    (tx : string) :
  preserves uid
    (signTransaction env chatId uid session productTitle walletAddress order
       tx).
Proof.
  unfold signTransaction.
  apply preserves_bind; [apply preserves_sendMessage|intros _].
  apply preserves_bind; [apply preserves_signOrderTransaction|intros r].
  apply preserves_reportSigning.
Qed.

Lemma preserves_reportCreated (chatId uid : Z) (productTitle : string)
    (order : Checkout.Order) :
  preserves uid (reportCreated env chatId uid productTitle order).
Proof. unfold reportCreated. preserve. Qed.

Lemma preserves_handleOrderStates (chatId uid : Z) (session : UserSession)
    (productTitle walletAddress : string)
    (orderResponse : Checkout.WalletOrder) :
  preserves uid
    (handleOrderStates env chatId uid session productTitle walletAddress
       orderResponse).
Proof.
  unfold handleOrderStates. cbv zeta.
  destruct (String.eqb _ _); [preserve|].
  destruct (String.eqb _ _); [preserve|].
  apply preserves_bind; [|intros _; apply preserves_sessionsDelete].
  destruct (_ ≫= _) as [tx|]; [destruct (Js.truthy tx)|].
  - apply preserves_signTransaction.
  - apply preserves_reportCreated.
  - apply preserves_reportCreated.
Qed.

Lemma preserves_createHeadlessOrder_try (chatId uid : Z)
    (session : UserSession) :
  preserves uid (createHeadlessOrder_try env chatId uid session).
Proof.
  unfold createHeadlessOrder_try.
  destruct (selectedProduct session); [|preserve].
  destruct (email session) as [mail|]; [|preserve].
  destruct (physicalAddress session); [|preserve].
  destruct (negb (Js.truthy mail)); [preserve|].
  apply preserves_bind; [apply preserves_sendMessage|intros _].
  apply preserves_bind; [apply preserves_getWalletUser|intros user].
  destruct (user ≫= Wallet.walletAddress) as [wa|]; [|preserve].
  destruct (negb (Js.truthy wa)); [preserve|].
  apply preserves_bind; [apply preserves_createWalletAmazonOrder|intros r].
  apply preserves_handleOrderStates.
Qed.

(** [createHeadlessOrder] writes no session and never asks for the
    delegated signers; it keeps or deletes the user's session. *)
Lemma preserves_createHeadlessOrder (chatId uid : Z) (session : UserSession) :
  preserves uid (createHeadlessOrder env chatId uid session).
Proof.
  unfold createHeadlessOrder. apply preserves_tryCatch.
  - apply preserves_createHeadlessOrder_try.
  - apply preserves_createHeadlessOrder_catch.
Qed.

(** *** One incoming text *)

Lemma events_since_app (w w' : World) (evs : list Event) :
  trace w' = (trace w ++ evs)%list -> events_since w w' = evs.
Proof.
  intros Ht. unfold events_since. rewrite Ht. apply drop_app_length.
Qed.

Lemma evolves_events (uid : Z) (w w' : World) :
  evolves uid w w' ->
  trace w' = (trace w ++ events_since w w')%list
  /\ Forall quiet (events_since w w').
Proof.
  intros ((evs & Ht & Hq) & _). rewrite (events_since_app _ _ _ Ht).
  split; assumption.
Qed.

Lemma evolves_lookup (uid : Z) (w w' : World) (session : UserSession) :
  evolves uid w w' ->
  userSessions w' !! uid = Some session ->
  userSessions w !! uid = Some session.
Proof.
  intros (_ & [Hs|Hs] & _); rewrite Hs; [tauto|].
  rewrite lookup_delete_eq. discriminate.
Qed.

(** The [catch] of [handleCheckoutMessage]. *)
Lemma preserves_handler_catch (chatId uid : Z) :
  preserves uid
    (run sendMessage env chatId SomethingWentWrong [];
     run sessionsDelete uid;
     ret true).
Proof. preserve. Qed.

(** What [handleEmailInput] and [handleAddressInput] do after they
    stored the session. *)
Lemma preserves_after_email (chatId uid : Z) (session : UserSession) :
  preserves uid
    (run (match selectedProduct session with
          | Some product => requestShippingAddress env chatId product
          | None => ret tt
          end);
     ret true).
Proof. unfold requestShippingAddress. preserve. Qed.

Lemma preserves_after_address (chatId uid : Z) (session : UserSession) :
  preserves uid (run createHeadlessOrder env chatId uid session; ret true).
Proof.
  apply preserves_bind; [apply preserves_createHeadlessOrder|].
  intros _. apply preserves_ret.
Qed.

Lemma tryCatch_after_set {A} (uid : Z) (session : UserSession)
    (k : M A) (handler : Js.Error -> M A) (w : World) :
  (forall e, preserves uid (handler e)) ->
  preserves uid k ->
  evolves uid (stored w uid session)
    (snd (tryCatch (run sessionsSet uid session; k) handler w)).
Proof.
  intros Hh Hk. unfold tryCatch, bind, sessionsSet. cbn.
  fold (stored w uid session).
  specialize (Hk (stored w uid session)).
  destruct (k (stored w uid session)) as [[a|e] w1]; cbn in *.
  - exact Hk.
  - eapply evolves_trans; [exact Hk|apply Hh].
Qed.

Lemma address_accepted_checks (txt : string) :
  address_accepted txt = true ->
  (length (address_parts txt) <? 6)%nat = false
  /\ negb (Js.truthy (part (address_parts txt) 0))
     || negb (Js.truthy (part (address_parts txt) 1))
     || negb (Js.truthy (part (address_parts txt) 2))
     || negb (Js.truthy (part (address_parts txt) 3))
     || negb (Js.truthy (part (address_parts txt) 4))
     || negb (Js.truthy (part (address_parts txt) 5)) = false
  /\ Js.toUpperCase (part (address_parts txt) 5) = "US".
Proof.
  unfold address_accepted. cbv zeta.
  destruct (length (address_parts txt) <? 6)%nat; [discriminate|].
  destruct (Js.truthy (part (address_parts txt) 0)); [|discriminate].
  destruct (Js.truthy (part (address_parts txt) 1)); [|discriminate].
  destruct (Js.truthy (part (address_parts txt) 2)); [|discriminate].
  destruct (Js.truthy (part (address_parts txt) 3)); [|discriminate].
  destruct (Js.truthy (part (address_parts txt) 4)); [|discriminate].
  destruct (Js.truthy (part (address_parts txt) 5)); [|discriminate].
  cbn. intros Heq. apply String.eqb_eq in Heq. auto.
Qed.

Lemma address_rejected_checks (txt : string) :
  address_accepted txt = false ->
  (length (address_parts txt) <? 6)%nat = true
  \/ negb (Js.truthy (part (address_parts txt) 0))
     || negb (Js.truthy (part (address_parts txt) 1))
     || negb (Js.truthy (part (address_parts txt) 2))
     || negb (Js.truthy (part (address_parts txt) 3))
     || negb (Js.truthy (part (address_parts txt) 4))
     || negb (Js.truthy (part (address_parts txt) 5)) = true
  \/ String.eqb (Js.toUpperCase (part (address_parts txt) 5)) "US" = false.
Proof.
  unfold address_accepted. cbv zeta.
  destruct (length (address_parts txt) <? 6)%nat; [auto|].
  destruct (Js.truthy (part (address_parts txt) 0)); [|auto].
  destruct (Js.truthy (part (address_parts txt) 1)); [|auto].
  destruct (Js.truthy (part (address_parts txt) 2)); [|auto].
  destruct (Js.truthy (part (address_parts txt) 3)); [|auto].
  destruct (Js.truthy (part (address_parts txt) 4)); [|auto].
  destruct (Js.truthy (part (address_parts txt) 5)); [|auto].
  cbn. auto.
Qed.

(** With a user, a text and a session holding a product, the handler
    dispatches on the session's step inside its [try]. *)
Lemma handleCheckoutMessage_dispatch (msg : Message) (w : World) (uid : Z)
    (raw : string) (session : UserSession)
    (product : Checkout.AmazonProduct) :
  from_id msg = Some uid ->
  text msg = Some raw ->
  (uid =? 0) || negb (Js.truthy (Js.trim raw)) = false ->
  userSessions w !! uid = Some session ->
  selectedProduct session = Some product ->
  handleCheckoutMessage env msg w
  = tryCatch
      (match step session with
       | collecting_email =>
           handleEmailInput env (chat_id msg) uid (Js.trim raw) session
       | collecting_address =>
           handleAddressInput env (chat_id msg) uid (Js.trim raw) session
       | _ => ret false
       end)
      (fun _ =>
         run sendMessage env (chat_id msg) SomethingWentWrong [];
         run sessionsDelete uid;
         ret true) w.
Proof.
  intros Hfrom Htext Hcond Hget Hprod.
  unfold handleCheckoutMessage. rewrite Hfrom, Htext, Hcond.
  unfold bind at 1. unfold sessionsGet. cbv beta.
  rewrite Hget, Hprod. reflexivity.
Qed.

(** Without a user id, a text or a session with a product the handler
    returns [false] and changes nothing. *)
Lemma handleCheckoutMessage_not_consumed (msg : Message) (w : World)
    (uid : Z) (raw : string) :
  from_id msg = Some uid ->
  text msg = Some raw ->
  (uid =? 0) || negb (Js.truthy (Js.trim raw)) = true
  \/ userSessions w !! uid = None
  \/ (exists session, userSessions w !! uid = Some session
                      /\ selectedProduct session = None) ->
  handleCheckoutMessage env msg w = (Js.Return false, w).
Proof.
  intros Hfrom Htext Hcase.
  unfold handleCheckoutMessage. rewrite Hfrom, Htext.
  destruct ((uid =? 0) || negb (Js.truthy (Js.trim raw))) eqn:Hcond;
    [reflexivity|].
  unfold bind at 1. unfold sessionsGet. cbv beta.
  destruct Hcase as [H|[H|(session & H & Hprod)]].
  - discriminate.
  - rewrite H. reflexivity.
  - rewrite H, Hprod. reflexivity.
Qed.

(** An input that fails the check of the session's step: the handler
    writes no session. *)
Lemma handleCheckoutMessage_rejects (msg : Message) (w : World) (uid : Z)
    (raw : string) (session : UserSession) :
  from_id msg = Some uid ->
  text msg = Some raw ->
  userSessions w !! uid = Some session ->
  passes (Js.trim raw) session = false ->
  evolves uid w (snd (handleCheckoutMessage env msg w)).
Proof.
  intros Hfrom Htext Hget Hpass.
  destruct ((uid =? 0) || negb (Js.truthy (Js.trim raw))) eqn:Hcond.
  { rewrite (handleCheckoutMessage_not_consumed _ _ _ _ Hfrom Htext);
      [apply evolves_refl|auto]. }
  destruct (selectedProduct session) as [product|] eqn:Hprod.
  2:{ rewrite (handleCheckoutMessage_not_consumed _ _ _ _ Hfrom Htext);
        [apply evolves_refl|eauto]. }
  rewrite (handleCheckoutMessage_dispatch _ _ _ _ _ _
             Hfrom Htext Hcond Hget Hprod).
  apply preserves_tryCatch; [|intros _; apply preserves_handler_catch].
  unfold passes in Hpass.
  destruct (step session); try apply preserves_ret.
  - unfold handleEmailInput. rewrite Hpass. cbn [negb]. preserve.
  - unfold handleAddressInput. cbv zeta.
    destruct (address_rejected_checks _ Hpass) as [H|[H|H]].
    + rewrite H. preserve.
    + destruct (length _ <? 6)%nat; [preserve|]. rewrite H. preserve.
    + destruct (length _ <? 6)%nat; [preserve|].
      destruct (negb _ || _ || _ || _ || _ || _); [preserve|].
      rewrite H. cbn [negb]. preserve.
Qed.

(** Every incoming text either leaves the sessions alone (but for a
    deletion), or stores the one session its input advances to and
    leaves the sessions alone after that. *)
Lemma handleCheckoutMessage_step (msg : Message) (w : World) (uid : Z)
    (raw : string) :
  from_id msg = Some uid ->
  text msg = Some raw ->
  let w' := snd (handleCheckoutMessage env msg w) in
  evolves uid w w'
  \/ exists session session',
       userSessions w !! uid = Some session
       /\ advance (Js.trim raw) session session'
       /\ evolves uid (stored w uid session') w'.
Proof.
  intros Hfrom Htext. cbv zeta.
  destruct (userSessions w !! uid) as [session|] eqn:Hget.
  2:{ left. rewrite (handleCheckoutMessage_not_consumed _ _ _ _ Hfrom Htext);
        [apply evolves_refl|auto]. }
  destruct (passes (Js.trim raw) session) eqn:Hpass.
  2:{ left. eapply handleCheckoutMessage_rejects; eassumption. }
  destruct ((uid =? 0) || negb (Js.truthy (Js.trim raw))) eqn:Hcond.
  { left. rewrite (handleCheckoutMessage_not_consumed _ _ _ _ Hfrom Htext);
      [apply evolves_refl|auto]. }
  destruct (selectedProduct session) as [product|] eqn:Hprod.
  2:{ left. rewrite (handleCheckoutMessage_not_consumed _ _ _ _ Hfrom Htext);
        [apply evolves_refl|eauto]. }
  rewrite (handleCheckoutMessage_dispatch _ _ _ _ _ _
             Hfrom Htext Hcond Hget Hprod).
  unfold passes in Hpass.
  destruct (step session) eqn:Hstep; try discriminate.
  - right. exists session, (with_email session (Js.trim raw)).
    split; [reflexivity|]. split; [left; auto|].
    unfold handleEmailInput. rewrite Hpass. cbn [negb]. cbv zeta.
    apply tryCatch_after_set.
    + intros _. apply preserves_handler_catch.
    + apply preserves_after_email.
  - right.
    exists session,
      (with_address session (address_parts (Js.trim raw)) "US").
    split; [reflexivity|]. split; [right; auto|].
    destruct (address_accepted_checks _ Hpass) as (Hlen & Hparts & Hus).
    unfold handleAddressInput. cbv zeta.
    rewrite Hlen, Hparts, Hus. cbn [String.eqb Ascii.eqb Bool.eqb negb].
    apply tryCatch_after_set.
    + intros _. apply preserves_handler_catch.
    + apply preserves_after_address.
Qed.

Lemma tryCatch_send_delivered (chatId : Z) (p : Prompt)
    (keyboard : list (list Button)) (handler : Js.Error -> M bool)
    (w : World) :
  deliver env (sends_so_far w) = None ->
  tryCatch (run sendMessage env chatId p keyboard; ret true) handler w
  = (Js.Return true, logged w [EvSend chatId p keyboard]).
Proof.
  intros Hd. unfold tryCatch, bind, sendMessage. rewrite Hd. reflexivity.
Qed.

(** A rejected input whose re-prompt is delivered leaves the session
    store as it was. *)
Lemma handleCheckoutMessage_rejects_delivered (msg : Message) (w : World)
    (uid : Z) (raw : string) (session : UserSession) :
  from_id msg = Some uid ->
  text msg = Some raw ->
  userSessions w !! uid = Some session ->
  passes (Js.trim raw) session = false ->
  deliver env (sends_so_far w) = None ->
  userSessions (snd (handleCheckoutMessage env msg w)) = userSessions w.
Proof.
  intros Hfrom Htext Hget Hpass Hd.
  destruct ((uid =? 0) || negb (Js.truthy (Js.trim raw))) eqn:Hcond.
  { rewrite (handleCheckoutMessage_not_consumed _ _ _ _ Hfrom Htext);
      [reflexivity|auto]. }
  destruct (selectedProduct session) as [product|] eqn:Hprod.
  2:{ rewrite (handleCheckoutMessage_not_consumed _ _ _ _ Hfrom Htext);
        [reflexivity|eauto]. }
  rewrite (handleCheckoutMessage_dispatch _ _ _ _ _ _
             Hfrom Htext Hcond Hget Hprod).
  unfold passes in Hpass.
  destruct (step session); try reflexivity.
  - unfold handleEmailInput. rewrite Hpass. cbn [negb].
    rewrite tryCatch_send_delivered by exact Hd. reflexivity.
  - unfold handleAddressInput. cbv zeta.
    destruct (address_rejected_checks _ Hpass) as [H|[H|H]].
    + rewrite H. rewrite tryCatch_send_delivered by exact Hd. reflexivity.
    + destruct (length _ <? 6)%nat;
        [rewrite tryCatch_send_delivered by exact Hd; reflexivity|].
      rewrite H. rewrite tryCatch_send_delivered by exact Hd. reflexivity.
    + destruct (length _ <? 6)%nat;
        [rewrite tryCatch_send_delivered by exact Hd; reflexivity|].
      destruct (negb _ || _ || _ || _ || _ || _);
        [rewrite tryCatch_send_delivered by exact Hd; reflexivity|].
      rewrite H. cbn [negb].
      rewrite tryCatch_send_delivered by exact Hd. reflexivity.
Qed.

(** C10. A text that arrives while the session's step is
    [product_selected], [creating_order] or [completed] is not consumed:
    the handler returns [false] and the world, the session store
    included, is what it was. *)
Theorem handleCheckoutMessage_other_steps (msg : Message) (w : World)
    (uid : Z) (session : UserSession) :
  from_id msg = Some uid ->
  userSessions w !! uid = Some session ->
  step session = product_selected
  \/ step session = creating_order
  \/ step session = completed ->
  handleCheckoutMessage env msg w = (Js.Return false, w).
Proof.
  intros Hfrom Hget Hstep.
  destruct (text msg) as [raw|] eqn:Htext.
  2:{ unfold handleCheckoutMessage. rewrite Hfrom, Htext. reflexivity. }
  destruct ((uid =? 0) || negb (Js.truthy (Js.trim raw))) eqn:Hcond.
  { apply (handleCheckoutMessage_not_consumed _ _ _ _ Hfrom Htext). auto. }
  destruct (selectedProduct session) as [product|] eqn:Hprod.
  2:{ apply (handleCheckoutMessage_not_consumed _ _ _ _ Hfrom Htext). eauto. }
  rewrite (handleCheckoutMessage_dispatch _ _ _ _ _ _
             Hfrom Htext Hcond Hget Hprod).
  destruct Hstep as [-> | [-> | ->]]; reflexivity.
Qed.

(** *** A sequence of incoming texts *)

Lemma handleCheckoutMessage_trace (uid chatId : Z) (t : string) (w : World) :
  let w' := snd (handleCheckoutMessage env (text_message uid chatId t) w) in
  trace w' = (trace w ++ events_since w w')%list.
Proof.
  cbv zeta.
  destruct (handleCheckoutMessage_step (text_message uid chatId t) w uid t
              eq_refl eq_refl) as [Hev|(session & session' & _ & _ & Hev)].
  - apply (evolves_events _ _ _ Hev).
  - destruct (evolves_events _ _ _ Hev) as [Ht _].
    unfold stored, logged in Ht. cbn [trace with_sessions] in Ht.
    rewrite <- app_assoc in Ht.
    rewrite (events_since_app _ _ _ Ht). exact Ht.
Qed.

Lemma handleTexts_trace (uid chatId : Z) (texts : list string) :
  forall w,
    trace (handleTexts env uid chatId texts w)
    = (trace w ++ events_since w (handleTexts env uid chatId texts w))%list.
Proof.
  induction texts as [|t rest IH]; intros w; cbn [handleTexts].
  - unfold events_since. rewrite drop_all. symmetry. apply app_nil_r.
  - pose proof (handleCheckoutMessage_trace uid chatId t w) as H1.
    cbv zeta in H1.
    set (w1 := snd (handleCheckoutMessage env (text_message uid chatId t) w))
      in *.
    pose proof (IH w1) as H2.
    assert (Ht : trace (handleTexts env uid chatId rest w1)
                 = (trace w ++ (events_since w w1
                      ++ events_since w1
                           (handleTexts env uid chatId rest w1)))%list).
    { rewrite H2 at 1. rewrite H1 at 1. symmetry. apply app_assoc. }
    rewrite (events_since_app _ _ _ Ht). exact Ht.
Qed.

Lemma handleTexts_events_cons (uid chatId : Z) (t : string)
    (rest : list string) (w : World) :
  let w1 := snd (handleCheckoutMessage env (text_message uid chatId t) w) in
  events_since w (handleTexts env uid chatId (t :: rest) w)
  = (events_since w w1
     ++ events_since w1 (handleTexts env uid chatId rest w1))%list.
Proof.
  cbv zeta. cbn [handleTexts].
  apply events_since_app.
  rewrite handleTexts_trace at 1.
  rewrite handleCheckoutMessage_trace at 1.
  symmetry. apply app_assoc.
Qed.

Lemma advance_creating_order (txt : string) (session session' : UserSession) :
  advance txt session session' ->
  step session' = creating_order ->
  address_accepted txt = true
  /\ session' = with_address session (address_parts txt) "US".
Proof.
  intros [(_ & _ & ->)|(_ & Hacc & ->)] Hstep.
  - discriminate.
  - split; [exact Hacc|reflexivity].
Qed.

Lemma advance_from_address (txt : string) (session session' : UserSession) :
  advance txt session session' ->
  step session' = creating_order ->
  step session = collecting_address.
Proof.
  intros [(_ & _ & ->)|(Hstep & _ & _)] H; [discriminate|exact Hstep].
Qed.

Lemma advance_to_address (txt : string) (session session' : UserSession) :
  advance txt session session' ->
  step session' = collecting_address ->
  Js.test emailRegex txt = true /\ email session' = Some txt.
Proof.
  intros [(_ & Hre & ->)|(_ & _ & ->)] H; [|discriminate].
  split; [exact Hre|reflexivity].
Qed.

Lemma stored_lookup (uid : Z) (w w' : World) (session s1 : UserSession) :
  evolves uid (stored w uid session) w' ->
  userSessions w' !! uid = Some s1 ->
  s1 = session.
Proof.
  intros Hev Hget. apply (evolves_lookup _ _ _ _ Hev) in Hget.
  unfold stored in Hget. cbn in Hget.
  rewrite lookup_insert_eq in Hget. congruence.
Qed.

(** Whenever a run over the user's texts stores a session in
    [creating_order], one of the texts was an accepted address, and the
    session's email is an earlier text that matches the pattern, or the
    session was at [collecting_address] before the texts and the email
    is the one it held then. *)
Lemma handleTexts_creating_order (uid chatId : Z) (texts : list string) :
  forall (w : World) (session' : UserSession),
    In (EvSessionSet uid session')
       (events_since w (handleTexts env uid chatId texts w)) ->
    step session' = creating_order ->
    exists before t after,
      texts = (before ++ t :: after)%list
      /\ address_accepted (Js.trim t) = true
      /\ physicalAddress session'
         = Some (address_of (address_parts (Js.trim t)) "US")
      /\ ((exists e, In e before
                     /\ Js.test emailRegex (Js.trim e) = true
                     /\ email session' = Some (Js.trim e))
          \/ (exists session, userSessions w !! uid = Some session
                              /\ step session = collecting_address
                              /\ email session' = email session)).
Proof.
  induction texts as [|t rest IH]; intros w session' Hin Hstep.
  - cbn [handleTexts] in Hin. unfold events_since in Hin.
    rewrite drop_all in Hin. destruct Hin.
  - rewrite handleTexts_events_cons in Hin. cbv zeta in Hin.
    set (w1 := snd (handleCheckoutMessage env (text_message uid chatId t) w))
      in *.
    pose proof (handleCheckoutMessage_step (text_message uid chatId t) w uid t
                  eq_refl eq_refl) as Hcases.
    cbv zeta in Hcases. fold w1 in Hcases.
    apply in_app_or in Hin. destruct Hin as [Hin|Hin].
    + destruct Hcases as [Hev|(session & s1 & Hget & Hadv & Hev)].
      * destruct (evolves_events _ _ _ Hev) as [_ Hq].
        rewrite List.Forall_forall in Hq. destruct (Hq _ Hin).
      * destruct (evolves_events _ _ _ Hev) as [Ht Hq].
        unfold stored, logged in Ht. cbn [trace with_sessions] in Ht.
        rewrite <- app_assoc in Ht.
        rewrite (events_since_app _ _ _ Ht) in Hin.
        destruct Hin as [Heq|Hin].
        2:{ rewrite List.Forall_forall in Hq. destruct (Hq _ Hin). }
        injection Heq as ->.
        pose proof (advance_from_address _ _ _ Hadv Hstep) as Hfrom.
        destruct (advance_creating_order _ _ _ Hadv Hstep) as [Hacc ->].
        exists [], t, rest. repeat split.
        -- exact Hacc.
        -- right. exists session. split; [exact Hget|].
           split; [exact Hfrom|reflexivity].
    + destruct (IH w1 session' Hin Hstep)
        as (before & t' & after & -> & Hacc & Haddr & Hmail).
      exists (t :: before), t', after. repeat split; try assumption.
      destruct Hmail as [(e & He & Hre & Hmail)|(s1 & Hget1 & Hs1 & Hmail)].
      * left. exists e. repeat split; try assumption. right. exact He.
      * destruct Hcases as [Hev|(session & s2 & Hget & Hadv & Hev)].
        -- right. exists s1. split; [|split; [exact Hs1|exact Hmail]].
           exact (evolves_lookup _ _ _ _ Hev Hget1).
        -- rewrite (stored_lookup _ _ _ _ _ Hev Hget1) in Hmail, Hs1.
           destruct (advance_to_address _ _ _ Hadv Hs1) as [Hre Hset].
           left. exists t. repeat split.
           ++ left. reflexivity.
           ++ exact Hre.
           ++ congruence.
Qed.

(** *** Laws of the computations *)

Lemma bind_assoc {A B C} (m : M A) (k1 : A -> M B) (k2 : B -> M C)
    (w : World) :
  bind (bind m k1) k2 w = bind m (fun a => bind (k1 a) k2) w.
Proof. unfold bind. destruct (m w) as [[a|e] w1]; reflexivity. Qed.

Lemma tryCatch_bind_assoc {A B C} (m : M A) (k1 : A -> M B) (k2 : B -> M C)
    (handler : Js.Error -> M C) (w : World) :
  tryCatch (bind (bind m k1) k2) handler w
  = tryCatch (bind m (fun a => bind (k1 a) k2)) handler w.
Proof. unfold tryCatch. rewrite bind_assoc. reflexivity. Qed.

Lemma tryCatch_bind_returns {A B} (m : M A) (k : A -> M B)
    (handler : Js.Error -> M B) (w w1 : World) (a : A) :
  m w = (Js.Return a, w1) ->
  tryCatch (bind m k) handler w = tryCatch (k a) handler w1.
Proof. intros Hm. unfold tryCatch, bind. rewrite Hm. reflexivity. Qed.

(** *** How a session starts *)

Lemma keeps_ret {A} (a : A) : keeps (ret a).
Proof. intros w. reflexivity. Qed.

Lemma keeps_bind {A B} (m : M A) (k : A -> M B) :
  keeps m -> (forall a, keeps (k a)) -> keeps (bind m k).
Proof.
  intros Hm Hk w. unfold bind. specialize (Hm w).
  destruct (m w) as [[a|e] w1]; cbn [snd] in *; [|exact Hm].
  rewrite Hk. exact Hm.
Qed.

Lemma keeps_tryCatch {A} (body : M A) (handler : Js.Error -> M A) :
  keeps body -> (forall e, keeps (handler e)) -> keeps (tryCatch body handler).
Proof.
  intros Hm Hk w. unfold tryCatch. specialize (Hm w).
  destruct (body w) as [[a|e] w1]; cbn [snd] in *; [exact Hm|].
  rewrite Hk. exact Hm.
Qed.

Lemma keeps_sendMessage (chatId : Z) (p : Prompt)
    (keyboard : list (list Button)) :
  keeps (sendMessage env chatId p keyboard).
Proof.
  intros w. unfold sendMessage. destruct (deliver env _); reflexivity.
Qed.

Lemma keeps_generateTopUpLink (uid amount : Z) (currency : string) :
  keeps (generateTopUpLink env uid amount currency).
Proof.
  intros w. unfold generateTopUpLink.
  destruct (Wallet.generateTopUpLink _ _ _ _ _ _) as [[l|]|e]; reflexivity.
Qed.

Lemma keeps_generateAuthLink (uid : Z) : keeps (generateAuthLink env uid).
Proof.
  intros w. unfold generateAuthLink.
  destruct (Wallet.generateAuthLink _ _ _ _ _ _). reflexivity.
Qed.

Lemma tryCatch_set_keeps {A} (uid : Z) (session : UserSession) (k : M A)
    (handler : Js.Error -> M A) (w : World) :
  keeps k -> (forall e, keeps (handler e)) ->
  userSessions (snd (tryCatch (run sessionsSet uid session; k) handler w))
  = <[uid := session]> (userSessions w).
Proof.
  intros Hk Hh.
  rewrite (tryCatch_bind_returns _ _ _ w (stored w uid session) tt)
    by reflexivity.
  rewrite (keeps_tryCatch _ _ Hk Hh). reflexivity.
Qed.

(** [startWalletCheckoutFlow] either leaves the session store alone or
    stores one session for the user: at [collecting_email] without an
    email, or at [collecting_address] with the non-empty email of the
    wallet record. *)
Lemma startWalletCheckoutFlow_session (chatId uid : Z)
    (product : Checkout.AmazonProduct) (index : Z) (w : World) :
  let w' := snd (startWalletCheckoutFlow env chatId uid product index w) in
  userSessions w' = userSessions w
  \/ exists session,
       userSessions w' = <[uid := session]> (userSessions w)
       /\ selectedProduct session = Some product
       /\ physicalAddress session = None
       /\ ((step session = collecting_email /\ email session = None)
           \/ (step session = collecting_address
               /\ exists user mail,
                    walletUsers w !! uid = Some user
                    /\ Wallet.email user = Some mail
                    /\ Js.truthy mail = true
                    /\ email session = Some mail)).
Proof.
  cbv zeta. unfold startWalletCheckoutFlow.
  rewrite (tryCatch_bind_returns _ _ _ w w (walletUsers w)) by reflexivity.
  assert (Hh : forall e : Js.Error,
            keeps (sendMessage env chatId CheckoutStartError []))
    by (intros _; apply keeps_sendMessage).
  destruct (Wallet.hasWallet (walletUsers w) uid); cbn [negb].
  2:{ left. apply keeps_tryCatch; [|exact Hh].
      apply keeps_bind; [apply keeps_generateAuthLink|].
      intros [l|]; apply keeps_sendMessage. }
  destruct (Wallet.getWalletBalance _ _ _) as [[|b bs]|].
  1,3: left; apply keeps_tryCatch; [|exact Hh];
       (apply keeps_bind; [apply keeps_generateTopUpLink|]);
       intros l; apply keeps_sendMessage.
  right. cbv zeta. unfold Wallet.getUser.
  destruct (walletUsers w !! uid) as [user|] eqn:Huser;
    cbn [mbind option_bind].
  2:{ eexists. split; [|split; [|split]].
      - apply tryCatch_set_keeps; [apply keeps_sendMessage|exact Hh].
      - reflexivity.
      - reflexivity.
      - left. split; reflexivity. }
  destruct (Wallet.email user) as [mail|] eqn:Hmail.
  2:{ eexists. split; [|split; [|split]].
      - apply tryCatch_set_keeps; [apply keeps_sendMessage|exact Hh].
      - reflexivity.
      - reflexivity.
      - left. split; reflexivity. }
  cbn [Js.truthy_opt].
  destruct (Js.truthy mail) eqn:Htruthy; cbn [email Js.truthy_opt].
  2:{ eexists. split; [|split; [|split]].
      - apply tryCatch_set_keeps; [apply keeps_sendMessage|exact Hh].
      - reflexivity.
      - reflexivity.
      - left. split; reflexivity. }
  rewrite Htruthy.
  eexists. split; [|split; [|split]].
  - rewrite (tryCatch_bind_returns _ _ _ w _ tt) by reflexivity.
    rewrite tryCatch_set_keeps; [|apply keeps_sendMessage|exact Hh].
    cbn [userSessions logged with_sessions]. apply insert_insert_eq.
  - reflexivity.
  - reflexivity.
  - right. split; [reflexivity|].
    exists user, mail. repeat split; assumption.
Qed.

(** *** From the start of a session to its order *)

Lemma sets_no_session_ret {A} (a : A) : sets_no_session (ret a).
Proof. intros w. exists []. split; [symmetry; apply app_nil_r|constructor]. Qed.

Lemma sets_no_session_bind {A B} (m : M A) (k : A -> M B) :
  sets_no_session m -> (forall a, sets_no_session (k a)) ->
  sets_no_session (bind m k).
Proof.
  intros Hm Hk w. unfold bind. destruct (Hm w) as (evs1 & H1 & Hq1).
  destruct (m w) as [[a|e] w1]; cbn [snd] in *; [|eauto].
  destruct (Hk a w1) as (evs2 & H2 & Hq2).
  exists (evs1 ++ evs2)%list. split.
  - rewrite H2, H1. symmetry. apply app_assoc.
  - apply Forall_app. split; assumption.
Qed.

Lemma sets_no_session_tryCatch {A} (body : M A) (handler : Js.Error -> M A) :
  sets_no_session body -> (forall e, sets_no_session (handler e)) ->
  sets_no_session (tryCatch body handler).
Proof.
  intros Hm Hk w. unfold tryCatch. destruct (Hm w) as (evs1 & H1 & Hq1).
  destruct (body w) as [[a|e] w1]; cbn [snd] in *; [eauto|].
  destruct (Hk e w1) as (evs2 & H2 & Hq2).
  exists (evs1 ++ evs2)%list. split.
  - rewrite H2, H1. symmetry. apply app_assoc.
  - apply Forall_app. split; assumption.
Qed.

Lemma sets_no_session_sendMessage (chatId : Z) (p : Prompt)
    (keyboard : list (list Button)) :
  sets_no_session (sendMessage env chatId p keyboard).
Proof.
  intros w. exists [EvSend chatId p keyboard]. unfold sendMessage.
  destruct (deliver env _); (split; [reflexivity|repeat constructor]).
Qed.

Lemma sets_no_session_generateTopUpLink (uid amount : Z) (currency : string) :
  sets_no_session (generateTopUpLink env uid amount currency).
Proof.
  intros w. unfold generateTopUpLink.
  destruct (Wallet.generateTopUpLink _ _ _ _ _ _) as [[l|]|e]; cbn [snd].
  - exists [EvTopUpSession l]. split; [reflexivity|repeat constructor].
  - exists []. split; [symmetry; apply app_nil_r|constructor].
  - exists []. split; [symmetry; apply app_nil_r|constructor].
Qed.

Lemma sets_no_session_generateAuthLink (uid : Z) :
  sets_no_session (generateAuthLink env uid).
Proof.
  intros w. unfold generateAuthLink.
  destruct (Wallet.generateAuthLink _ _ _ _ _ _). cbn [snd trace].
  exists []. split; [symmetry; apply app_nil_r|constructor].
Qed.

Lemma sets_no_session_events {A} (m : M A) (w : World) :
  sets_no_session m ->
  forall u s, ~ In (EvSessionSet u s) (events_since w (snd (m w))).
Proof.
  intros Hm u s Hin. destruct (Hm w) as (evs & Ht & Hq).
  rewrite (events_since_app _ _ _ Ht) in Hin.
  rewrite List.Forall_forall in Hq. exact (Hq _ Hin).
Qed.

(** [startWalletCheckoutFlow] either stores no session at all, or
    leaves the user with a session that awaits the email and holds
    none, or with one that awaits the address and holds the non-empty
    email of the user's wallet record. *)
Lemma startWalletCheckoutFlow_created (chatId uid : Z)
    (product : Checkout.AmazonProduct) (index : Z) (w : World) :
  let w' := snd (startWalletCheckoutFlow env chatId uid product index w) in
  (forall u s, ~ In (EvSessionSet u s) (events_since w w'))
  \/ exists session,
       userSessions w' !! uid = Some session
       /\ selectedProduct session = Some product
       /\ physicalAddress session = None
       /\ ((step session = collecting_email /\ email session = None)
           \/ (step session = collecting_address
               /\ exists user mail,
                    walletUsers w !! uid = Some user
                    /\ Wallet.email user = Some mail
                    /\ mail <> EmptyString
                    /\ email session = Some mail)).
Proof.
  cbv zeta. unfold startWalletCheckoutFlow.
  rewrite (tryCatch_bind_returns _ _ _ w w (walletUsers w)) by reflexivity.
  assert (Hh : forall e : Js.Error,
            keeps (sendMessage env chatId CheckoutStartError []))
    by (intros _; apply keeps_sendMessage).
  assert (Hq : forall e : Js.Error,
            sets_no_session (sendMessage env chatId CheckoutStartError []))
    by (intros _; apply sets_no_session_sendMessage).
  destruct (Wallet.hasWallet (walletUsers w) uid); cbn [negb].
  2:{ left. apply sets_no_session_events.
      apply sets_no_session_tryCatch; [|exact Hq].
      apply sets_no_session_bind; [apply sets_no_session_generateAuthLink|].
      intros [l|]; apply sets_no_session_sendMessage. }
  destruct (Wallet.getWalletBalance _ _ _) as [[|b bs]|].
  1,3: left; apply sets_no_session_events;
       (apply sets_no_session_tryCatch; [|exact Hq]);
       (apply sets_no_session_bind; [apply sets_no_session_generateTopUpLink|]);
       intros l; apply sets_no_session_sendMessage.
  right. cbv zeta. unfold Wallet.getUser.
  destruct (walletUsers w !! uid) as [user|] eqn:Huser;
    cbn [mbind option_bind].
  2:{ eexists. split; [|split; [|split]].
      - rewrite tryCatch_set_keeps; [|apply keeps_sendMessage|exact Hh].
        apply lookup_insert_eq.
      - reflexivity.
      - reflexivity.
      - left. split; reflexivity. }
  destruct (Wallet.email user) as [mail|] eqn:Hmail.
  2:{ eexists. split; [|split; [|split]].
      - rewrite tryCatch_set_keeps; [|apply keeps_sendMessage|exact Hh].
        apply lookup_insert_eq.
      - reflexivity.
      - reflexivity.
      - left. split; reflexivity. }
  cbn [Js.truthy_opt].
  destruct (Js.truthy mail) eqn:Htruthy; cbn [email Js.truthy_opt].
  2:{ eexists. split; [|split; [|split]].
      - rewrite tryCatch_set_keeps; [|apply keeps_sendMessage|exact Hh].
        apply lookup_insert_eq.
      - reflexivity.
      - reflexivity.
      - left. split; reflexivity. }
  rewrite Htruthy.
  eexists. split; [|split; [|split]].
  - rewrite (tryCatch_bind_returns _ _ _ w _ tt) by reflexivity.
    rewrite tryCatch_set_keeps; [|apply keeps_sendMessage|exact Hh].
    apply lookup_insert_eq.
  - reflexivity.
  - reflexivity.
  - right. split; [reflexivity|].
    exists user, mail. repeat split; try assumption.
    intros ->. discriminate.
Qed.


(** *** The order of one session *)

Lemma logged_nil (w : World) : logged w [] = w.
Proof. destruct w. unfold logged. cbn. rewrite app_nil_r. reflexivity. Qed.

Lemma logged_logged (w : World) (evs1 evs2 : list Event) :
  logged (logged w evs1) evs2 = logged w (evs1 ++ evs2).
Proof. unfold logged. cbn. rewrite app_assoc. reflexivity. Qed.

Lemma emit_all_run (evs : list Event) :
  forall w, emit_all evs w = (Js.Return tt, logged w evs).
Proof.
  induction evs as [|ev evs IH]; intros w; cbn [emit_all].
  - rewrite logged_nil. reflexivity.
  - unfold bind, emit. rewrite IH, logged_logged. reflexivity.
Qed.

Lemma sends_so_far_logged (w : World) (evs : list Event) :
  sends_so_far (logged w evs)
  = (sends_so_far w
     + length (filter (fun ev => is_send ev = true) evs))%nat.
Proof.
  unfold sends_so_far, logged. cbn [trace].
  rewrite filter_app, length_app. reflexivity.
Qed.

Lemma no_send_in_posts (calls : list Checkout.CreateOrderRequest) :
  filter (fun ev => is_send ev = true) (map EvPostOrder calls) = [].
Proof.
  induction calls as [|c calls IH]; [reflexivity|].
  cbn [map]. rewrite filter_cons_False; [exact IH|]. cbn. discriminate.
Qed.

Lemma createWalletAmazonOrder_run (product : Checkout.AmazonProduct)
    (mail walletAddress : string) (address : Checkout.PhysicalAddress)
    (w : World) :
  let res :=
    Checkout.createWalletAmazonOrder (provider env) product mail
      walletAddress address in
  createWalletAmazonOrder env product mail walletAddress address w
  = (fst res, logged w (map EvPostOrder (snd res))).
Proof.
  cbv zeta. unfold createWalletAmazonOrder.
  destruct (Checkout.createWalletAmazonOrder _ _ _ _ _) as [r calls].
  unfold bind. rewrite emit_all_run. reflexivity.
Qed.

(** Up to the order: the first message is delivered, the order requests
    are posted, and the order or the error goes on to the order states
    or to the [catch]. *)
Lemma createHeadlessOrder_reaches (chatId uid : Z) (session : UserSession)
    (w : World) (product : Checkout.AmazonProduct) (mail : string)
    (address : Checkout.PhysicalAddress) (walletAddress : string) :
  ready session w uid product mail address walletAddress ->
  deliver env (sends_so_far w) = None ->
  let res :=
    Checkout.createWalletAmazonOrder (provider env) product mail
      walletAddress address in
  let w2 :=
    logged w (EvSend chatId CreatingOrder [] :: map EvPostOrder (snd res)) in
  createHeadlessOrder env chatId uid session w
  = match fst res with
    | Js.Return wo =>
        tryCatch
          (handleOrderStates env chatId uid session (Checkout.title product)
             walletAddress wo)
          (createHeadlessOrder_catch env chatId uid) w2
    | Js.Throw e => createHeadlessOrder_catch env chatId uid e w2
    end.
Proof.
  intros (Hprod & Hmail & Htruthy & Haddr & (user & Huser & Hwa) & Hwt) Hd.
  cbv zeta.
  unfold createHeadlessOrder, tryCatch, createHeadlessOrder_try.
  rewrite Hprod, Hmail, Haddr, Htruthy. cbn [negb].
  unfold bind at 1. unfold sendMessage at 1. rewrite Hd.
  unfold bind at 1. unfold getWalletUser, Wallet.getUser.
  cbn [walletUsers logged]. rewrite Huser. cbn [mbind option_bind].
  rewrite Hwa, Hwt. cbn [negb].
  unfold bind at 1. rewrite createWalletAmazonOrder_run. cbv zeta.
  rewrite logged_logged. cbn [app fst snd].
  destruct (fst (Checkout.createWalletAmazonOrder _ _ _ _ _));
    reflexivity.
Qed.

Lemma generateTopUpLink_run (uid : Z) (w : World) (user : Wallet.WalletUser)
    (walletAddress : string) :
  walletUsers w !! uid = Some user ->
  Wallet.walletAddress user = Some walletAddress ->
  Js.truthy walletAddress = true ->
  generateTopUpLink env uid 50 "USD" w
  = (Js.Return (topUpLinkFor env uid),
     logged w (topup_events (topUpLinkFor env uid))).
Proof.
  intros Huser Hwa Hwt.
  unfold generateTopUpLink, Wallet.generateTopUpLink, Wallet.getUser,
    topUpLinkFor.
  rewrite Huser, Hwa. cbn [Js.truthy_opt]. rewrite Hwt.
  destruct (Wallet.isValidWebAppUrl (config env)); cbn [negb topup_events].
  - reflexivity.
  - rewrite logged_nil. reflexivity.
Qed.

(** C6 (as the code has it). A validated response whose payment status
    is [crypto-payer-insufficient-funds] is classified as insufficient
    funds whatever its other fields are: [createWalletAmazonOrder]
    raises the insufficient-funds error, and [createHeadlessOrder]
    answers it with the insufficient-funds message, which asks the user
    to add USDC and try again, never with the generic order-creation
    failure.  The keyboard of that message holds the "Add Funds" top-up
    link, and a top-up session is recorded, exactly when the web
    application URL is usable; with an unusable URL the keyboard is the
    "Try Again" button alone and no top-up session is recorded. *)
Theorem insufficient_funds_offers_topup (chatId uid : Z)
    (session : UserSession) (w : World) (product : Checkout.AmazonProduct)
    (mail : string) (address : Checkout.PhysicalAddress)
    (walletAddress asin : string) (r : Checkout.OrderResponse) :
  ready session w uid product mail address walletAddress ->
  orderable product address asin ->
  fst (Checkout.createOrderWithRetry (provider env)
         (Checkout.orderRequestFor mail walletAddress address
            ("amazon:" ++ asin))
         (Checkout.getProductLocatorVariations asin
            (Checkout.amazonUrl product)))
  = Js.Return r ->
  insufficient_funds r ->
  deliver env (sends_so_far w) = None ->
  let res :=
    Checkout.createWalletAmazonOrder (provider env) product mail
      walletAddress address in
  let w' := snd (createHeadlessOrder env chatId uid session w) in
  let link := topUpLinkFor env uid in
  Checkout.classify r
  = Js.Throw (Js.JsError "Insufficient USDC funds in wallet")
  /\ fst res
     = Js.Throw (Js.JsError
         "Unexpected error during order creation: Error: Insufficient USDC funds in wallet")
  /\ (Wallet.isValidWebAppUrl (config env) = true ->
      exists l, link = Some l
                /\ Wallet.topUpUser l = uid
                /\ topup_events link = [EvTopUpSession l]
                /\ topup_keyboard link BtnTryAgain
                   = [[BtnAddFunds l]; [BtnTryAgain]])
  /\ (Wallet.isValidWebAppUrl (config env) = false ->
      link = None
      /\ topup_events link = []
      /\ topup_keyboard link BtnTryAgain = [[BtnTryAgain]])
  /\ (exists tail,
        events_since w w'
        = ((EvSend chatId CreatingOrder [] :: map EvPostOrder (snd res))
           ++ topup_events link
           ++ EvSend chatId InsufficientFunds
                (topup_keyboard link BtnTryAgain)
              :: tail)%list
        /\ (tail = [] \/ tail = [EvSessionDelete uid]))
  /\ (forall chat errorMessage keyboard,
        ~ In (EvSend chat (OrderCreationFailed errorMessage) keyboard)
             (events_since w w')).
Proof.
  intros Hready Hord Hloop Hfunds Hd. cbv zeta.
  pose proof (CheckoutSpec.classify_insufficient_funds r Hfunds) as Hclass.
  assert (Hres : fst (Checkout.createWalletAmazonOrder (provider env) product
                        mail walletAddress address)
                 = Js.Throw (Js.JsError
                     "Unexpected error during order creation: Error: Insufficient USDC funds in wallet")).
  { rewrite (CheckoutSpec.createWalletAmazonOrder_reaches _ _ _ _ _ _ Hord).
    cbv zeta. cbn [fst]. rewrite Hloop, Hclass. reflexivity. }
  split; [exact Hclass|]. split; [exact Hres|]. split.
  { intros Hurl. unfold topUpLinkFor. rewrite Hurl. eexists.
    repeat split. }
  split.
  { intros Hurl. unfold topUpLinkFor. rewrite Hurl. repeat split. }
  assert (Hevents :
            exists tail,
              events_since w (snd (createHeadlessOrder env chatId uid session w))
              = ((EvSend chatId CreatingOrder []
                  :: map EvPostOrder
                       (snd (Checkout.createWalletAmazonOrder (provider env)
                               product mail walletAddress address)))
                 ++ topup_events (topUpLinkFor env uid)
                 ++ EvSend chatId InsufficientFunds
                      (topup_keyboard (topUpLinkFor env uid) BtnTryAgain)
                    :: tail)%list
              /\ (tail = [] \/ tail = [EvSessionDelete uid])).
  { rewrite (createHeadlessOrder_reaches _ _ _ _ _ _ _ _ Hready Hd).
    cbv zeta. rewrite Hres.
    destruct Hready as (_ & _ & _ & _ & (user & Huser & Hwa) & Hwt).
    set (w2 := logged w _).
    unfold createHeadlessOrder_catch. cbn [Js.error_message].
    replace (Js.includes _ "Insufficient USDC funds") with true
      by (vm_compute; reflexivity).
    unfold bind at 1. unfold bind at 1.
    rewrite (generateTopUpLink_run uid w2 user walletAddress Huser Hwa Hwt).
    unfold sendMessage.
    match goal with
    | |- context [deliver env (sends_so_far (logged ?x ?y))] =>
        destruct (deliver env (sends_so_far (logged x y)))
    end.
    - exists []. split; [|left; reflexivity].
      cbn [snd]. apply events_since_app.
      unfold w2. rewrite !logged_logged. reflexivity.
    - exists [EvSessionDelete uid]. split; [|right; reflexivity].
      cbn [snd]. unfold sessionsDelete. cbn [snd].
      apply events_since_app. unfold w2.
      unfold logged, with_sessions. cbn [trace].
      rewrite <- !app_assoc. reflexivity. }
  split; [exact Hevents|].
  destruct Hevents as (tail & -> & Htail).
  intros chat errorMessage keyboard Hin.
  apply in_app_or in Hin as [Hin|Hin].
  - destruct Hin as [Hin|Hin]; [discriminate|].
    apply in_map_iff in Hin as (req & Heq & _). discriminate.
  - apply in_app_or in Hin as [Hin|Hin].
    + destruct (topUpLinkFor env uid); cbn [topup_events] in Hin.
      * destruct Hin as [Hin|[]]. discriminate.
      * destruct Hin.
    + destruct Hin as [Hin|Hin]; [discriminate|].
      destruct Htail as [->| ->].
      * destruct Hin.
      * destruct Hin as [Hin|[]]. discriminate.
Qed.

(** *** Signing *)

Lemma sendMessage_delivered (chatId : Z) (p : Prompt)
    (keyboard : list (list Button)) (w : World) :
  deliver env (sends_so_far w) = None ->
  sendMessage env chatId p keyboard w
  = (Js.Return tt, logged w [EvSend chatId p keyboard]).
Proof. intros Hd. unfold sendMessage. rewrite Hd. reflexivity. Qed.

(** Whether or not it is delivered, a message is on the trace before
    anything that follows it. *)
Lemma tryCatch_send_then {A} (uid chatId : Z) (p : Prompt)
    (keyboard : list (list Button)) (k : unit -> M A)
    (handler : Js.Error -> M A) (w : World) :
  preserves uid (k tt) ->
  (forall e, preserves uid (handler e)) ->
  evolves uid (logged w [EvSend chatId p keyboard])
    (snd (tryCatch (bind (sendMessage env chatId p keyboard) k) handler w)).
Proof.
  intros Hk Hh. unfold tryCatch, bind, sendMessage.
  destruct (deliver env (sends_so_far w)) as [m|].
  - apply Hh.
  - specialize (Hk (logged w [EvSend chatId p keyboard])).
    destruct (k tt (logged w [EvSend chatId p keyboard])) as [[a|e] w1];
      cbn [snd] in *.
    + exact Hk.
    + eapply evolves_trans; [exact Hk|apply Hh].
Qed.

Lemma createWalletAmazonOrder_returns (post : Checkout.Provider)
    (product : Checkout.AmazonProduct) (mail walletAddress : string)
    (address : Checkout.PhysicalAddress) (wo : Checkout.WalletOrder) :
  fst (Checkout.createWalletAmazonOrder post product mail walletAddress
         address) = Js.Return wo ->
  exists r, Checkout.classify r = Js.Return wo.
Proof.
  unfold Checkout.createWalletAmazonOrder,
    Checkout.createWalletAmazonOrder_try.
  destruct (Checkout.extractProductLocator _); [|discriminate].
  destruct (Checkout.asinMatch _) as [asin|]; [|discriminate].
  destruct (negb (Js.truthy asin)); [discriminate|].
  destruct (negb (String.eqb _ _)); [discriminate|].
  destruct (negb (Js.truthy_opt _)); [discriminate|].
  destruct (Checkout.createOrderWithRetry _ _ _) as [[r|e] calls];
    cbn [fst]; [|discriminate].
  destruct (Checkout.classify r) as [wo'|e] eqn:Hc; cbn [fst];
    [|discriminate].
  intros Heq. injection Heq as <-. exists r. exact Hc.
Qed.

Lemma classify_returns_states (r : Checkout.OrderResponse)
    (wo : Checkout.WalletOrder) :
  Checkout.classify r = Js.Return wo ->
  String.eqb (orderStatus (Checkout.order r))
    "crypto-payer-insufficient-funds" = false
  /\ String.eqb (Checkout.quoteStatus (Checkout.quote (Checkout.order r)))
       "requires-physical-address" = false.
Proof.
  unfold Checkout.classify, orderStatus.
  destruct (String.eqb (Checkout.paymentStatus _) _) eqn:Hfunds;
    [discriminate|].
  destruct (String.eqb (Checkout.quoteStatus _) _) eqn:Haddr;
    [discriminate|].
  intros _. split; [|reflexivity].
  unfold Js.or_else. destruct (Js.truthy _); [exact Hfunds|reflexivity].
Qed.


End WithEnv.

Lemma ready_sample :
  ready Sample.ready_session
    (Sample.world_of Sample.users7 {[ 7 := Sample.ready_session ]}) 7
    Sample.kettle "jd@example.com" Sample.austin "0xabc".
Proof.
  repeat split; try reflexivity.
  exists (Sample.wallet_user 7 None). split; reflexivity.
Qed.



Lemma insufficient_funds_offers_topup_witness :
  let env := Sample.shop Sample.provider_insufficient_funds in
  let w := Sample.world_of Sample.users7 {[ 7 := Sample.ready_session ]} in
  let w' :=
    snd (createHeadlessOrder (cm := Js.BasicLatin) env 1 7
           Sample.ready_session w) in
  exists l tail,
    topUpLinkFor env 7 = Some l
    /\ events_since w w'
       = ([EvSend 1 CreatingOrder [];
           EvPostOrder (Sample.kettle_request "amazon:B000X12345");
           EvTopUpSession l;
           EvSend 1 InsufficientFunds [[BtnAddFunds l]; [BtnTryAgain]]]
          ++ tail)%list.
Proof.
  cbv zeta.
  destruct (insufficient_funds_offers_topup (cm := Js.BasicLatin)
              (Sample.shop Sample.provider_insufficient_funds) 1 7
              Sample.ready_session
              (Sample.world_of Sample.users7 {[ 7 := Sample.ready_session ]})
              Sample.kettle "jd@example.com" Sample.austin "0xabc"
              "B000X12345"
              (Sample.order_response "order-1"
                 "crypto-payer-insufficient-funds" (Some "0xdeadbeef"))
              ready_sample
              (conj eq_refl (conj eq_refl eq_refl))
              eq_refl eq_refl eq_refl)
    as (_ & _ & Hlink & _ & (tail & Hev & _) & _).
  destruct (Hlink eq_refl) as (l & Hl & _ & _ & Hkb).
  exists l, tail. split; [exact Hl|].
  rewrite Hev, Hl. reflexivity.
Defined.

(** C6, as stated, fails. The web application URL is the placeholder
    that config.ts falls back to, so [generateTopUpLink] gives no link:
    the order of user 7 meets insufficient funds, and the message the
    user receives carries the "Try Again" button only; no top-up link
    is offered and no top-up session is recorded. *)
Lemma insufficient_funds_without_topup :
  let env := Sample.shop_unconfigured Sample.provider_insufficient_funds in
  let w := Sample.world_of Sample.users7 {[ 7 := Sample.ready_session ]} in
  let w' :=
    snd (createHeadlessOrder (cm := Js.BasicLatin) env 1 7
           Sample.ready_session w) in
  Wallet.webAppUrl (config env) = "https://your-app.vercel.app"
  /\ Wallet.generateTopUpLink (config env) (clock env) (walletUsers w) 7 50
       "USD"
     = Js.Return None
  /\ events_since w w'
     = [EvSend 1 CreatingOrder [];
        EvPostOrder (Sample.kettle_request "amazon:B000X12345");
        EvSend 1 InsufficientFunds [[BtnTryAgain]];
        EvSessionDelete 7].
Proof. vm_compute. repeat split. Qed.

Lemma handleCheckoutMessage_other_steps_witness :
  let w := Sample.world_of Sample.users7 {[ 7 := Sample.ready_session ]} in
  handleCheckoutMessage (cm := Js.BasicLatin)
    (Sample.shop Sample.provider_with_transaction)
    (text_message 7 1 "is my order on its way?") w
  = (Js.Return false, w).
Proof.
  cbv zeta.
  apply (handleCheckoutMessage_other_steps (cm := Js.BasicLatin)
           (Sample.shop Sample.provider_with_transaction)
           (text_message 7 1 "is my order on its way?")
           (Sample.world_of Sample.users7 {[ 7 := Sample.ready_session ]})
           7 Sample.ready_session).
  - reflexivity.
  - reflexivity.
  - right. left. reflexivity.
Defined.



End CheckoutHandlerSpec.

(** * Further properties of the code *)

(** ** Strings *)

Module StringFacts.

Lemma string_app_assoc (a b c : string) : (a ++ b) ++ c = a ++ (b ++ c).
Proof.
  induction a as [|x a IH]; [reflexivity|].
  change (String x ((a ++ b) ++ c) = String x (a ++ b ++ c)).
  rewrite IH. reflexivity.
Qed.

Lemma string_length_app (a b : string) :
  String.length (a ++ b) = (String.length a + String.length b)%nat.
Proof.
  induction a as [|x a IH]; [reflexivity|].
  change (S (String.length (a ++ b)) = S (String.length a + String.length b)).
  rewrite IH. reflexivity.
Qed.

End StringFacts.

(** ** The search result cache, store and clean-up *)

Module SearchCacheSpec.
Import SearchHandler.

(** X1. What [cacheSearchResults] stores for a user is what the user
    reads back: as long as no more than [CACHE_DURATION] has passed
    since the store, [getCachedSearchResults] returns the stored
    products and query, [getCachedProduct] the product at every
    position of the stored list, and neither read changes the cache. *)
Theorem cacheSearchResults_read_back (t_store t_clean now userId : Z)
    (ps : list SearchProduct) (q : string) (searchCache : gmap Z CacheEntry) :
  t_clean <= now ->
  now - t_store <= CACHE_DURATION ->
  let stored := cacheSearchResults t_store t_clean userId ps q searchCache in
  getCachedSearchResults now userId stored = (Some (ps, q), stored)
  /\ forall index product,
       ps !! index = Some product ->
       getCachedProduct now userId (Z.of_nat index) stored
       = (Some product, stored).
Proof.
  intros Horder Hlive stored.
  assert (Hget : stored !! userId
                 = Some {| products := ps; timestamp := t_store; query := q |})
    by (apply SearchHandlerSpec.cacheSearchResults_lookup; lia).
  assert (Hread : getCachedSearchResults now userId stored
                  = (Some (ps, q), stored)).
  { rewrite (SearchHandlerSpec.getCachedSearchResults_live _ _ _ _ Hget);
      [reflexivity|].
    apply SearchHandlerSpec.isExpired_false. cbn. lia. }
  split; [exact Hread|].
  intros index product Hp. unfold getCachedProduct. rewrite Hread.
  pose proof (lookup_lt_Some _ _ _ Hp) as Hlt.
  assert (Hneg : (Z.of_nat index <? 0) = false) by (apply Z.ltb_ge; lia).
  assert (Hge : (Z.of_nat index >=? Z.of_nat (length ps)) = false)
    by (rewrite Z.geb_leb; apply Z.leb_gt; lia).
  rewrite Hneg, Hge. cbn. rewrite Nat2Z.id, Hp. reflexivity.
Qed.

(** X2. The clean-up of [cacheSearchResults] runs over every user:
    after a store no entry of the cache is older than [CACHE_DURATION]
    at the time of the clean-up; another user's entry is dropped when
    it has expired and is left as it was otherwise. *)
Theorem cacheSearchResults_evicts (t_store t_clean userId : Z)
    (ps : list SearchProduct) (q : string) (searchCache : gmap Z CacheEntry) :
  let stored := cacheSearchResults t_store t_clean userId ps q searchCache in
  (forall u cache,
     stored !! u = Some cache -> t_clean - timestamp cache <= CACHE_DURATION)
  /\ (forall u,
        u <> userId ->
        stored !! u
        = match searchCache !! u with
          | Some cache => if isExpired t_clean cache then None else Some cache
          | None => None
          end).
Proof.
  cbv zeta. unfold cacheSearchResults. split.
  - intros u cache Hget. apply map_lookup_filter_Some in Hget as [_ Hlive].
    apply SearchHandlerSpec.isExpired_false. exact Hlive.
  - intros u Hne. rewrite map_lookup_filter, lookup_insert_ne by congruence.
    destruct (searchCache !! u) as [cache|]; cbn; [|reflexivity].
    destruct (isExpired t_clean cache) eqn:Hexp.
    + rewrite option_guard_False; [reflexivity|]. cbn. discriminate.
    + rewrite option_guard_True; reflexivity.
Qed.

Lemma cacheSearchResults_read_back_witness :
  getCachedSearchResults 1000 42 Sample.cache42
  = (Some (products Sample.headphones, "headphones"), Sample.cache42)
  /\ forall index product,
       products Sample.headphones !! index = Some product ->
       getCachedProduct 1000 42 (Z.of_nat index) Sample.cache42
       = (Some product, Sample.cache42).
Proof.
  apply (cacheSearchResults_read_back 0 0 1000 42
           (products Sample.headphones) "headphones" ∅).
  - lia.
  - unfold CACHE_DURATION. lia.
Defined.

End SearchCacheSpec.

(** ** Patterns *)

Module RegexSpec.
Import Matching.

Lemma nullable_matches (r : Js.Regex) :
  Js.nullable r = true -> matches r EmptyString.
Proof.
  induction r as [| |p|r1 IH1 r2 IH2|r1 IH1 r2 IH2|r IH]; cbn; intros H.
  - discriminate.
  - constructor.
  - discriminate.
  - apply andb_true_iff in H as [H1 H2].
    change EmptyString with (EmptyString ++ EmptyString).
    constructor; auto.
  - apply orb_true_iff in H as [H|H].
    + apply matches_alt_l; auto.
    + apply matches_alt_r; auto.
  - constructor.
Qed.

Lemma deriv_matches (c : ascii) (r : Js.Regex) :
  forall s, matches (Js.deriv c r) s -> matches r (String c s).
Proof.
  induction r as [| |p|r1 IH1 r2 IH2|r1 IH1 r2 IH2|r IH]; cbn; intros s H.
  - inversion H.
  - inversion H.
  - destruct (p c) eqn:Hp; inversion H; subst. constructor. exact Hp.
  - destruct (Js.nullable r1) eqn:Hn.
    + inversion H as [| | |? ? ? H1|? ? ? H2| |]; subst.
      * inversion H1 as [| |? ? s1 s2 Ha Hb| | | |]; subst.
        change (String c (s1 ++ s2)) with (String c s1 ++ s2).
        constructor; auto.
      * change (String c s) with (EmptyString ++ String c s).
        constructor; [apply nullable_matches; exact Hn|auto].
    + inversion H as [| |? ? s1 s2 Ha Hb| | | |]; subst.
      change (String c (s1 ++ s2)) with (String c s1 ++ s2).
      constructor; auto.
  - inversion H; subst.
    + apply matches_alt_l; auto.
    + apply matches_alt_r; auto.
  - inversion H as [| |? ? s1 s2 Ha Hb| | | |]; subst.
    change (String c (s1 ++ s2)) with (String c s1 ++ s2).
    constructor; auto.
Qed.

Lemma test_matches (s : string) :
  forall r, Js.test r s = true -> matches r s.
Proof.
  induction s as [|c s IH]; cbn; intros r H.
  - apply nullable_matches. exact H.
  - apply deriv_matches. apply IH. exact H.
Qed.

(** A match of an unanchored pattern sits between a prefix and a rest. *)
Lemma search_matches (r : Js.Regex) (s : string) :
  Js.search r s = true ->
  exists pre mid post, s = pre ++ mid ++ post /\ matches r mid.
Proof.
  intros H. apply test_matches in H.
  inversion H as [| |? ? pre rest _ Hrest| | | |]; subst.
  inversion Hrest as [| |? ? mid post Hmid _| | | |]; subst.
  exists pre, mid, post. split; [reflexivity|exact Hmid].
Qed.

Lemma append_empty (a b : string) :
  a ++ b = EmptyString -> a = EmptyString /\ b = EmptyString.
Proof.
  destruct a; [|discriminate].
  change ("" ++ b) with b. intros ->. split; reflexivity.
Qed.

Lemma matches_nullable (r : Js.Regex) (s : string) :
  matches r s -> s = EmptyString -> Js.nullable r = true.
Proof.
  induction 1 as [|p c Hp|r1 r2 s1 s2 _ IH1 _ IH2|r1 r2 s _ IH|r1 r2 s _ IH
                 |r|r s1 s2 _ _ _ _]; intros Hs; cbn [Js.nullable].
  - reflexivity.
  - discriminate.
  - apply append_empty in Hs as [H1 H2]. rewrite IH1, IH2 by assumption.
    reflexivity.
  - rewrite IH by assumption. reflexivity.
  - rewrite IH by assumption. apply orb_true_r.
  - reflexivity.
  - reflexivity.
Qed.

Lemma matches_deriv (r : Js.Regex) (s0 : string) :
  matches r s0 ->
  forall c s, s0 = String c s -> matches (Js.deriv c r) s.
Proof.
  induction 1 as [|p c' Hp|r1 r2 s1 s2 H1 IH1 H2 IH2|r1 r2 s0 _ IH
                 |r1 r2 s0 _ IH|r|r s1 s2 H1 IH1 H2 IH2];
    intros c s Hs; cbn [Js.deriv].
  - discriminate.
  - injection Hs as -> <-. rewrite Hp. constructor.
  - destruct s1 as [|c1 s1'].
    + change ("" ++ s2) with s2 in Hs.
      rewrite (matches_nullable _ _ H1 eq_refl).
      apply matches_alt_r. apply IH2. exact Hs.
    + change (String c1 s1' ++ s2) with (String c1 (s1' ++ s2)) in Hs.
      injection Hs as -> <-.
      assert (Hseq : matches (Js.Seq (Js.deriv c r1) r2) (s1' ++ s2))
        by (constructor; [apply IH1; reflexivity|exact H2]).
      destruct (Js.nullable r1); [apply matches_alt_l|]; exact Hseq.
  - apply matches_alt_l. apply IH. exact Hs.
  - apply matches_alt_r. apply IH. exact Hs.
  - discriminate.
  - destruct s1 as [|c1 s1'].
    + change ("" ++ s2) with s2 in Hs. apply (IH2 c s Hs).
    + change (String c1 s1' ++ s2) with (String c1 (s1' ++ s2)) in Hs.
      injection Hs as -> <-.
      constructor; [apply IH1; reflexivity|exact H2].
Qed.

Lemma matches_test (s : string) :
  forall r, matches r s -> Js.test r s = true.
Proof.
  induction s as [|c s IH]; intros r H; cbn [Js.test].
  - exact (matches_nullable _ _ H eq_refl).
  - apply IH. exact (matches_deriv _ _ H c s eq_refl).
Qed.

(** [regex.test(s)] for an anchored pattern holds exactly of the
    strings the pattern matches. *)
Lemma test_iff (r : Js.Regex) (s : string) :
  Js.test r s = true <-> matches r s.
Proof. split; [apply test_matches|apply matches_test]. Qed.

Lemma star_cls (p : ascii -> bool) (s : string) :
  matches (Js.Star (Js.Cls p)) s <-> all_chars p s = true.
Proof.
  split.
  - remember (Js.Star (Js.Cls p)) as r eqn:Hr. intros H.
    induction H as [| | | | |r'|r' s1 s2 H1 _ H2 IH2]; try discriminate.
    + reflexivity.
    + injection Hr as ->. inversion H1 as [|? c Hc| | | | |]; subst.
      change (String c "" ++ s2) with (String c s2). cbn [all_chars].
      rewrite Hc. apply IH2. reflexivity.
  - induction s as [|c s IH]; cbn [all_chars]; intros H.
    + constructor.
    + apply andb_true_iff in H as [Hc Hs].
      change (String c s) with (String c "" ++ s).
      constructor; [constructor; exact Hc|apply IH; exact Hs].
Qed.

Lemma plus_cls (p : ascii -> bool) (s : string) :
  matches (Js.Plus (Js.Cls p)) s <->
  s <> EmptyString /\ all_chars p s = true.
Proof.
  unfold Js.Plus. split.
  - intros H. inversion H as [| |? ? s1 s2 H1 H2| | | |]; subst.
    inversion H1 as [|? c Hc| | | | |]; subst.
    change (String c "" ++ s2) with (String c s2).
    split; [discriminate|]. cbn [all_chars]. rewrite Hc.
    apply star_cls. exact H2.
  - intros [Hne H]. destruct s as [|c s]; [contradiction|].
    cbn [all_chars] in H. apply andb_true_iff in H as [Hc Hs].
    change (String c s) with (String c "" ++ s).
    constructor; [constructor; exact Hc|apply star_cls; exact Hs].
Qed.

Lemma chr_matches (c : ascii) (s : string) :
  matches (Js.Chr c) s <-> s = String c EmptyString.
Proof.
  unfold Js.Chr. split.
  - intros H. inversion H as [|? c' Hc| | | | |]; subst.
    apply Ascii.eqb_eq in Hc. subst. reflexivity.
  - intros ->. constructor. apply Ascii.eqb_refl.
Qed.

End RegexSpec.

(** ** Product locators *)

Module LocatorSpec.
Import Checkout Matching.

Lemma literal_ci_strip (p : string) :
  forall l rest,
    matches (Js.literal_ci p) l -> strip_prefix_ci p (l ++ rest) = Some rest.
Proof.
  induction p as [|a p IH]; intros l rest H; cbn [Js.literal_ci] in H.
  - inversion H; subst. reflexivity.
  - inversion H as [| |? ? s1 s2 Ha Hb| | | |]; subst.
    inversion Ha as [|? c Hc| | | | |]; subst.
    change ((String c "" ++ s2) ++ rest) with (String c (s2 ++ rest)).
    cbn [strip_prefix_ci].
    unfold Js.same_letter in Hc. rewrite Hc. apply IH. exact Hb.
Qed.

Lemma repeat_alnum_take (n : nat) :
  forall a rest,
    matches (Js.repeat_n n (Js.Cls is_alnum)) a ->
    take_alnum n (a ++ rest) = Some a.
Proof.
  induction n as [|n IH]; intros a rest H; cbn [Js.repeat_n] in H.
  - inversion H; subst. reflexivity.
  - inversion H as [| |? ? s1 s2 Ha Hb| | | |]; subst.
    inversion Ha as [|? c Hc| | | | |]; subst.
    change ((String c "" ++ s2) ++ rest) with (String c (s2 ++ rest)).
    cbn [take_alnum].
    rewrite Hc, (IH _ _ Hb). reflexivity.
Qed.

(** What [take_alnum] gives: the next [n] characters, all of the class. *)
Lemma take_alnum_spec (n : nat) :
  forall s a,
    take_alnum n s = Some a ->
    String.length a = n /\ all_chars is_alnum a = true
    /\ exists rest, s = a ++ rest.
Proof.
  induction n as [|n IH]; cbn; intros s a H.
  - injection H as <-. repeat split. exists s. reflexivity.
  - destruct s as [|c s]; [discriminate|].
    destruct (is_alnum c) eqn:Hc; [|discriminate].
    destruct (take_alnum n s) as [a'|] eqn:Ht; [|discriminate].
    injection H as <-. destruct (IH _ _ Ht) as (Hlen & Hall & rest & ->).
    cbn. rewrite Hlen, Hc, Hall. repeat split. exists rest. reflexivity.
Qed.

Lemma first_alternative_spec (alts : list string) (s a : string) :
  first_alternative alts s = Some a ->
  exists p rest,
    In p alts /\ strip_prefix_ci p s = Some rest
    /\ take_alnum 10 rest = Some a.
Proof.
  induction alts as [|p alts IH]; cbn [first_alternative]; [discriminate|].
  destruct (strip_prefix_ci p s) as [rest|] eqn:Hs.
  - destruct (take_alnum 10 rest) as [a'|] eqn:Ht.
    + intros Heq. injection Heq as <-. exists p, rest.
      repeat split; [left; reflexivity|exact Hs|exact Ht].
    + intros H. destruct (IH H) as (p' & rest' & Hin & H1 & H2).
      exists p', rest'. repeat split; [right; exact Hin|exact H1|exact H2].
  - intros H. destruct (IH H) as (p' & rest' & Hin & H1 & H2).
    exists p', rest'. repeat split; [right; exact Hin|exact H1|exact H2].
Qed.

(** The group is found at some position of the input. *)
Lemma match_group_spec (alts : list string) (s a : string) :
  match_group alts s = Some a ->
  exists pre t, s = pre ++ t /\ first_alternative alts t = Some a.
Proof.
  induction s as [|c s IH]; cbn [match_group].
  - destruct (first_alternative alts "") as [a'|] eqn:Hf; [|discriminate].
    intros Heq. injection Heq as <-. exists EmptyString, EmptyString.
    split; [reflexivity|exact Hf].
  - destruct (first_alternative alts (String c s)) as [a'|] eqn:Hf.
    + intros Heq. injection Heq as <-. exists EmptyString, (String c s).
      split; [reflexivity|exact Hf].
    + intros H. destruct (IH H) as (pre & t & -> & Ht).
      exists (String c pre), t. split; [reflexivity|exact Ht].
Qed.

(** An alternative that matches somewhere makes the search succeed. *)
Lemma match_group_finds (alts : list string) (t a : string) :
  first_alternative alts t = Some a ->
  forall pre, exists a', match_group alts (pre ++ t) = Some a'.
Proof.
  intros Hf pre. induction pre as [|c pre IH].
  - change ("" ++ t) with t.
    exists a. destruct t; cbn [match_group]; rewrite Hf; reflexivity.
  - change (String c pre ++ t) with (String c (pre ++ t)).
    cbn [match_group].
    destruct (first_alternative alts (String c (pre ++ t))) as [a'|].
    + exists a'. reflexivity.
    + exact IH.
Qed.

(** Past the first characters of a literal the rest of it still
    strips. *)
Lemma strip_prefix_ci_app (p1 p2 : string) :
  forall s rest,
    strip_prefix_ci (p1 ++ p2) s = Some rest ->
    exists s1 s2, s = s1 ++ s2 /\ strip_prefix_ci p2 s2 = Some rest.
Proof.
  induction p1 as [|a p1 IH]; intros s rest H.
  - exists EmptyString, s. split; [reflexivity|exact H].
  - change (String a p1 ++ p2) with (String a (p1 ++ p2)) in H.
    destruct s as [|b s]; [discriminate|].
    cbn [strip_prefix_ci] in H.
    destruct (Ascii.eqb (Js.upper_ascii a) (Js.upper_ascii b));
      [|discriminate].
    destruct (IH _ _ H) as (s1 & s2 & -> & H2).
    exists (String b s1), s2. split; [reflexivity|exact H2].
Qed.

Lemma urlMatch_asinMatch (amazonUrl a : string) :
  urlMatch amazonUrl = Some a -> exists a', asinMatch amazonUrl = Some a'.
Proof.
  unfold urlMatch, asinMatch. intros H.
  apply match_group_spec in H as (pre & t & -> & Hf).
  apply first_alternative_spec in Hf as (p & rest & Hin & Hs & Ht).
  destruct Hin as [<-|[]].
  apply (strip_prefix_ci_app "amazon.com" "/dp/") in Hs
    as (s1 & s2 & -> & Hs2).
  rewrite <- StringFacts.string_app_assoc. apply (match_group_finds _ _ a).
  cbn [first_alternative]. rewrite Hs2, Ht. reflexivity.
Qed.

Lemma strip_prefix_ci_spec (p : string) :
  forall s rest,
    strip_prefix_ci p s = Some rest ->
    exists marker,
      s = marker ++ rest
      /\ Js.map_string Js.upper_ascii marker = Js.map_string Js.upper_ascii p.
Proof.
  induction p as [|a p IH]; intros s rest H.
  - injection H as <-. exists EmptyString. split; reflexivity.
  - destruct s as [|b s]; [discriminate|]. cbn [strip_prefix_ci] in H.
    destruct (Ascii.eqb_spec (Js.upper_ascii a) (Js.upper_ascii b)) as [Heq|];
      [|discriminate].
    destruct (IH _ _ H) as (marker & -> & Hm).
    exists (String b marker). split; [reflexivity|].
    cbn [Js.map_string]. rewrite Hm, Heq. reflexivity.
Qed.

(** X3. [extractProductLocator] is its first method alone: the second
    pattern matches only where the first one does, so the result is
    [amazon:] followed by the group of the ASIN pattern.  Every locator
    it returns is [amazon:] and ten characters of [A-Z], [a-z], [0-9]
    that stand in the URL right after [/dp/] or [/gp/product/], written
    in any letter case. *)
Theorem extractProductLocator_asin (amazonUrl : string) :
  extractProductLocator amazonUrl
  = option_map (String.append "amazon:") (asinMatch amazonUrl)
  /\ forall locator,
       extractProductLocator amazonUrl = Some locator ->
       exists pre marker asin rest,
         locator = "amazon:" ++ asin
         /\ String.length asin = 10%nat
         /\ all_chars is_alnum asin = true
         /\ amazonUrl = pre ++ marker ++ asin ++ rest
         /\ (Js.map_string Js.upper_ascii marker = "/DP/"
             \/ Js.map_string Js.upper_ascii marker = "/GP/PRODUCT/").
Proof.
  assert (Heq : extractProductLocator amazonUrl
                = option_map (String.append "amazon:") (asinMatch amazonUrl)).
  { unfold extractProductLocator.
    destruct (asinMatch amazonUrl) as [asin|] eqn:Hasin; [reflexivity|].
    destruct (urlMatch amazonUrl) as [a|] eqn:Hurl; [|reflexivity].
    destruct (urlMatch_asinMatch _ _ Hurl) as [a' Ha']. congruence. }
  split; [exact Heq|].
  intros locator Hloc. rewrite Heq in Hloc.
  destruct (asinMatch amazonUrl) as [asin|] eqn:Hasin; [|discriminate].
  injection Hloc as <-. unfold asinMatch in Hasin.
  apply match_group_spec in Hasin as (pre & t & -> & Hf).
  apply first_alternative_spec in Hf as (p & rest & Hin & Hs & Ht).
  apply strip_prefix_ci_spec in Hs as (marker & -> & Hm).
  apply take_alnum_spec in Ht as (Hlen & Hall & rest' & ->).
  exists pre, marker, asin, rest'.
  repeat split; [exact Hlen|exact Hall|].
  destruct Hin as [<-|[<-|[]]]; [left|right]; exact Hm.
Qed.

(** X4. A URL that [validateAmazonUrl] accepts is one
    [extractProductLocator] finds a locator in. *)
Theorem validateAmazonUrl_extractable (url : string) :
  validateAmazonUrl url = true ->
  exists asin,
    asinMatch url = Some asin
    /\ extractProductLocator url = Some ("amazon:" ++ asin).
Proof.
  unfold validateAmazonUrl. intros H.
  apply RegexSpec.search_matches in H as (pre & mid & post & -> & Hmid).
  unfold amazonUrlPattern in Hmid.
  inversion Hmid as [| |? ? l1 m1 _ H1| | | |]; subst.
  inversion H1 as [| |? ? d m2 _ H2| | | |]; subst.
  inversion H2 as [| |? ? l2 a Hl2 Ha| | | |]; subst.
  assert (Hf : first_alternative ["/dp/"; "/gp/product/"]
                 (l2 ++ a ++ post) = Some a).
  { cbn [first_alternative].
    rewrite (literal_ci_strip "/dp/" _ _ Hl2).
    rewrite (repeat_alnum_take 10 _ _ Ha). reflexivity. }
  destruct (match_group_finds _ _ _ Hf (pre ++ l1 ++ d)) as [asin Hasin].
  exists asin.
  assert (Heq : pre ++ (l1 ++ d ++ l2 ++ a) ++ post
                = (pre ++ l1 ++ d) ++ l2 ++ a ++ post)
    by (rewrite !StringFacts.string_app_assoc; reflexivity).
  unfold extractProductLocator, asinMatch. rewrite Heq, Hasin.
  split; reflexivity.
Qed.


(** The converse fails: the short form of a product URL holds a locator
    but has no path segment between the host and [/dp/]. *)
Example validateAmazonUrl_refuses_short_form :
  validateAmazonUrl (amazonUrl Sample.kettle) = false
  /\ extractProductLocator (amazonUrl Sample.kettle)
     = Some "amazon:B000X12345".
Proof. split; reflexivity. Qed.

Lemma extractProductLocator_asin_witness :
  exists pre marker asin rest,
    "amazon:B000X12345" = "amazon:" ++ asin
    /\ String.length asin = 10%nat
    /\ all_chars is_alnum asin = true
    /\ amazonUrl Sample.kettle = pre ++ marker ++ asin ++ rest
    /\ (Js.map_string Js.upper_ascii marker = "/DP/"
        \/ Js.map_string Js.upper_ascii marker = "/GP/PRODUCT/").
Proof.
  apply (proj2 (extractProductLocator_asin (amazonUrl Sample.kettle))).
  reflexivity.
Defined.

Lemma validateAmazonUrl_extractable_witness :
  exists asin,
    asinMatch Sample.listing_url = Some asin
    /\ extractProductLocator Sample.listing_url = Some ("amazon:" ++ asin).
Proof.
  apply (validateAmazonUrl_extractable Sample.listing_url). reflexivity.
Defined.

End LocatorSpec.

(** ** The order requests of the checkout service *)

Module OrderRequestSpec.
Import Checkout Reading.

(** The requests the service posts, whatever the outcome. *)
Lemma createWalletAmazonOrder_calls (post : Provider)
    (product : AmazonProduct) (userEmail walletAddress : string)
    (shippingAddress : PhysicalAddress) :
  let calls :=
    snd (createWalletAmazonOrder post product userEmail walletAddress
           shippingAddress) in
  calls = []
  \/ exists asin locator n,
       orderable product shippingAddress asin
       /\ calls
          = map (with_locator
                   (orderRequestFor userEmail walletAddress shippingAddress
                      locator))
              (firstn n (getProductLocatorVariations asin (amazonUrl product))).
Proof.
  cbv zeta. unfold createWalletAmazonOrder, createWalletAmazonOrder_try.
  destruct (extractProductLocator _) as [locator|]; [|left; reflexivity].
  destruct (asinMatch _) as [asin|] eqn:Hasin; [|left; reflexivity].
  destruct (negb (Js.truthy asin)); [left; reflexivity|].
  destruct (String.eqb_spec (country shippingAddress) "US") as [Hus|];
    cbn [negb]; [|left; reflexivity].
  destruct (Js.truthy_opt (state shippingAddress)) eqn:Hstate;
    cbn [negb]; [|left; reflexivity].
  right. exists asin, locator.
  pose proof (CheckoutSpec.retry_loop_calls_prefix post
    (orderRequestFor userEmail walletAddress shippingAddress locator)
    (getProductLocatorVariations asin (amazonUrl product)) 0 Js.ThrownNull)
    as Hprefix.
  cbv zeta in Hprefix. unfold createOrderWithRetry.
  destruct (retry_loop _ _ _ _ _) as [[r|e] calls]; cbn [fst snd] in *.
  - exists (length calls). split; [repeat split; assumption|].
    destruct (classify r); exact Hprefix.
  - exists (length calls). split; [repeat split; assumption|]. exact Hprefix.
Qed.

(** X5. Whatever the provider answers, every order request
    [createWalletAmazonOrder] posts ships to the given address, which
    is in the US and names a state, is paid in USDC on [base-sepolia]
    from the given wallet with the receipt sent to the given email, and
    holds one line item whose locator is one of the five variations of
    the ASIN found in the product URL. *)
Theorem createWalletAmazonOrder_requests (post : Provider)
    (product : AmazonProduct) (userEmail walletAddress : string)
    (shippingAddress : PhysicalAddress) (request : CreateOrderRequest) :
  In request
    (snd (createWalletAmazonOrder post product userEmail walletAddress
            shippingAddress)) ->
  recipient request
  = {| recipientEmail := userEmail; physicalAddress := shippingAddress |}
  /\ payment request
     = {| method := "base-sepolia";
          currency := "usdc";
          payerAddress := walletAddress;
          receiptEmail := Some userEmail |}
  /\ country shippingAddress = "US"
  /\ Js.truthy_opt (state shippingAddress) = true
  /\ exists asin locator,
       asinMatch (amazonUrl product) = Some asin
       /\ In locator (getProductLocatorVariations asin (amazonUrl product))
       /\ lineItems request = [ {| productLocator := locator |} ].
Proof.
  intros Hin.
  destruct (createWalletAmazonOrder_calls post product userEmail walletAddress
              shippingAddress)
    as [Hnil|(asin & locator & n & (Hasin & Hus & Hstate) & Hcalls)].
  - rewrite Hnil in Hin. destruct Hin.
  - rewrite Hcalls in Hin. apply in_map_iff in Hin as (l & <- & Hl).
    repeat split; try assumption.
    exists asin, l. repeat split; [exact Hasin|].
    apply list_elem_of_In. apply list_elem_of_In in Hl.
    apply elem_of_take in Hl as (i & Hi & _).
    eapply list_elem_of_lookup_2; exact Hi.
Qed.

Lemma createWalletAmazonOrder_requests_witness :
  let request := Sample.kettle_request "amazon:B000X12345" in
  recipient request
  = {| recipientEmail := "jd@example.com";
       physicalAddress := Sample.austin |}
  /\ payment request
     = {| method := "base-sepolia";
          currency := "usdc";
          payerAddress := "0xabc";
          receiptEmail := Some "jd@example.com" |}
  /\ country Sample.austin = "US"
  /\ Js.truthy_opt (state Sample.austin) = true
  /\ exists asin locator,
       asinMatch (amazonUrl Sample.kettle) = Some asin
       /\ In locator (getProductLocatorVariations asin
                        (amazonUrl Sample.kettle))
       /\ lineItems request = [ {| productLocator := locator |} ].
Proof.
  apply (createWalletAmazonOrder_requests Sample.provider_with_transaction
           Sample.kettle "jd@example.com" "0xabc" Sample.austin
           (Sample.kettle_request "amazon:B000X12345")).
  left. reflexivity.
Defined.

End OrderRequestSpec.

(** ** Automatic signing *)

Module AutoSignSpec.
Import CheckoutHandler HandlerReading Reading.

Section WithEnv.
Context {cm : Js.CaseMapping}.
Variable env : Env.

(** The check of the delegation service run on the world: its answer,
    and on the trace the request for the signers when one is made, at
    the endpoint of the wallet address in the user's record. *)
Lemma isDelegatedToBotSigner_run (uid : Z) (w : World) :
  exists evs,
    isDelegatedToBotSigner env uid w
    = (Delegation.isDelegatedToBotSigner (config env) (fetchSigners env)
         (walletUsers w) uid, logged w evs)
    /\ (evs = []
        \/ exists user addr,
             walletUsers w !! uid = Some user
             /\ Wallet.walletAddress user = Some addr
             /\ evs = [EvFetchSigners
                         (Wallet.baseUrl (config env)
                          ++ "/api/2022-06-09/wallets/" ++ addr
                          ++ "/signers")]).
Proof.
  unfold isDelegatedToBotSigner, Wallet.getUser.
  destruct (walletUsers w !! uid) as [user|] eqn:Hu; cbn [mbind option_bind].
  2:{ exists []. rewrite CheckoutHandlerSpec.logged_nil. auto. }
  destruct (Wallet.walletAddress user) as [addr|] eqn:Ha.
  2:{ exists []. rewrite CheckoutHandlerSpec.logged_nil. auto. }
  destruct (_ && _).
  - eexists. split; [reflexivity|]. right. exists user, addr.
    split; [reflexivity|]. split; [exact Ha|reflexivity].
  - exists []. rewrite CheckoutHandlerSpec.logged_nil. auto.
Qed.

(** X6. [canAutoSign] never raises.  It answers [true] exactly when
    the user has a wallet ([hasWallet]) and the provider, asked at the
    signers endpoint of the user's wallet address, answers with a list
    that holds a signer equal to the bot signer after lower-casing
    both.  For a user without a wallet it answers [false] without
    asking the provider; in every case it leaves sessions and registry
    alone and asks for the signers at most once, and then at
    [<baseUrl>/api/2022-06-09/wallets/<the user's wallet address>/signers]. *)
Theorem canAutoSign_spec (uid : Z) (w : World) :
  let result := fst (canAutoSign env uid w) in
  let w' := snd (canAutoSign env uid w) in
  (exists b, result = Js.Return b)
  /\ (result = Js.Return true <->
      Wallet.hasWallet (walletUsers w) uid = true
      /\ exists l,
           asks_provider (config env) (fetchSigners env) (walletUsers w) uid
             (Delegation.FetchResponse true (Delegation.BodySigners l))
           /\ exists s,
                In s l
                /\ Js.toLowerCase (Delegation.signer s)
                   = Js.toLowerCase Delegation.BOT_SIGNER_ADDRESS)
  /\ (Wallet.hasWallet (walletUsers w) uid = false ->
      result = Js.Return false /\ w' = w)
  /\ userSessions w' = userSessions w
  /\ walletUsers w' = walletUsers w
  /\ (events_since w w' = []
      \/ exists user addr,
           walletUsers w !! uid = Some user
           /\ Wallet.walletAddress user = Some addr
           /\ events_since w w'
              = [EvFetchSigners
                   (Wallet.baseUrl (config env)
                    ++ "/api/2022-06-09/wallets/" ++ addr ++ "/signers")]).
Proof.
  cbv zeta. unfold canAutoSign, tryCatch, bind. cbv beta.
  destruct (Wallet.hasWallet (walletUsers w) uid) eqn:Hwallet; cbn [negb].
  2:{ unfold ret. cbn [fst snd]. repeat split; try discriminate; eauto.
      - intros [Hfalse _]. discriminate.
      - left. unfold events_since. apply drop_all. }
  destruct (isDelegatedToBotSigner_run uid w) as (evs & -> & Hevs).
  assert (Hsince : events_since w (logged w evs) = evs)
    by (apply CheckoutHandlerSpec.events_since_app; reflexivity).
  unfold Delegation.isDelegatedToBotSigner.
  destruct (Delegation.isDelegatedToBotSigner_try (config env)
              (fetchSigners env) (walletUsers w) uid) as [b|e] eqn:Htry;
    unfold ret; cbn [fst snd]; rewrite Hsince;
    (split; [eauto|]);
    (split; [|split; [discriminate|repeat split; exact Hevs]]).
  - split.
    + intros Hb. injection Hb as ->. split; [reflexivity|].
      destruct (DelegationSpec.isDelegatedToBotSigner_try_true _ _ _ _ Htry)
        as (l & Hask & Hbot).
      exists l. split; [exact Hask|].
      apply DelegationSpec.some_is_bot_iff. exact Hbot.
    + intros (_ & l & Hask & Hbot).
      apply DelegationSpec.some_is_bot_iff in Hbot.
      rewrite (DelegationSpec.isDelegatedToBotSigner_try_asks _ _ _ _ _ Hask)
        in Htry.
      congruence.
  - split; [discriminate|].
    intros (_ & l & Hask & Hbot).
    rewrite (DelegationSpec.isDelegatedToBotSigner_try_asks _ _ _ _ _ Hask)
      in Htry.
    discriminate.
Qed.

End WithEnv.

End AutoSignSpec.

(** ** Who pays for an order *)

Module PaymentSpec.
Import CheckoutHandler HandlerReading Reading PaymentReading ReportReading.

Section Emits.
Variable users : gmap Z Wallet.WalletUser.
Variable P : Event -> Prop.

Lemma emits_ret {A} (a : A) : emits users P (ret a).
Proof.
  intros w Hw. split; [exact Hw|].
  exists []. split; [symmetry; apply app_nil_r|constructor].
Qed.

Lemma emits_throw {A} (e : Js.Error) : emits users P (@throw A e).
Proof.
  intros w Hw. split; [exact Hw|].
  exists []. split; [symmetry; apply app_nil_r|constructor].
Qed.

Lemma emits_lift {A} (c : Js.Completion A) : emits users P (lift c).
Proof.
  intros w Hw. split; [exact Hw|].
  exists []. split; [symmetry; apply app_nil_r|constructor].
Qed.

(** A computation whose outcome is known: what follows runs on that
    outcome only. *)
Lemma emits_bind_known {A B} (m : M A) (k : A -> M B)
    (c : Js.Completion A) :
  (forall w, fst (m w) = c) ->
  emits users P m ->
  (forall a, c = Js.Return a -> emits users P (k a)) ->
  emits users P (bind m k).
Proof.
  intros Hc Hm Hk w Hw. unfold bind.
  pose proof (Hm w Hw) as Hmw. pose proof (Hc w) as Hcw.
  destruct (m w) as [[a|e] w1] eqn:Hrun; cbn [fst snd] in *; [|exact Hmw].
  destruct Hmw as (Hu & evs1 & Ht1 & H1).
  destruct (Hk a (eq_sym Hcw) w1 Hu) as (Hu2 & evs2 & Ht2 & H2).
  split; [exact Hu2|].
  exists (evs1 ++ evs2)%list. split.
  - rewrite Ht2, Ht1. symmetry. apply app_assoc.
  - apply Forall_app. split; assumption.
Qed.

Lemma emits_bind {A B} (m : M A) (k : A -> M B) :
  emits users P m -> (forall a, emits users P (k a)) ->
  emits users P (bind m k).
Proof.
  intros Hm Hk w Hw. unfold bind.
  pose proof (Hm w Hw) as Hmw.
  destruct (m w) as [[a|e] w1] eqn:Hrun; cbn [snd] in *; [|exact Hmw].
  destruct Hmw as (Hu & evs1 & Ht1 & H1).
  destruct (Hk a w1 Hu) as (Hu2 & evs2 & Ht2 & H2). split; [exact Hu2|].
  exists (evs1 ++ evs2)%list. split.
  - rewrite Ht2, Ht1. symmetry. apply app_assoc.
  - apply Forall_app. split; assumption.
Qed.

Lemma emits_tryCatch {A} (body : M A) (handler : Js.Error -> M A) :
  emits users P body -> (forall e, emits users P (handler e)) ->
  emits users P (tryCatch body handler).
Proof.
  intros Hm Hk w Hw. unfold tryCatch.
  pose proof (Hm w Hw) as Hmw.
  destruct (body w) as [[a|e] w1] eqn:Hrun; cbn [snd] in *; [exact Hmw|].
  destruct Hmw as (Hu & evs1 & Ht1 & H1).
  destruct (Hk e w1 Hu) as (Hu2 & evs2 & Ht2 & H2). split; [exact Hu2|].
  exists (evs1 ++ evs2)%list. split.
  - rewrite Ht2, Ht1. symmetry. apply app_assoc.
  - apply Forall_app. split; assumption.
Qed.

Lemma emits_logged (w : World) (evs : list Event) :
  walletUsers w = users -> Forall P evs ->
  walletUsers (logged w evs) = users
  /\ exists evs', trace (logged w evs) = (trace w ++ evs')%list
                  /\ Forall P evs'.
Proof. intros Hw Hp. split; [exact Hw|]. exists evs. split; auto. Qed.

Lemma emits_emit (ev : Event) : P ev -> emits users P (emit ev).
Proof.
  intros Hp w Hw. apply emits_logged; [exact Hw|].
  constructor; [exact Hp|constructor].
Qed.

Lemma emits_emit_all (evs : list Event) :
  Forall P evs -> emits users P (emit_all evs).
Proof.
  induction 1 as [|ev evs Hp _ IH]; cbn.
  - apply emits_ret.
  - apply emits_bind; [apply emits_emit; exact Hp|intros _; exact IH].
Qed.

Lemma emits_sessionsDelete (uid : Z) :
  P (EvSessionDelete uid) -> emits users P (sessionsDelete uid).
Proof.
  intros Hp w Hw. split; [exact Hw|].
  exists [EvSessionDelete uid]. split; [reflexivity|].
  constructor; [exact Hp|constructor].
Qed.

(** What follows a read of the registry runs on the value read. *)
Lemma emits_getWalletUser {B} (uid : Z)
    (k : option Wallet.WalletUser -> M B) :
  emits users P (k (users !! uid)) ->
  emits users P (bind (getWalletUser uid) k).
Proof.
  intros Hk w Hw. unfold bind, getWalletUser, Wallet.getUser.
  rewrite Hw. apply Hk. exact Hw.
Qed.

Section WithEnv.
Context {cm : Js.CaseMapping}.
Variable env : Env.

Lemma emits_sendMessage (chatId : Z) (p : Prompt)
    (keyboard : list (list Button)) :
  P (EvSend chatId p keyboard) ->
  emits users P (sendMessage env chatId p keyboard).
Proof.
  intros Hp w Hw. unfold sendMessage.
  destruct (deliver env (sends_so_far w)); cbn [snd];
    (apply emits_logged; [exact Hw|]);
    (constructor; [exact Hp|constructor]).
Qed.

Lemma emits_generateTopUpLink (u amount : Z) (currency : string) :
  (forall l, P (EvTopUpSession l)) ->
  emits users P (generateTopUpLink env u amount currency).
Proof.
  intros Hp w Hw. unfold generateTopUpLink.
  destruct (Wallet.generateTopUpLink _ _ _ _ _ _) as [[l|]|e]; cbn [snd].
  - apply emits_logged; [exact Hw|].
    constructor; [apply Hp|constructor].
  - apply (emits_ret tt w Hw).
  - apply (emits_ret tt w Hw).
Qed.

Lemma emits_signOrderTransaction (walletAddress tx chain : string) :
  P (EvSubmitTransaction walletAddress tx chain) ->
  emits users P (signOrderTransaction env walletAddress tx chain).
Proof.
  intros Hp. unfold signOrderTransaction.
  apply emits_bind; [apply emits_emit; exact Hp|].
  intros _. apply emits_ret.
Qed.

Lemma emits_createWalletAmazonOrder (product : Checkout.AmazonProduct)
    (userEmail walletAddress : string)
    (shippingAddress : Checkout.PhysicalAddress) :
  (forall req,
     In req (snd (Checkout.createWalletAmazonOrder (provider env) product
                    userEmail walletAddress shippingAddress)) ->
     P (EvPostOrder req)) ->
  emits users P
    (createWalletAmazonOrder env product userEmail walletAddress
       shippingAddress).
Proof.
  intros Hp. unfold createWalletAmazonOrder.
  destruct (Checkout.createWalletAmazonOrder _ _ _ _ _) as [r calls].
  apply emits_bind; [|intros _; apply emits_lift].
  apply emits_emit_all. apply List.Forall_forall.
  intros ev Hin. apply in_map_iff in Hin as (req & <- & Hreq).
  apply Hp. exact Hreq.
Qed.

(** The [catch] of [createHeadlessOrder] sends one of its three
    messages, may record a top-up session and deletes the session. *)
Lemma emits_createHeadlessOrder_catch (chatId uid : Z) (e : Js.Error) :
  (forall keyboard, P (EvSend chatId InsufficientFunds keyboard)) ->
  (forall keyboard, P (EvSend chatId ShippingRestriction keyboard)) ->
  (forall m keyboard, P (EvSend chatId (OrderCreationFailed m) keyboard)) ->
  (forall l, P (EvTopUpSession l)) ->
  P (EvSessionDelete uid) ->
  emits users P (createHeadlessOrder_catch env chatId uid e).
Proof.
  intros Hfunds Hship Hfail Htopup Hdelete.
  unfold createHeadlessOrder_catch. cbv zeta.
  apply emits_bind; [|intros _; apply emits_sessionsDelete; exact Hdelete].
  destruct (Js.includes _ _).
  - apply emits_bind; [apply emits_generateTopUpLink; exact Htopup|].
    intros l. apply emits_sendMessage. apply Hfunds.
  - destruct (Js.includes _ _); apply emits_sendMessage;
      [apply Hship|apply Hfail].
Qed.

End WithEnv.
End Emits.

Section WithEnv.
Context {cm : Js.CaseMapping}.
Variable env : Env.

(** X7. Whatever the session, the transport, the provider and the
    signer do, every order request [createHeadlessOrder] posts is paid
    from the wallet the registry holds for the user and carries the
    email and the address of the session, and every transaction it
    submits is submitted for that wallet; the registry is left as it
    was.  In particular nothing is posted or submitted for a user
    without a wallet address. *)
Theorem createHeadlessOrder_charges_own_wallet (chatId uid : Z)
    (session : UserSession) (w : World) :
  let w' := snd (createHeadlessOrder env chatId uid session w) in
  walletUsers w' = walletUsers w
  /\ Forall (own_wallet (walletUsers w) uid session) (events_since w w').
Proof.
  cbv zeta.
  set (P := own_wallet (walletUsers w) uid session).
  assert (H : emits (walletUsers w) P
                (createHeadlessOrder env chatId uid session)).
  { unfold createHeadlessOrder. apply emits_tryCatch;
      [|intros e; apply emits_createHeadlessOrder_catch; intros; exact I].
    unfold createHeadlessOrder_try.
    destruct (selectedProduct session) as [product|]; [|apply emits_throw].
    destruct (email session) as [mail|] eqn:Hmail; [|apply emits_throw].
    destruct (physicalAddress session) as [address|] eqn:Haddr;
      [|apply emits_throw].
    destruct (negb (Js.truthy mail)); [apply emits_throw|].
    apply emits_bind; [apply emits_sendMessage; exact I|].
    intros _. apply emits_getWalletUser.
    destruct (walletUsers w !! uid ≫= Wallet.walletAddress) as [wa|] eqn:Hwa;
      [|apply emits_throw].
    destruct (negb (Js.truthy wa)); [apply emits_throw|].
    apply emits_bind.
    - apply emits_createWalletAmazonOrder.
      intros req Hin.
      destruct (OrderRequestSpec.createWalletAmazonOrder_calls (provider env)
                  product mail wa address)
        as [Hnil|(asin & locator & n & _ & Hcalls)].
      + rewrite Hnil in Hin. destruct Hin.
      + rewrite Hcalls in Hin. apply in_map_iff in Hin as (l & <- & _).
        subst P. cbn. rewrite Hwa, Hmail, Haddr. repeat split.
    - intros r. unfold handleOrderStates. cbv zeta.
      destruct (String.eqb _ _).
      { apply emits_bind;
          [apply emits_generateTopUpLink; intros; exact I|intros l].
        apply emits_sendMessage. exact I. }
      destruct (String.eqb _ _); [apply emits_throw|].
      apply emits_bind; [|intros _; apply emits_sessionsDelete; exact I].
      assert (Hcreated : emits (walletUsers w) P
                (reportCreated env chatId uid (Checkout.title product)
                   (Checkout.order (Checkout.response r)))).
      { unfold reportCreated.
        apply emits_bind; [apply emits_sendMessage; exact I|intros _].
        apply emits_emit. exact I. }
      destruct (Checkout.preparation _ ≫= Checkout.serializedTransaction)
        as [tx|]; [destruct (Js.truthy tx)|];
        [|exact Hcreated|exact Hcreated].
      unfold signTransaction.
      apply emits_bind; [apply emits_sendMessage; exact I|intros _].
      apply emits_bind;
        [apply emits_signOrderTransaction; subst P; cbn; exact Hwa|].
      intros result. unfold reportSigning. cbv zeta.
      destruct (Checkout.success result).
      + apply emits_bind; [apply emits_sendMessage; exact I|intros _].
        apply emits_emit. exact I.
      + apply emits_sendMessage. exact I. }
  destruct (H w eq_refl) as (Hu & evs & Ht & Hp).
  split; [exact Hu|]. rewrite (CheckoutHandlerSpec.events_since_app _ _ _ Ht).
  exact Hp.
Qed.

Lemma signOrderTransaction_result (walletAddress tx chain : string)
    (w : World) :
  fst (signOrderTransaction env walletAddress tx chain w)
  = Js.Return
      (Checkout.signOrderTransaction (signerService env) walletAddress tx
         chain).
Proof. reflexivity. Qed.


End WithEnv.
End PaymentSpec.

(** ** How a checkout session starts and ends *)

Module SessionStartSpec.
Import CheckoutHandler HandlerReading Reading.

Section WithEnv.
Context {cm : Js.CaseMapping}.
Variable env : Env.

(** X8. [startWalletCheckoutFlow] changes the session store only for
    a user who has a wallet and whose balance request returned at
    least one token balance: it then stores one session for the user,
    holding the product and its index, at the email or the address
    step. *)
Theorem session_needs_funded_wallet (chatId uid : Z)
    (product : Checkout.AmazonProduct) (index : Z) (w : World) :
  let w' := snd (startWalletCheckoutFlow env chatId uid product index w) in
  userSessions w' <> userSessions w ->
  Wallet.hasWallet (walletUsers w) uid = true
  /\ (exists balance balances,
        Wallet.getWalletBalance (fetchBalances env) (walletUsers w) uid
        = Some (balance :: balances))
  /\ exists session,
       userSessions w' = <[uid := session]> (userSessions w)
       /\ selectedProduct session = Some product
       /\ productIndex session = Some index
       /\ (step session = collecting_email
           \/ step session = collecting_address).
Proof.
  cbv zeta. unfold startWalletCheckoutFlow.
  rewrite (CheckoutHandlerSpec.tryCatch_bind_returns _ _ _ w w (walletUsers w))
    by reflexivity.
  assert (Hh : forall e : Js.Error,
            keeps (sendMessage env chatId CheckoutStartError []))
    by (intros _; apply CheckoutHandlerSpec.keeps_sendMessage).
  destruct (Wallet.hasWallet (walletUsers w) uid); cbn [negb].
  2:{ intros Hchanged. exfalso. apply Hchanged.
      apply CheckoutHandlerSpec.keeps_tryCatch; [|exact Hh].
      apply CheckoutHandlerSpec.keeps_bind;
        [apply CheckoutHandlerSpec.keeps_generateAuthLink|].
      intros [l|]; apply CheckoutHandlerSpec.keeps_sendMessage. }
  destruct (Wallet.getWalletBalance _ _ _) as [[|b bs]|].
  1,3: intros Hchanged; exfalso; apply Hchanged;
       apply CheckoutHandlerSpec.keeps_tryCatch; [|exact Hh];
       (apply CheckoutHandlerSpec.keeps_bind;
        [apply CheckoutHandlerSpec.keeps_generateTopUpLink|]);
       intros l; apply CheckoutHandlerSpec.keeps_sendMessage.
  intros _. split; [reflexivity|]. split; [eauto|].
  cbv zeta.
  destruct (Js.truthy_opt
              (Wallet.getUser (walletUsers w) uid ≫= Wallet.email)) eqn:Hmail;
    cbn [email Js.truthy_opt].
  - rewrite Hmail. eexists. split; [|split; [|split]].
    + rewrite (CheckoutHandlerSpec.tryCatch_bind_returns _ _ _ w _ tt)
        by reflexivity.
      rewrite CheckoutHandlerSpec.tryCatch_set_keeps;
        [|apply CheckoutHandlerSpec.keeps_sendMessage|exact Hh].
      cbn [userSessions logged with_sessions]. apply insert_insert_eq.
    + reflexivity.
    + reflexivity.
    + right. reflexivity.
  - eexists. split; [|split; [|split]].
    + apply CheckoutHandlerSpec.tryCatch_set_keeps;
        [apply CheckoutHandlerSpec.keeps_sendMessage|exact Hh].
    + reflexivity.
    + reflexivity.
    + left. reflexivity.
Qed.

End WithEnv.

Lemma session_needs_funded_wallet_witness :
  let env := Sample.shop Sample.provider_with_transaction in
  let w := Sample.world_of Sample.users7 ∅ in
  let w' := snd (startWalletCheckoutFlow env 100 7 Sample.kettle 0 w) in
  Wallet.hasWallet (walletUsers w) 7 = true
  /\ (exists balance balances,
        Wallet.getWalletBalance (fetchBalances env) (walletUsers w) 7
        = Some (balance :: balances))
  /\ exists session,
       userSessions w' = <[7 := session]> (userSessions w)
       /\ selectedProduct session = Some Sample.kettle
       /\ productIndex session = Some 0
       /\ (step session = collecting_email
           \/ step session = collecting_address).
Proof.
  apply (session_needs_funded_wallet
           (Sample.shop Sample.provider_with_transaction) 100 7 Sample.kettle
           0 (Sample.world_of Sample.users7 ∅)).
  intros Hsame. apply (f_equal (fun sessions => sessions !! 7)) in Hsame.
  vm_compute in Hsame. discriminate.
Defined.

End SessionStartSpec.

Module CancelSpec.
Import CheckoutHandler HandlerReading Reading.

Section WithEnv.
Context {cm : Js.CaseMapping}.
Variable env : Env.

(** X9. After [handleCheckoutCancel] for a press that carries a chat,
    the user has no session, whatever becomes of the acknowledgement
    and the message; the sessions of the other users are untouched and
    [handleCheckoutMessage] no longer takes the user's texts. *)
Theorem cancelled_checkout_ignores_texts (callbackQuery : CallbackQuery)
    (chatId : Z) (w : World) (msg : Message) :
  query_chat callbackQuery = Some chatId ->
  chatId <> 0 ->
  from_id msg = Some (query_from callbackQuery) ->
  let sessions :=
    handleCheckoutCancel_sessions callbackQuery (userSessions w) in
  let cancelled := with_sessions w sessions in
  sessions !! query_from callbackQuery = None
  /\ (forall u, u <> query_from callbackQuery ->
        sessions !! u = userSessions w !! u)
  /\ handleCheckoutMessage env msg cancelled = (Js.Return false, cancelled).
Proof.
  intros Hchat Hne Hfrom. cbv zeta. unfold handleCheckoutCancel_sessions.
  rewrite Hchat, (proj2 (Z.eqb_neq chatId 0) Hne).
  split; [apply lookup_delete_eq|]. split.
  - intros u Hu. apply lookup_delete_ne. congruence.
  - destruct (text msg) as [raw|] eqn:Htext.
    + apply (CheckoutHandlerSpec.handleCheckoutMessage_not_consumed env msg _
               (query_from callbackQuery) raw Hfrom Htext).
      right. left. apply lookup_delete_eq.
    + unfold handleCheckoutMessage. rewrite Hfrom, Htext. reflexivity.
Qed.

End WithEnv.

Lemma cancelled_checkout_ignores_texts_witness :
  let w :=
    Sample.world_of Sample.users7
      {[ 7 := Sample.session_at collecting_email None ]} in
  let sessions :=
    handleCheckoutCancel_sessions Sample.cancel_press (userSessions w) in
  let cancelled := with_sessions w sessions in
  sessions !! 7 = None
  /\ (forall u, u <> 7 -> sessions !! u = userSessions w !! u)
  /\ handleCheckoutMessage (cm := Js.BasicLatin)
       (Sample.shop Sample.provider_with_transaction)
       (text_message 7 100 "jd@example.com") cancelled
     = (Js.Return false, cancelled).
Proof.
  apply (cancelled_checkout_ignores_texts (cm := Js.BasicLatin)
           (Sample.shop Sample.provider_with_transaction)
           Sample.cancel_press 100
           (Sample.world_of Sample.users7
              {[ 7 := Sample.session_at collecting_email None ]})
           (text_message 7 100 "jd@example.com")).
  - reflexivity.
  - lia.
  - reflexivity.
Defined.

End CancelSpec.

Module SessionEndSpec.
Import CheckoutHandler HandlerReading Reading.

Section WithEnv.
Context {cm : Js.CaseMapping}.
Variable env : Env.
Hypothesis reliable : forall n, deliver env n = None.

Lemma sendMessage_reliable (chatId : Z) (p : Prompt)
    (keyboard : list (list Button)) (w : World) :
  sendMessage env chatId p keyboard w
  = (Js.Return tt, logged w [EvSend chatId p keyboard]).
Proof. apply CheckoutHandlerSpec.sendMessage_delivered. apply reliable. Qed.

(** The [catch] of [createHeadlessOrder] deletes the session once its
    message is out; the top-up link it may ask for needs a wallet. *)
Lemma createHeadlessOrder_catch_deletes (chatId uid : Z) (e : Js.Error)
    (w : World) :
  (Js.includes
     (match Js.error_message e with
      | Some m => m
      | None => "Unknown error occurred"
      end) "Insufficient USDC funds" = true ->
   exists user walletAddress,
     walletUsers w !! uid = Some user
     /\ Wallet.walletAddress user = Some walletAddress
     /\ Js.truthy walletAddress = true) ->
  userSessions (snd (createHeadlessOrder_catch env chatId uid e w))
  = delete uid (userSessions w).
Proof.
  intros Hwallet. unfold createHeadlessOrder_catch. cbv zeta.
  destruct (Js.includes _ "Insufficient USDC funds").
  - destruct (Hwallet eq_refl) as (user & wa & Huser & Hwa & Htruthy).
    unfold bind at 1. unfold bind at 1.
    rewrite (CheckoutHandlerSpec.generateTopUpLink_run env uid w user wa
               Huser Hwa Htruthy).
    rewrite sendMessage_reliable. reflexivity.
  - unfold bind at 1.
    destruct (Js.includes _ "US shipping addresses");
      rewrite sendMessage_reliable; reflexivity.
Qed.

(** X26. When every message is delivered, [createHeadlessOrder] ends
    the checkout whatever the session holds and whatever the provider
    and the signer answer: afterwards the user's session is deleted
    and the sessions of the other users are as they were. *)
Theorem createHeadlessOrder_ends_session (chatId uid : Z)
    (session : UserSession) (w : World) :
  userSessions (snd (createHeadlessOrder env chatId uid session w))
  = delete uid (userSessions w).
Proof.
  unfold createHeadlessOrder, tryCatch, createHeadlessOrder_try.
  assert (Hmissing : forall w0,
            userSessions w0 = userSessions w ->
            userSessions
              (snd (createHeadlessOrder_catch env chatId uid
                      (Js.JsError "Missing required session data") w0))
            = delete uid (userSessions w)).
  { intros w0 <-. apply createHeadlessOrder_catch_deletes. discriminate. }
  destruct (selectedProduct session) as [product|];
    [|apply Hmissing; reflexivity].
  destruct (email session) as [mail|]; [|apply Hmissing; reflexivity].
  destruct (physicalAddress session) as [address|];
    [|apply Hmissing; reflexivity].
  destruct (negb (Js.truthy mail)); [apply Hmissing; reflexivity|].
  unfold bind at 1. rewrite sendMessage_reliable.
  unfold bind at 1. unfold getWalletUser, Wallet.getUser.
  cbn [walletUsers logged].
  assert (Hnone : userSessions
                    (snd (createHeadlessOrder_catch env chatId uid
                            (Js.JsError "User wallet not found")
                            (logged w [EvSend chatId CreatingOrder []])))
                  = delete uid (userSessions w)).
  { rewrite createHeadlessOrder_catch_deletes; [reflexivity|discriminate]. }
  destruct (walletUsers w !! uid) as [user|] eqn:Huser;
    cbn [mbind option_bind]; [|exact Hnone].
  destruct (Wallet.walletAddress user) as [wa|] eqn:Hwa; [|exact Hnone].
  destruct (Js.truthy wa) eqn:Htruthy; cbn [negb]; [|exact Hnone].
  unfold bind at 1.
  rewrite CheckoutHandlerSpec.createWalletAmazonOrder_run. cbv zeta.
  rewrite CheckoutHandlerSpec.logged_logged.
  set (w2 := logged w _).
  assert (Hcatch : forall e w0,
            userSessions w0 = userSessions w ->
            walletUsers w0 = walletUsers w ->
            userSessions (snd (createHeadlessOrder_catch env chatId uid e w0))
            = delete uid (userSessions w)).
  { intros e w0 <- Hu. apply createHeadlessOrder_catch_deletes.
    intros _. exists user, wa. rewrite Hu. auto. }
  destruct (fst (Checkout.createWalletAmazonOrder (provider env) product mail
                   wa address)) as [wo|e] eqn:Hwo;
    [|apply Hcatch; reflexivity].
  destruct (CheckoutHandlerSpec.createWalletAmazonOrder_returns _ _ _ _ _ _
              Hwo) as [r Hclass].
  destruct (CheckoutHandlerSpec.classify_returns_states _ _ Hclass)
    as [Hfunds Hquote].
  destruct (CheckoutSpec.classify_returns _ _ Hclass) as (Hresp & _ & _ & Htx).
  unfold handleOrderStates. cbv zeta. rewrite Hresp, Hfunds, Hquote.
  unfold transaction_of in Htx.
  destruct (Checkout.preparation (Checkout.orderPayment (Checkout.order r))
            ≫= Checkout.serializedTransaction) as [tx|]; [|discriminate].
  cbn [Js.truthy_opt] in Htx. rewrite Htx.
  unfold signTransaction, signOrderTransaction, reportSigning,
    startOrderMonitoring, bind, emit, ret, sessionsDelete.
  rewrite sendMessage_reliable.
  destruct (Checkout.success _); rewrite sendMessage_reliable; reflexivity.
Qed.

End WithEnv.

(** With a transport that fails the session survives: the [catch]
    deletes it only after its own message is out. *)
Example createHeadlessOrder_keeps_session_offline :
  let w :=
    Sample.world_of Sample.users7 {[ 7 := Sample.ready_session ]} in
  userSessions
    (snd (createHeadlessOrder (cm := Js.BasicLatin)
            (Sample.shop_offline Sample.provider_with_transaction) 100 7
            Sample.ready_session w)) !! 7
  = Some Sample.ready_session.
Proof. reflexivity. Qed.

Lemma createHeadlessOrder_ends_session_witness :
  let w :=
    Sample.world_of Sample.users7 {[ 7 := Sample.ready_session ]} in
  userSessions
    (snd (createHeadlessOrder (cm := Js.BasicLatin)
            (Sample.shop Sample.provider_with_transaction) 100 7
            Sample.ready_session w))
  = delete 7 (userSessions w).
Proof.
  apply (createHeadlessOrder_ends_session (cm := Js.BasicLatin)
           (Sample.shop Sample.provider_with_transaction)).
  intros n. reflexivity.
Defined.

End SessionEndSpec.

(** ** The email pattern *)

Module EmailSpec.
Import CheckoutHandler Matching EmailReading.

(** X24. The pattern [handleEmailInput] checks an email against accepts
    exactly the texts of the form [name@domain.ending] in which the
    three parts are not empty and hold neither white space nor [@]
    (the domain may hold further dots).  So an accepted email holds
    exactly one [@] and a dot somewhere after it, with a character on
    both sides. *)
Theorem emailRegex_shape (mail : string) :
  Js.test emailRegex mail = true <->
  exists name domain ending,
    mail = name ++ "@" ++ domain ++ "." ++ ending
    /\ word name /\ word domain /\ word ending.
Proof.
  rewrite RegexSpec.test_iff. unfold emailRegex, word. split.
  - intros H.
    inversion H as [| |? ? name r1 Hname H1| | | |]; subst.
    inversion H1 as [| |? ? at_ r2 Hat H2| | | |]; subst.
    inversion H2 as [| |? ? domain r3 Hdomain H3| | | |]; subst.
    inversion H3 as [| |? ? dot ending Hdot Hending| | | |]; subst.
    apply RegexSpec.chr_matches in Hat, Hdot. subst.
    apply RegexSpec.plus_cls in Hname, Hdomain, Hending.
    exists name, domain, ending. split; [reflexivity|].
    split; [exact Hname|]. split; [exact Hdomain|exact Hending].
  - intros (name & domain & ending & -> & Hname & Hdomain & Hending).
    constructor; [apply RegexSpec.plus_cls; exact Hname|].
    constructor; [apply RegexSpec.chr_matches; reflexivity|].
    constructor; [apply RegexSpec.plus_cls; exact Hdomain|].
    constructor; [apply RegexSpec.chr_matches; reflexivity|].
    apply RegexSpec.plus_cls. exact Hending.
Qed.

End EmailSpec.

(** ** The wallet registry *)

Module WalletSpec.
Import Wallet WalletReading.

(** X10. After [updateUserAuth] the user has a wallet exactly when the
    reported wallet address is not empty, and is logged in exactly when
    the token is not empty either; the record holds the reported email
    (none when it is empty), and no other user's record changes. *)
Theorem updateUserAuth_registers_wallet (t_created now : Z)
    (users : gmap Z WalletUser) (uid : Z) (authData : AuthData) :
  let users' := updateUserAuth t_created now users uid authData in
  hasWallet users' uid = Js.truthy (authWalletAddress authData)
  /\ isUserLoggedIn users' uid
     = Js.truthy (authWalletAddress authData)
       && Js.truthy_opt (authJwt authData)
  /\ (getUser users' uid ≫= email
      = if Js.truthy_opt (authEmail authData) then authEmail authData
        else None)
  /\ forall u, u <> uid -> users' !! u = users !! u.
Proof.
  cbv zeta. unfold hasWallet, isUserLoggedIn, getUser, updateUserAuth.
  rewrite lookup_insert_eq. cbn. repeat split.
  intros u Hne. apply lookup_insert_ne. congruence.
Qed.

(** X11. [generateAuthLink] touches the activity and the names of a
    record only: for every user the wallet address, the email,
    [hasWallet] and [isUserLoggedIn] are what they were. *)
Theorem generateAuthLink_keeps_wallets (cfg : Config) (now : Z)
    (users : gmap Z WalletUser) (uid : Z) (username first : option string)
    (u : Z) :
  let users' := snd (generateAuthLink cfg now users uid username first) in
  getUser users' u ≫= walletAddress = getUser users u ≫= walletAddress
  /\ getUser users' u ≫= email = getUser users u ≫= email
  /\ hasWallet users' u = hasWallet users u
  /\ isUserLoggedIn users' u = isUserLoggedIn users u.
Proof.
  cbv zeta. unfold generateAuthLink, hasWallet, isUserLoggedIn, getUser.
  destruct (negb (isValidWebAppUrl cfg)); cbn [snd];
    (destruct (decide (u = uid)) as [->|Hne];
     [destruct (users !! uid) as [user|] eqn:Hu;
      rewrite lookup_insert_eq; cbn; repeat split
     |destruct (users !! uid) as [user|];
      rewrite lookup_insert_ne by congruence; repeat split]).
Qed.

(** X12. [clearUser] answers [true] exactly when the user has a
    record, so always for a logged-in user; when it answers [false]
    nothing changes.  Afterwards the user has no record and no wallet,
    none of the user's top-up sessions and transactions is left, and
    the records, sessions and transactions of the other users are as
    they were. *)
Theorem clearUser_forgets_user (uid : Z) (s : Stores) :
  let done := fst (clearUser uid s) in
  let s' := snd (clearUser uid s) in
  (done = true <-> walletUsers s !! uid <> None)
  /\ (isUserLoggedIn (walletUsers s) uid = true -> done = true)
  /\ (done = false -> s' = s)
  /\ getUser (walletUsers s') uid = None
  /\ hasWallet (walletUsers s') uid = false
  /\ (forall sid session,
        topUpSessions s' !! sid = Some session <->
        topUpSessions s !! sid = Some session
        /\ (done = true -> sessionUser session <> uid))
  /\ (forall tid transaction,
        transactions s' !! tid = Some transaction <->
        transactions s !! tid = Some transaction
        /\ (done = true -> transactionUser transaction <> uid))
  /\ forall u, u <> uid -> walletUsers s' !! u = walletUsers s !! u.
Proof.
  cbv zeta. unfold clearUser, isUserLoggedIn, hasWallet, getUser.
  destruct (walletUsers s !! uid) as [user|] eqn:Hu;
    cbn [fst snd walletUsers topUpSessions transactions].
  - rewrite lookup_delete_eq.
    split; [split; [congruence|reflexivity]|].
    split; [reflexivity|]. split; [discriminate|].
    split; [reflexivity|]. split; [reflexivity|].
    split; [|split].
    + intros sid session. rewrite map_lookup_filter_Some. cbn. split.
      * intros [H1 H2]. split; [exact H1|intros _; exact H2].
      * intros [H1 H2]. split; [exact H1|apply H2; reflexivity].
    + intros tid transaction. rewrite map_lookup_filter_Some. cbn. split.
      * intros [H1 H2]. split; [exact H1|intros _; exact H2].
      * intros [H1 H2]. split; [exact H1|apply H2; reflexivity].
    + intros u Hne. apply lookup_delete_ne. congruence.
  - rewrite Hu.
    split; [split; [discriminate|congruence]|].
    split; [discriminate|]. split; [reflexivity|].
    split; [reflexivity|]. split; [reflexivity|].
    split; [|split].
    + intros sid session. split; [intros H; split; [exact H|discriminate]|].
      intros [H _]. exact H.
    + intros tid transaction.
      split; [intros H; split; [exact H|discriminate]|].
      intros [H _]. exact H.
    + reflexivity.
Qed.

(** X13. When [generateTopUpLink] returns a link, the session it
    records is found under [topup_<user>_<time>], named after the first
    clock read of the call, with the amount and currency asked for; its
    [createdAt] is the second clock read and its [expiresAt] thirty
    minutes after the third.  It survives [cleanupExpiredSessions]
    exactly until that [expiresAt], hence for thirty minutes after its
    [createdAt] at least when the clock did not run backwards between
    the two reads; the other sessions are not touched. *)
Theorem topUpSession_lifetime (cfg : Config) (now t_created t_expires : Z)
    (users : gmap Z WalletUser) (uid amount : Z) (currency : string)
    (sessions : gmap string TopUpSession) (link : TopUpLink) :
  generateTopUpLink cfg now users uid amount currency
  = Js.Return (Some link) ->
  let sessions' :=
    generateTopUpLink_sessions cfg now t_created t_expires users uid amount
      currency sessions in
  let sid := topUpSessionId uid now in
  let session :=
    {| sessionUser := uid;
       sessionId := sid;
       sessionAmount := amount;
       sessionCurrency := currency;
       sessionStatus := session_initiated;
       sessionOrderId := None;
       sessionCreatedAt := t_created;
       expiresAt := t_expires + 1800000 |} in
  getTopUpSession sessions' sid = Some session
  /\ (forall later,
        getTopUpSession (cleanupExpiredSessions later sessions') sid
        = if later >? t_expires + 1800000 then None else Some session)
  /\ (t_created <= t_expires ->
      forall later,
        later <= t_created + 1800000 ->
        getTopUpSession (cleanupExpiredSessions later sessions') sid
        = Some session)
  /\ forall other, other <> sid -> sessions' !! other = sessions !! other.
Proof.
  intros Hlink. cbv zeta. unfold generateTopUpLink_sessions. rewrite Hlink.
  assert (Hl : link = {| topUpBase := webAppUrl cfg; topUpUser := uid;
                         topUpTime := now; topUpAmount := amount;
                         topUpCurrency := currency |}).
  { unfold generateTopUpLink in Hlink.
    destruct (getUser users uid) as [user|]; [|discriminate].
    destruct (Js.truthy_opt (walletAddress user)); [|discriminate].
    destruct (negb (isValidWebAppUrl cfg)); [discriminate|].
    congruence. }
  subst link. unfold topUpSessionOf, getTopUpSession. cbn.
  change (30 * 60 * 1000) with 1800000.
  assert (Hclean : forall later,
            cleanupExpiredSessions later
              (<[topUpSessionId uid now :=
                   {| sessionUser := uid;
                      sessionId := topUpSessionId uid now;
                      sessionAmount := amount;
                      sessionCurrency := currency;
                      sessionStatus := session_initiated;
                      sessionOrderId := None;
                      sessionCreatedAt := t_created;
                      expiresAt := t_expires + 1800000 |}]> sessions)
              !! topUpSessionId uid now
            = if later >? t_expires + 1800000 then None
              else Some {| sessionUser := uid;
                           sessionId := topUpSessionId uid now;
                           sessionAmount := amount;
                           sessionCurrency := currency;
                           sessionStatus := session_initiated;
                           sessionOrderId := None;
                           sessionCreatedAt := t_created;
                           expiresAt := t_expires + 1800000 |}).
  { intros later. unfold cleanupExpiredSessions.
    rewrite map_lookup_filter, lookup_insert_eq. cbn.
    destruct (later >? t_expires + 1800000).
    - rewrite option_guard_False; [reflexivity|discriminate].
    - rewrite option_guard_True; reflexivity. }
  split; [apply lookup_insert_eq|]. split; [exact Hclean|]. split.
  - intros Hclock later Hlater. rewrite Hclean.
    rewrite Z.gtb_ltb, (proj2 (Z.ltb_ge _ _)) by lia. reflexivity.
  - intros other Hne. apply lookup_insert_ne. congruence.
Qed.

Lemma consistent_empty : consistent empty_stores.
Proof.
  split.
  - intros u user H. unfold empty_stores in H. cbn [walletUsers] in H.
    rewrite lookup_empty in H. discriminate.
  - intros sid session H. unfold empty_stores in H.
    cbn [topUpSessions] in H. rewrite lookup_empty in H. discriminate.
Qed.

Lemma consistent_serve (cfg : Config) (s : Stores) (r : Request) :
  consistent s -> consistent (serve cfg s r).
Proof.
  intros [Husers Hsessions].
  destruct r as [now uid username first|t_created now uid authData
                |now t_created t_expires uid amount currency|now|uid];
    cbn [serve].
  - (* generateAuthLink *)
    assert (Hkeep : forall u user,
              snd (generateAuthLink cfg now (walletUsers s) uid username first)
                !! u = Some user ->
              (userId user = u
               /\ (walletStatus user = created <-> walletAddress user <> None)
               /\ (walletStatus user = created
                   \/ walletStatus user = not_created))).
    { intros u user. unfold generateAuthLink.
      destruct (negb (isValidWebAppUrl cfg)); cbn [snd];
        (destruct (decide (u = uid)) as [->|Hne];
         [destruct (walletUsers s !! uid) as [old|] eqn:Hold;
          rewrite lookup_insert_eq; intros Heq; injection Heq as <-; cbn;
          [exact (Husers _ _ Hold)
          |split; [reflexivity|split; [split; congruence|right; reflexivity]]]
         |destruct (walletUsers s !! uid) as [old|];
          rewrite lookup_insert_ne by congruence; apply Husers]). }
    split; [exact Hkeep|].
    intros sid session Hs. cbn [topUpSessions with_users] in Hs.
    destruct (Hsessions _ _ Hs) as (H1 & H2 & user & Hu).
    repeat split; try assumption. cbn [walletUsers with_users].
    unfold generateAuthLink.
    destruct (negb (isValidWebAppUrl cfg)); cbn [snd];
      (destruct (decide (sessionUser session = uid)) as [Heq|Hne];
       [rewrite Heq in *; rewrite Hu, lookup_insert_eq; eauto
       |destruct (walletUsers s !! uid);
        rewrite lookup_insert_ne by congruence; eauto]).
  - (* updateUserAuth *)
    split.
    + intros u user. cbn [walletUsers with_users]. unfold updateUserAuth.
      destruct (decide (u = uid)) as [->|Hne].
      * rewrite lookup_insert_eq. intros Heq. injection Heq as <-. cbn.
        split.
        { destruct (walletUsers s !! uid) as [old|] eqn:Hold;
            [apply (Husers _ _ Hold)|reflexivity]. }
        split; [split; congruence|left; reflexivity].
      * rewrite lookup_insert_ne by congruence. apply Husers.
    + intros sid session Hs. cbn [topUpSessions with_users] in Hs.
      destruct (Hsessions _ _ Hs) as (H1 & H2 & user & Hu).
      repeat split; try assumption. cbn [walletUsers with_users].
      unfold updateUserAuth.
      destruct (decide (sessionUser session = uid)) as [Heq|Hne].
      * rewrite Heq. rewrite lookup_insert_eq. eauto.
      * rewrite lookup_insert_ne by congruence. eauto.
  - (* generateTopUpLink *)
    split; [exact Husers|].
    intros sid session. cbn [topUpSessions walletUsers with_topUpSessions].
    unfold generateTopUpLink_sessions, generateTopUpLink, getUser.
    destruct (walletUsers s !! uid) as [user|] eqn:Hu; [|apply Hsessions].
    destruct (Js.truthy_opt (walletAddress user)); [|apply Hsessions].
    destruct (negb (isValidWebAppUrl cfg)); [apply Hsessions|].
    cbn [topUpSessionOf sessionId topUpUser topUpTime].
    destruct (decide (sid = topUpSessionId uid now)) as [->|Hne].
    + rewrite lookup_insert_eq. intros Heq. injection Heq as <-. cbn.
      repeat split. eauto.
    + rewrite lookup_insert_ne by congruence. apply Hsessions.
  - (* cleanupExpiredSessions *)
    split; [exact Husers|].
    intros sid session. cbn [topUpSessions walletUsers with_topUpSessions].
    unfold cleanupExpiredSessions. intros H.
    apply map_lookup_filter_Some in H as [H _]. exact (Hsessions _ _ H).
  - (* clearUser *)
    unfold clearUser.
    destruct (walletUsers s !! uid) as [gone|] eqn:Hgone; cbn [snd];
      [|split; assumption].
    split.
    + intros u user. cbn [walletUsers].
      destruct (decide (u = uid)) as [->|Hne].
      * rewrite lookup_delete_eq. discriminate.
      * rewrite lookup_delete_ne by congruence. apply Husers.
    + intros sid session. cbn [topUpSessions walletUsers]. intros H.
      apply map_lookup_filter_Some in H as [H Hne]. cbn in Hne.
      destruct (Hsessions _ _ H) as (H1 & H2 & user & Hu).
      repeat split; try assumption.
      rewrite lookup_delete_ne by congruence. eauto.
Qed.

Lemma consistent_fold (cfg : Config) (rs : list Request) :
  forall s, consistent s -> consistent (fold_left (serve cfg) rs s).
Proof.
  induction rs as [|r rs IH]; intros s Hs; cbn; [exact Hs|].
  apply IH. apply consistent_serve. exact Hs.
Qed.

Lemma timely_serve (cfg : Config) (s : Stores) (r : Request) :
  clock_forward r -> timely s -> timely (serve cfg s r).
Proof.
  intros Hclock Hs.
  destruct r as [now uid username first|t_created now uid authData
                |now t_created t_expires uid amount currency|now|uid];
    cbn [serve]; intros sid session;
    cbn [topUpSessions with_users with_topUpSessions].
  - apply Hs.
  - apply Hs.
  - unfold generateTopUpLink_sessions.
    destruct (generateTopUpLink cfg now (walletUsers s) uid amount currency)
      as [[l|]|e]; try apply Hs.
    destruct (decide (sid = sessionId (topUpSessionOf l t_created t_expires)))
      as [->|Hne].
    + rewrite lookup_insert_eq. intros Heq. injection Heq as <-.
      cbn in *. lia.
    + rewrite lookup_insert_ne by congruence. apply Hs.
  - unfold cleanupExpiredSessions. intros H.
    apply map_lookup_filter_Some in H as [H _]. exact (Hs _ _ H).
  - unfold clearUser. destruct (walletUsers s !! uid); cbn [snd topUpSessions];
      [|apply Hs].
    intros H. apply map_lookup_filter_Some in H as [H _]. exact (Hs _ _ H).
Qed.

Lemma timely_fold (cfg : Config) (rs : list Request) :
  Forall clock_forward rs ->
  forall s, timely s -> timely (fold_left (serve cfg) rs s).
Proof.
  induction 1 as [|r rs Hr _ IH]; intros s Hs; cbn; [exact Hs|].
  apply IH. apply timely_serve; assumption.
Qed.

(** X14. After any sequence of calls of [generateAuthLink],
    [updateUserAuth], [generateTopUpLink], [cleanupExpiredSessions] and
    [clearUser] on a fresh service the stores are consistent: the
    statuses [creating] and [error] never occur, no top-up session
    outlives the record of its user, and [hasWallet] is the same as
    holding a non-empty wallet address.  When in no top-up request the
    clock ran backwards between the read of [createdAt] and the read of
    [expiresAt], every session is kept for thirty minutes at least. *)
Theorem served_stores_consistent (cfg : Config) (rs : list Request) :
  let s := served cfg rs in
  consistent s
  /\ (forall u, hasWallet (walletUsers s) u
                = Js.truthy_opt (getUser (walletUsers s) u ≫= walletAddress))
  /\ (Forall clock_forward rs -> timely s).
Proof.
  cbv zeta.
  assert (H : consistent (served cfg rs))
    by (apply consistent_fold, consistent_empty).
  split; [exact H|]. split.
  - intros u. unfold hasWallet, getUser.
    destruct (walletUsers (served cfg rs) !! u) as [user|] eqn:Hu;
      [|reflexivity].
    destruct H as [Husers _]. destruct (Husers _ _ Hu) as (_ & Hiff & Hcases).
    cbn. destruct (walletAddress user) as [addr|] eqn:Haddr.
    + assert (Hc : walletStatus user = created) by (apply Hiff; discriminate).
      rewrite Hc. reflexivity.
    + cbn. destruct Hcases as [Hc|Hc].
      * apply Hiff in Hc. congruence.
      * rewrite Hc. reflexivity.
  - intros Hclock. apply timely_fold; [exact Hclock|].
    intros sid session Hs. unfold empty_stores in Hs.
    cbn [topUpSessions] in Hs. rewrite lookup_empty in Hs. discriminate.
Qed.

(** X15. The links the wallet service hands out for inline buttons are
    built on a web application URL that starts with [https://] and,
    outside local development, is not the placeholder; a top-up link is
    handed out only to a user with a wallet address. *)
Theorem links_are_https (cfg : Config) (now : Z)
    (users : gmap Z WalletUser) (uid : Z) :
  let usable (base : string) :=
    Js.starts_with "https://" base = true
    /\ (Js.includes base "your-app.vercel.app" = false
        \/ (nodeEnv cfg = Some "development"
            /\ Js.includes base "localhost" = true)) in
  (forall username first link,
     fst (generateAuthLink cfg now users uid username first) = Some link ->
     authUser link = uid /\ authBase link = webAppUrl cfg
     /\ usable (authBase link))
  /\ (forall amount currency link,
        generateTopUpLink cfg now users uid amount currency
        = Js.Return (Some link) ->
        topUpUser link = uid /\ topUpBase link = webAppUrl cfg
        /\ usable (topUpBase link)
        /\ Js.truthy_opt (getUser users uid ≫= walletAddress) = true).
Proof.
  cbv zeta.
  assert (Hvalid : isValidWebAppUrl cfg = true ->
            Js.starts_with "https://" (webAppUrl cfg) = true
            /\ (Js.includes (webAppUrl cfg) "your-app.vercel.app" = false
                \/ (nodeEnv cfg = Some "development"
                    /\ Js.includes (webAppUrl cfg) "localhost" = true))).
  { unfold isValidWebAppUrl. cbv zeta.
    destruct (Js.truthy (webAppUrl cfg)); [|discriminate].
    destruct (Js.starts_with "https://" (webAppUrl cfg)); [|discriminate].
    cbn [negb orb]. intros H. split; [reflexivity|].
    destruct (nodeEnv cfg) as [e|]; cbn [andb] in H.
    - destruct (String.eqb e "development") eqn:He; cbn [andb] in H.
      + apply String.eqb_eq in He. rewrite He.
        destruct (Js.includes (webAppUrl cfg) "localhost");
          [right; split; reflexivity|].
        left. apply negb_true_iff. exact H.
      + left. apply negb_true_iff. exact H.
    - left. apply negb_true_iff. exact H. }
  split.
  - intros username first link. unfold generateAuthLink.
    destruct (isValidWebAppUrl cfg) eqn:Hv; cbn [negb fst]; [|discriminate].
    intros Heq. injection Heq as <-. cbn. repeat split; apply Hvalid;
      reflexivity.
  - intros amount currency link. unfold generateTopUpLink.
    destruct (getUser users uid) as [user|]; [|discriminate].
    cbn [mbind option_bind].
    destruct (Js.truthy_opt (walletAddress user)); [|discriminate].
    destruct (isValidWebAppUrl cfg) eqn:Hv; cbn [negb]; [|discriminate].
    intros Heq. injection Heq as <-. cbn. repeat split; apply Hvalid;
      reflexivity.
Qed.

Lemma topUpSession_lifetime_witness :
  let sessions' :=
    generateTopUpLink_sessions Sample.staging 1000 1001 1003 Sample.users7 7
      50 "USD" ∅ in
  let session :=
    {| sessionUser := 7;
       sessionId := "topup_7_1000";
       sessionAmount := 50;
       sessionCurrency := "USD";
       sessionStatus := session_initiated;
       sessionOrderId := None;
       sessionCreatedAt := 1001;
       expiresAt := 1003 + 1800000 |} in
  getTopUpSession sessions' "topup_7_1000" = Some session
  /\ (forall later,
        getTopUpSession (cleanupExpiredSessions later sessions')
          "topup_7_1000"
        = if later >? 1003 + 1800000 then None else Some session)
  /\ (forall later,
        later <= 1001 + 1800000 ->
        getTopUpSession (cleanupExpiredSessions later sessions')
          "topup_7_1000"
        = Some session)
  /\ forall other,
       other <> "topup_7_1000" ->
       sessions' !! other = (∅ : gmap string TopUpSession) !! other.
Proof.
  destruct (topUpSession_lifetime Sample.staging 1000 1001 1003 Sample.users7
              7 50 "USD" ∅
              {| topUpBase := "https://shop.example.app";
                 topUpUser := 7;
                 topUpTime := 1000;
                 topUpAmount := 50;
                 topUpCurrency := "USD" |}
              eq_refl)
    as (Hfound & Hclean & Hkept & Hother).
  split; [exact Hfound|]. split; [exact Hclean|].
  split; [apply Hkept; lia|exact Hother].
Defined.

(** Two top-up requests of user 7 after the login, the clock moving on
    between the reads. *)
Lemma served_stores_consistent_witness :
  let rs :=
    [Authenticated 0 1 7
       {| authEmail := Some "jd@example.com";
          authCrossmintUserId := "cm-user";
          authWalletAddress := "0xabc";
          authJwt := Some "token" |};
     TopUpRequested 1000 1001 1003 7 50 "USD";
     TopUpRequested 2000 2000 2000 7 20 "USD"] in
  consistent (served Sample.staging rs)
  /\ timely (served Sample.staging rs)
  /\ exists session,
       topUpSessions (served Sample.staging rs) !! "topup_7_1000"
       = Some session
       /\ sessionCreatedAt session + 30 * 60 * 1000 <= expiresAt session.
Proof.
  cbv zeta.
  destruct (served_stores_consistent Sample.staging
              [Authenticated 0 1 7
                 {| authEmail := Some "jd@example.com";
                    authCrossmintUserId := "cm-user";
                    authWalletAddress := "0xabc";
                    authJwt := Some "token" |};
               TopUpRequested 1000 1001 1003 7 50 "USD";
               TopUpRequested 2000 2000 2000 7 20 "USD"])
    as (Hconsistent & _ & Htimely).
  assert (Hclock : Forall clock_forward
            [Authenticated 0 1 7
               {| authEmail := Some "jd@example.com";
                  authCrossmintUserId := "cm-user";
                  authWalletAddress := "0xabc";
                  authJwt := Some "token" |};
             TopUpRequested 1000 1001 1003 7 50 "USD";
             TopUpRequested 2000 2000 2000 7 20 "USD"]).
  { repeat constructor; cbn; lia. }
  split; [exact Hconsistent|]. split; [exact (Htimely Hclock)|].
  assert (Hget : topUpSessions
                   (served Sample.staging
                      [Authenticated 0 1 7
                         {| authEmail := Some "jd@example.com";
                            authCrossmintUserId := "cm-user";
                            authWalletAddress := "0xabc";
                            authJwt := Some "token" |};
                       TopUpRequested 1000 1001 1003 7 50 "USD";
                       TopUpRequested 2000 2000 2000 7 20 "USD"])
                   !! "topup_7_1000"
                 = Some {| sessionUser := 7;
                           sessionId := "topup_7_1000";
                           sessionAmount := 50;
                           sessionCurrency := "USD";
                           sessionStatus := session_initiated;
                           sessionOrderId := None;
                           sessionCreatedAt := 1001;
                           expiresAt := 1003 + 30 * 60 * 1000 |})
    by reflexivity.
  eexists. split; [exact Hget|]. exact (Htimely Hclock _ _ Hget).
Defined.

End WalletSpec.

(** ** The conversation memory *)

Module MemorySpec.
Import Memory MemoryReading.

Lemma slice_from_last_n {A} (l : list A) (n : Z) :
  0 < n -> Js.slice_from l (- n) = last_n (Z.to_nat n) l.
Proof.
  intros Hn. unfold Js.slice_from, Js.slice, Js.clamp_index, last_n.
  assert (Hneg : (- n <? 0) = true) by (apply Z.ltb_lt; lia).
  assert (Hlen : (Z.of_nat (length l) <? 0) = false) by (apply Z.ltb_ge; lia).
  rewrite Hneg, Hlen.
  replace (Z.to_nat (Z.max (Z.of_nat (length l) + - n) 0))
    with (length l - Z.to_nat n)%nat by lia.
  apply take_ge. rewrite length_drop. lia.
Qed.

Lemma slice_from_zero {A} (l : list A) : Js.slice_from l 0 = l.
Proof.
  unfold Js.slice_from, Js.slice, Js.clamp_index. cbn [Z.ltb Z.compare].
  assert (Hlen : (Z.of_nat (length l) <? 0) = false) by (apply Z.ltb_ge; lia).
  rewrite Hlen.
  replace (Z.to_nat (Z.min 0 (Z.of_nat (length l)))) with 0%nat by lia.
  rewrite drop_0. apply take_ge. lia.
Qed.

Lemma length_last_n {A} (n : nat) (l : list A) :
  length (last_n n l) = Nat.min n (length l).
Proof. unfold last_n. rewrite length_drop. lia. Qed.

(** The messages [addMessage] leaves for the user. *)
Lemma addMessage_messages (now uid : Z) (r : Role) (c : string)
    (mt : MessageType) (userInfo : option UserInfo)
    (userMemories : gmap Z MessageMemory) :
  exists memory,
    addMessage now uid r c mt userInfo userMemories !! uid = Some memory
    /\ messages memory
       = last_n 20
           (match userMemories !! uid with
            | Some old => messages old
            | None => []
            end
            ++ [ {| timestamp := now; role := r; content := Js.trim c;
                    messageType := mt |} ]).
Proof.
  unfold addMessage. rewrite lookup_insert_eq. eexists. split; [reflexivity|].
  cbn [messages].
  set (pushed := (_ ++ [_])%list).
  assert (Hp : pushed
               = (match userMemories !! uid with
                  | Some old => messages old
                  | None => []
                  end
                  ++ [ {| timestamp := now; role := r; content := Js.trim c;
                          messageType := mt |} ])%list)
    by (subst pushed; destruct (userMemories !! uid); reflexivity).
  rewrite <- Hp. unfold MAX_MESSAGES_PER_USER.
  destruct (Z.of_nat (length pushed) >? 20) eqn:Hlen.
  - apply (slice_from_last_n pushed 20). lia.
  - unfold last_n. rewrite Z.gtb_ltb in Hlen. apply Z.ltb_ge in Hlen.
    replace (length pushed - 20)%nat with 0%nat by lia. reflexivity.
Qed.

(** X16. After [addMessage] the history of the user is the last twenty
    entries of the earlier history followed by the new message with its
    content trimmed: it never holds more than twenty entries, the new
    message is the last one, and the history of every other user is as
    it was. *)
Theorem addMessage_history (now uid : Z) (r : Role) (c : string)
    (mt : MessageType) (userInfo : option UserInfo)
    (userMemories : gmap Z MessageMemory) :
  let after := addMessage now uid r c mt userInfo userMemories in
  getConversationHistory uid after
  = last_n 20 (getConversationHistory uid userMemories ++ [(r, Js.trim c)])
  /\ (length (getConversationHistory uid after) <= 20)%nat
  /\ last (getConversationHistory uid after) = Some (r, Js.trim c)
  /\ forall u, u <> uid ->
       getConversationHistory u after = getConversationHistory u userMemories.
Proof.
  cbv zeta.
  destruct (addMessage_messages now uid r c mt userInfo userMemories)
    as (memory & Hget & Hmsgs).
  assert (Hhist : getConversationHistory uid
                    (addMessage now uid r c mt userInfo userMemories)
                  = last_n 20
                      (getConversationHistory uid userMemories
                       ++ [(r, Js.trim c)])).
  { unfold getConversationHistory at 1. rewrite Hget, Hmsgs.
    unfold last_n, getConversationHistory.
    set (f := fun msg : StoredMessage => (role msg, content msg)).
    set (m := {| timestamp := now; role := r; content := Js.trim c;
                 messageType := mt |}).
    set (ms := match userMemories !! uid with
               | Some old => messages old
               | None => []
               end).
    replace (match userMemories !! uid with
             | Some memory0 => map f (messages memory0)
             | None => []
             end) with (map f ms)
      by (subst ms; destruct (userMemories !! uid); reflexivity).
    change [(r, Js.trim c)] with (map f [m]).
    rewrite <- map_app, length_map. symmetry. apply skipn_map. }
  split; [exact Hhist|]. rewrite Hhist. split; [|split].
  - rewrite length_last_n. lia.
  - unfold last_n. rewrite length_app. cbn [length].
    set (h := getConversationHistory uid userMemories).
    destruct (decide (length h + 1 - 20 <= length h)%nat) as [Hle|Hgt];
      [|lia].
    rewrite drop_app_le by exact Hle. apply last_snoc.
  - intros u Hne. unfold getConversationHistory, addMessage.
    rewrite lookup_insert_ne by congruence. reflexivity.
Qed.

(** X17. For a [count] above zero [getRecentMessages] returns the
    last [count] messages of the user, printed as [role: content], and
    never more than [count]; for a [count] of zero it returns every
    message kept. *)
Theorem getRecentMessages_latest (uid count : Z)
    (userMemories : gmap Z MessageMemory) :
  0 <= count ->
  let all := map printed (getConversationHistory uid userMemories) in
  getRecentMessages uid count userMemories
  = (if count =? 0 then all else last_n (Z.to_nat count) all)
  /\ (0 < count ->
      Z.of_nat (length (getRecentMessages uid count userMemories)) <= count).
Proof.
  intros Hcount. cbv zeta.
  assert (Heq : getRecentMessages uid count userMemories
                = if count =? 0
                  then map printed (getConversationHistory uid userMemories)
                  else last_n (Z.to_nat count)
                         (map printed
                            (getConversationHistory uid userMemories))).
  { unfold getRecentMessages, getConversationHistory.
    destruct (userMemories !! uid) as [memory|];
      [|destruct (count =? 0); reflexivity].
    destruct (Z.eqb_spec count 0) as [->|Hne].
    - change (- 0) with 0. rewrite slice_from_zero, map_map. reflexivity.
    - rewrite (slice_from_last_n _ count) by lia. unfold last_n.
      rewrite map_map, !length_map. symmetry. apply skipn_map. }
  split; [exact Heq|].
  intros Hpos. rewrite Heq, (proj2 (Z.eqb_neq count 0)) by lia.
  rewrite length_last_n. lia.
Qed.


Lemma bounded_update (userMemories : gmap Z MessageMemory) (u : Update) :
  (forall uid memory,
     userMemories !! uid = Some memory ->
     userId memory = uid /\ (length (messages memory) <= 20)%nat) ->
  forall uid memory,
    apply_update userMemories u !! uid = Some memory ->
    userId memory = uid /\ (length (messages memory) <= 20)%nat.
Proof.
  intros Hb uid memory.
  destruct u as [now u r c mt userInfo|u new|u|now]; cbn [apply_update].
  - destruct (decide (uid = u)) as [->|Hne].
    + destruct (addMessage_messages now u r c mt userInfo userMemories)
        as (memory' & Hget & Hmsgs).
      rewrite Hget. intros Heq. injection Heq as <-. split.
      * unfold addMessage in Hget. rewrite lookup_insert_eq in Hget.
        injection Hget as <-. cbn.
        destruct (userMemories !! u) as [old|] eqn:Hold;
          [apply (Hb _ _ Hold)|reflexivity].
      * rewrite Hmsgs, length_last_n. lia.
    + unfold addMessage. rewrite lookup_insert_ne by congruence. apply Hb.
  - unfold updateUserPreferences.
    destruct (decide (uid = u)) as [->|Hne].
    + rewrite lookup_insert_eq. intros Heq. injection Heq as <-. cbn.
      destruct (userMemories !! u) as [old|] eqn:Hold;
        [apply (Hb _ _ Hold)|cbn; split; [reflexivity|lia]].
    + rewrite lookup_insert_ne by congruence. apply Hb.
  - unfold clearUserMemory. intros H.
    apply lookup_delete_Some in H as [_ H]. exact (Hb _ _ H).
  - unfold cleanupOldMemories. intros H.
    apply map_lookup_filter_Some in H as [H _]. exact (Hb _ _ H).
Qed.

(** X19. After any sequence of calls of [addMessage],
    [updateUserPreferences], [clearUserMemory] and [cleanupOldMemories]
    on an empty memory, every user's memory is filed under its own id
    and holds at most twenty messages. *)
Theorem remembered_bounded (us : list Update) (uid : Z)
    (memory : MessageMemory) :
  remembered us !! uid = Some memory ->
  userId memory = uid
  /\ (length (messages memory) <= 20)%nat
  /\ (length (getConversationHistory uid (remembered us)) <= 20)%nat.
Proof.
  unfold remembered.
  assert (H : forall start,
            (forall u m, start !! u = Some m ->
               userId m = u /\ (length (messages m) <= 20)%nat) ->
            forall u m, fold_left apply_update us start !! u = Some m ->
              userId m = u /\ (length (messages m) <= 20)%nat).
  { induction us as [|x us IH]; intros start Hs; cbn; [exact Hs|].
    apply IH. apply bounded_update. exact Hs. }
  intros Hget.
  destruct (H ∅ (fun u m Hm => ltac:(rewrite lookup_empty in Hm; discriminate))
              _ _ Hget) as [Hid Hlen].
  repeat split; [exact Hid|exact Hlen|].
  unfold getConversationHistory. rewrite Hget, length_map. exact Hlen.
Qed.

Lemma getRecentMessages_latest_witness :
  let all := map printed (getConversationHistory 7 Sample.memories) in
  getRecentMessages 7 1 Sample.memories
  = (if 1 =? 0 then all else last_n (Z.to_nat 1) all)
  /\ (0 < 1 ->
      Z.of_nat (length (getRecentMessages 7 1 Sample.memories)) <= 1).
Proof. apply (getRecentMessages_latest 7 1 Sample.memories). lia. Defined.


Lemma remembered_bounded_witness :
  let us := [MessageAdded 1000 7 user " hello " text None] in
  userId Sample.greeting = 7
  /\ (length (messages Sample.greeting) <= 20)%nat
  /\ (length (getConversationHistory 7 (remembered us)) <= 20)%nat.
Proof.
  apply (remembered_bounded [MessageAdded 1000 7 user " hello " text None] 7
           Sample.greeting).
  reflexivity.
Defined.

End MemorySpec.

(** ** Message formatting *)

Module FormattingSpec.
Import Formatting FormattingReading.

Lemma replace_all_app (c : ascii) (r s1 s2 : string) :
  Js.replace_all c r (s1 ++ s2)
  = Js.replace_all c r s1 ++ Js.replace_all c r s2.
Proof.
  induction s1 as [|a s1 IH]; [reflexivity|].
  change (String a s1 ++ s2) with (String a (s1 ++ s2)).
  cbn [Js.replace_all]. rewrite IH. symmetry. apply StringFacts.string_app_assoc.
Qed.

Lemma escape_passes_app (cs : list ascii) :
  forall s1 s2,
    fold_left (fun s c => Js.replace_all c (escaped c) s) cs (s1 ++ s2)
    = fold_left (fun s c => Js.replace_all c (escaped c) s) cs s1
      ++ fold_left (fun s c => Js.replace_all c (escaped c) s) cs s2.
Proof.
  induction cs as [|c cs IH]; intros s1 s2; [reflexivity|].
  cbn [fold_left]. rewrite replace_all_app. apply IH.
Qed.

Lemma escapeMarkdown_app (s1 s2 : string) :
  escapeMarkdown (s1 ++ s2) = escapeMarkdown s1 ++ escapeMarkdown s2.
Proof. apply escape_passes_app. Qed.

(** The eighteen passes on one character: a special character gets its
    backslash from its own pass and no later pass touches either of the
    two characters. *)
Lemma escapeMarkdown_character (c : ascii) :
  escapeMarkdown (String c EmptyString) = escape_character c.
Proof.
  destruct c as [[] [] [] [] [] [] [] []]; vm_compute; reflexivity.
Qed.

(** X20. The eighteen passes of [escapeMarkdown] come to one pass over
    the text: every special character gets exactly one backslash in
    front, every other character, the backslash among them, is left
    as it is.  So the result is as long as the text plus the number of
    its special characters, and a text without special characters is
    returned unchanged. *)
Theorem escapeMarkdown_escapes_each (text : string) :
  escapeMarkdown text = escape_each text
  /\ String.length (escapeMarkdown text)
     = (String.length text + count_special text)%nat
  /\ (count_special text = 0%nat -> escapeMarkdown text = text).
Proof.
  assert (Heach : forall s, escapeMarkdown s = escape_each s).
  { induction s as [|c s IH]; [reflexivity|].
    change (String c s) with (String c EmptyString ++ s).
    rewrite escapeMarkdown_app, escapeMarkdown_character, IH. reflexivity. }
  split; [apply Heach|]. rewrite Heach. split.
  - induction text as [|c s IH]; [reflexivity|].
    cbn [escape_each count_special]. rewrite StringFacts.string_length_app, IH.
    unfold escape_character. destruct (is_special c); cbn; lia.
  - induction text as [|c s IH]; [reflexivity|].
    cbn [escape_each count_special]. unfold escape_character.
    destruct (is_special c); [discriminate|].
    intros H. cbn in H. rewrite (IH H). reflexivity.
Qed.

Lemma length_take_string (n : nat) (s : string) :
  String.length (Js.take_string n s) = Nat.min n (String.length s).
Proof.
  revert s. induction n as [|n IH]; intros [|c s]; cbn; try reflexivity.
  rewrite IH. reflexivity.
Qed.

Lemma take_string_prefix (n : nat) (s : string) :
  exists rest, s = Js.take_string n s ++ rest.
Proof.
  revert s. induction n as [|n IH]; intros s.
  - exists s. destruct s; reflexivity.
  - destruct s as [|c s]; [exists EmptyString; reflexivity|].
    destruct (IH s) as [rest Hrest]. exists rest.
    cbn [Js.take_string].
    change (String c (Js.take_string n s) ++ rest)
      with (String c (Js.take_string n s ++ rest)).
    rewrite <- Hrest. reflexivity.
Qed.

(** X21. For a limit of at least three, [truncateText] returns a text
    within the limit: the text itself when it fits, and otherwise its
    first [maxLength - 3] characters followed by three dots. *)
Theorem truncateText_fits (text : string) (maxLength : Z) :
  3 <= maxLength ->
  Z.of_nat (String.length (truncateText text maxLength)) <= maxLength
  /\ (Z.of_nat (String.length text) <= maxLength ->
      truncateText text maxLength = text)
  /\ (maxLength < Z.of_nat (String.length text) ->
      exists kept rest,
        text = kept ++ rest
        /\ Z.of_nat (String.length kept) = maxLength - 3
        /\ truncateText text maxLength = kept ++ "...").
Proof.
  intros Hmax. unfold truncateText.
  destruct (Z.of_nat (String.length text) <=? maxLength) eqn:Hfit.
  - apply Z.leb_le in Hfit. split; [exact Hfit|].
    split; [reflexivity|lia].
  - apply Z.leb_gt in Hfit. unfold Js.substring_to.
    pose proof (length_take_string (Z.to_nat (maxLength - 3)) text) as Hlen.
    split; [|split].
    + rewrite StringFacts.string_length_app, Hlen. cbn [String.length]. lia.
    + lia.
    + intros _. destruct (take_string_prefix (Z.to_nat (maxLength - 3)) text)
        as [rest Hrest].
      exists (Js.take_string (Z.to_nat (maxLength - 3)) text), rest.
      split; [exact Hrest|]. split; [rewrite Hlen; lia|reflexivity].
Qed.

Lemma truncateText_fits_witness :
  Z.of_nat (String.length (truncateText "Hello, world" 8)) <= 8
  /\ (Z.of_nat (String.length "Hello, world") <= 8 ->
      truncateText "Hello, world" 8 = "Hello, world")
  /\ (8 < Z.of_nat (String.length "Hello, world") ->
      exists kept rest,
        "Hello, world" = kept ++ rest
        /\ Z.of_nat (String.length kept) = 8 - 3
        /\ truncateText "Hello, world" 8 = kept ++ "...").
Proof. apply (truncateText_fits "Hello, world" 8). lia. Defined.

End FormattingSpec.

(** ** Result pages *)

Module KeyboardSpec.
Import SearchHandler Formatting FormattingReading.

(** A slice between two indices inside the list. *)
Lemma slice_inside {A} (l : list A) (start final : Z) :
  0 <= start -> 0 <= final ->
  Js.slice l start final
  = take (Z.to_nat (Z.min final (Z.of_nat (length l))
                    - Z.min start (Z.of_nat (length l))))
      (drop (Z.to_nat (Z.min start (Z.of_nat (length l)))) l).
Proof.
  intros Hs Hf. unfold Js.slice, Js.clamp_index.
  rewrite (proj2 (Z.ltb_ge start 0)) by lia.
  rewrite (proj2 (Z.ltb_ge final 0)) by lia. reflexivity.
Qed.

Lemma currentProducts_lookup (products : list SearchProduct)
    (page itemsPerPage : Z) (k : nat) (product : SearchProduct) :
  1 <= page -> 0 < itemsPerPage ->
  currentProducts products page itemsPerPage !! k = Some product ->
  products !! Z.to_nat ((page - 1) * itemsPerPage + Z.of_nat k) = Some product
  /\ Z.of_nat k < itemsPerPage.
Proof.
  intros Hpage Hipp. unfold currentProducts. cbv zeta.
  assert (Hstart : 0 <= (page - 1) * itemsPerPage) by nia.
  rewrite slice_inside by lia.
  intros H. apply lookup_take_Some in H as [H Hk].
  rewrite lookup_drop in H. pose proof (lookup_lt_Some _ _ _ H) as Hlt.
  split; [|lia].
  rewrite <- H. f_equal. lia.
Qed.

Lemma length_currentProducts (products : list SearchProduct)
    (page itemsPerPage : Z) :
  1 <= page -> 0 < itemsPerPage ->
  Z.of_nat (length (currentProducts products page itemsPerPage))
  = Z.max 0 (Z.min itemsPerPage
               (Z.of_nat (length products) - (page - 1) * itemsPerPage)).
Proof.
  intros Hpage Hipp. unfold currentProducts. cbv zeta.
  assert (Hstart : 0 <= (page - 1) * itemsPerPage) by nia.
  rewrite slice_inside by lia. rewrite length_take, length_drop. lia.
Qed.

Lemma product_rows (l : list SearchProduct) :
  forall start,
    concat (imap (fun idx product =>
                    createProductActionKeyboard product
                      (start + Z.of_nat idx)) l)
    = imap (fun idx product => action_row product (start + Z.of_nat idx)) l.
Proof.
  induction l as [|p l IH]; intros start; [reflexivity|].
  cbn [imap concat]. unfold createProductActionKeyboard at 1. cbn [app].
  unfold action_row at 1. f_equal.
  rewrite (imap_ext _ (fun idx product =>
             createProductActionKeyboard product
               ((start + 1) + Z.of_nat idx)) l)
    by (intros i x _; cbn; f_equal; lia).
  rewrite IH. apply imap_ext. intros i x _. cbn. f_equal. lia.
Qed.

(** The keyboard of a non-empty result list: one action row per product
    shown, then the pagination rows. *)
Lemma formatProductList_keyboard_rows (products : list SearchProduct)
    (query : string) (page itemsPerPage : Z) :
  products <> [] ->
  formatProductList_keyboard products query page itemsPerPage
  = (imap (fun idx product =>
             action_row product ((page - 1) * itemsPerPage + Z.of_nat idx))
       (currentProducts products page itemsPerPage)
     ++ createPaginationKeyboard query page
          (ceil_div (Z.of_nat (length products)) itemsPerPage))%list.
Proof.
  intros Hne. unfold formatProductList_keyboard.
  destruct products as [|p ps]; [contradiction|].
  cbn [length Nat.eqb]. cbv zeta. rewrite product_rows. reflexivity.
Qed.

(** X22. On a result page built from the list that was cached for the
    user, the row of the [k]-th product shown ends with the buy button
    of index [(page - 1) * itemsPerPage + k], and as long as the cache
    entry is alive [getCachedProduct] answers that index with the very
    product shown. *)
Theorem buy_button_buys_product_shown (t_store t_clean now userId : Z)
    (products : list SearchProduct) (query : string)
    (searchCache : gmap Z CacheEntry) (page itemsPerPage : Z) (k : nat)
    (product : SearchProduct) :
  1 <= page -> 0 < itemsPerPage ->
  t_clean <= now -> now - t_store <= CACHE_DURATION ->
  currentProducts products page itemsPerPage !! k = Some product ->
  let index := (page - 1) * itemsPerPage + Z.of_nat k in
  let stored :=
    cacheSearchResults t_store t_clean userId products query searchCache in
  exists row,
    formatProductList_keyboard products query page itemsPerPage !! k
    = Some row
    /\ createProductActionKeyboard product index = [row]
    /\ last row = Some (BuyWithCrossmint index)
    /\ getCachedProduct now userId index stored = (Some product, stored).
Proof.
  intros Hpage Hipp Hclean Hlive Hshown index stored.
  destruct (currentProducts_lookup _ _ _ _ _ Hpage Hipp Hshown)
    as [Hproduct _].
  fold index in Hproduct.
  assert (Hne : products <> []) by (intros ->; discriminate).
  exists (action_row product index). split; [|split; [|split]].
  - rewrite formatProductList_keyboard_rows by exact Hne.
    rewrite lookup_app_l
      by (rewrite length_imap; eapply lookup_lt_Some; exact Hshown).
    rewrite list_lookup_imap, Hshown. reflexivity.
  - reflexivity.
  - unfold action_row. apply last_snoc.
  - assert (Hget : stored !! userId
                   = Some {| products := products; timestamp := t_store;
                             query := query |})
      by (apply SearchHandlerSpec.cacheSearchResults_lookup; lia).
    unfold getCachedProduct.
    rewrite (SearchHandlerSpec.getCachedSearchResults_live _ _ _ _ Hget)
      by (apply SearchHandlerSpec.isExpired_false; cbn; lia).
    cbn [SearchHandler.products SearchHandler.query].
    pose proof (lookup_lt_Some _ _ _ Hproduct) as Hlt.
    assert (Hnonneg : 0 <= index) by (subst index; nia).
    rewrite (proj2 (Z.ltb_ge index 0)) by lia.
    rewrite Z.geb_leb, (proj2 (Z.leb_gt _ _)) by lia.
    cbn [orb]. rewrite Hproduct. reflexivity.
Qed.

Lemma action_row_buttons (product : SearchProduct) (index : Z)
    (b : InlineButton) :
  In b (action_row product index) ->
  (exists url, b = ViewOnAmazon url) \/ b = BuyWithCrossmint index.
Proof.
  unfold action_row. intros H. apply in_app_or in H as [H|[<-|[]]];
    [|right; reflexivity].
  destruct (link product) as [url|]; [|destruct H].
  destruct (Js.truthy url); [|destruct H].
  destruct H as [<-|[]]. left. eauto.
Qed.

Lemma ceil_div_gt (n d page : Z) :
  0 < d -> page < ceil_div n d -> page * d < n.
Proof.
  unfold ceil_div. intros Hd Hlt.
  pose proof (Z.mul_div_le (n + d - 1) d Hd) as Hle. nia.
Qed.

(** *** Callback data of the pagination buttons *)

Ltac read_digit :=
  match goal with
  | |- context [Js.digit_of 10 ?c] =>
      let v := eval vm_compute in (Js.digit_of 10 c) in
      change (Js.digit_of 10 c) with v; cbv beta iota
  end.

Lemma digits_uint_acc (d : Decimal.uint) :
  forall acc : positive,
    Js.digits 10 (NilEmpty.string_of_uint d) (Some (Z.pos acc))
    = Some (Z.pos (Pos.of_uint_acc d acc)).
Proof.
  induction d; intros acc;
    cbn [NilEmpty.string_of_uint Js.digits Pos.of_uint_acc];
    [reflexivity|..];
    read_digit; cbn [Js.so_far]; rewrite <- IHd; f_equal; f_equal; lia.
Qed.

Lemma digits_uint_zero (d : Decimal.uint) :
  Js.digits 10 (NilEmpty.string_of_uint d) (Some 0)
  = Some (Z.of_N (Pos.of_uint d)).
Proof.
  induction d; cbn [NilEmpty.string_of_uint Js.digits Pos.of_uint];
    [reflexivity|..]; read_digit; cbn [Js.so_far];
    [exact IHd|..];
    match goal with
    | |- Js.digits 10 _ (Some (10 * 0 + ?k)) = _ =>
        change (10 * 0 + k) with k
    end;
    apply digits_uint_acc.
Qed.

Lemma digits_uint (d : Decimal.uint) :
  d <> Decimal.Nil ->
  Js.digits 10 (NilEmpty.string_of_uint d) None
  = Some (Z.of_N (Pos.of_uint d)).
Proof.
  intros Hd. rewrite <- digits_uint_zero.
  destruct d; [contradiction|..];
    cbn [NilEmpty.string_of_uint Js.digits]; read_digit; reflexivity.
Qed.

(** A text of decimal digits is read in base ten from its first
    character on. *)
Lemma parseInt_uint (d : Decimal.uint) :
  Js.parseInt (NilEmpty.string_of_uint d)
  = option_map (Z.mul 1) (Js.digits 10 (NilEmpty.string_of_uint d) None).
Proof.
  destruct d; try reflexivity; destruct d; reflexivity.
Qed.

Lemma parseInt_negative_uint (d : Decimal.uint) :
  Js.parseInt (String "-" (NilEmpty.string_of_uint d))
  = option_map (Z.mul (-1)) (Js.digits 10 (NilEmpty.string_of_uint d) None).
Proof.
  destruct d; try reflexivity; destruct d; reflexivity.
Qed.

Lemma to_uint_nonnil (p : positive) : Pos.to_uint p <> Decimal.Nil.
Proof.
  intros H. pose proof (DecimalPos.Unsigned.of_to p) as Hp.
  rewrite H in Hp. discriminate.
Qed.

Lemma string_of_uint_pos (p : positive) :
  NilZero.string_of_uint (Pos.to_uint p)
  = NilEmpty.string_of_uint (Pos.to_uint p).
Proof.
  pose proof (to_uint_nonnil p) as H.
  destruct (Pos.to_uint p); [contradiction|..]; reflexivity.
Qed.

(** [parseInt] reads the decimal text of an integer back. *)
Lemma parseInt_decimal (n : Z) : Js.parseInt (Wallet.decimal n) = Some n.
Proof.
  unfold Wallet.decimal.
  destruct n as [|p|p]; cbn [Z.to_int NilZero.string_of_int].
  - reflexivity.
  - rewrite string_of_uint_pos, parseInt_uint, digits_uint
      by apply to_uint_nonnil.
    rewrite DecimalPos.Unsigned.of_to. reflexivity.
  - rewrite string_of_uint_pos, parseInt_negative_uint, digits_uint
      by apply to_uint_nonnil.
    rewrite DecimalPos.Unsigned.of_to. reflexivity.
Qed.

Example parseInt_examples :
  Js.parseInt "42" = Some 42 /\ Js.parseInt "  -17abc" = Some (-17)
  /\ Js.parseInt "0x1F" = Some 31 /\ Js.parseInt "08" = Some 8
  /\ Js.parseInt "3.7" = Some 3 /\ Js.parseInt "-0" = Some 0
  /\ Js.parseInt "abc" = None /\ Js.parseInt "" = None
  /\ Js.parseInt "+" = None /\ Js.parseInt "0x" = None.
Proof. vm_compute. repeat split. Qed.

(** *** Splitting at a separator *)

Lemma includes_char_cons (c a : ascii) (s : string) :
  Js.includes (String a s) (String c EmptyString)
  = Ascii.eqb c a || Js.includes s (String c EmptyString).
Proof.
  cbn [Js.includes Js.starts_with]. rewrite andb_true_r. reflexivity.
Qed.

Lemma includes_char_app (c : ascii) (a b : string) :
  Js.includes (a ++ b) (String c EmptyString)
  = Js.includes a (String c EmptyString)
    || Js.includes b (String c EmptyString).
Proof.
  induction a as [|x a IH].
  - change ("" ++ b) with b. destruct b; reflexivity.
  - change (String x a ++ b) with (String x (a ++ b)).
    rewrite !includes_char_cons, IH. apply orb_assoc.
Qed.

Lemma split_nonempty (c : ascii) (s : string) : Js.split c s <> [].
Proof.
  destruct s as [|a s]; cbn [Js.split]; [discriminate|].
  destruct (Ascii.eqb a c); [discriminate|].
  destruct (Js.split c s); discriminate.
Qed.

Lemma split_whole (c : ascii) (s : string) :
  Js.includes s (String c EmptyString) = false -> Js.split c s = [s].
Proof.
  induction s as [|a s IH]; [reflexivity|].
  rewrite includes_char_cons. intros H. apply orb_false_iff in H as [Ha Hs].
  cbn [Js.split]. rewrite Ascii.eqb_sym, Ha, (IH Hs). reflexivity.
Qed.

Lemma split_app (c : ascii) (a b : string) :
  Js.split c (a ++ String c b) = (Js.split c a ++ Js.split c b)%list.
Proof.
  induction a as [|x a IH].
  - change ("" ++ String c b) with (String c b). cbn [Js.split].
    rewrite Ascii.eqb_refl. reflexivity.
  - change (String x a ++ String c b) with (String x (a ++ String c b)).
    cbn [Js.split]. rewrite IH.
    destruct (Ascii.eqb x c); [reflexivity|].
    pose proof (split_nonempty c a) as Hne.
    destruct (Js.split c a) as [|p ps]; [contradiction|reflexivity].
Qed.

Lemma split_fields (c : ascii) (s : string) :
  Js.includes s (String c EmptyString) = true ->
  (2 <= length (Js.split c s))%nat.
Proof.
  induction s as [|a s IH]; [discriminate|].
  rewrite includes_char_cons. cbn [Js.split]. rewrite (Ascii.eqb_sym c a).
  destruct (Ascii.eqb a c); cbn [orb].
  - intros _. pose proof (split_nonempty c s) as Hne.
    destruct (Js.split c s); [contradiction|cbn; lia].
  - intros H. specialize (IH H).
    destruct (Js.split c s) as [|p ps]; cbn in *; lia.
Qed.

Lemma uint_no_colon (d : Decimal.uint) :
  Js.includes (NilEmpty.string_of_uint d) ":" = false.
Proof.
  induction d; cbn [NilEmpty.string_of_uint]; [reflexivity|..];
    rewrite includes_char_cons, IHd; reflexivity.
Qed.

Lemma decimal_no_colon (n : Z) : Js.includes (Wallet.decimal n) ":" = false.
Proof.
  unfold Wallet.decimal.
  destruct n as [|p|p]; cbn [Z.to_int NilZero.string_of_int].
  - reflexivity.
  - rewrite string_of_uint_pos. apply uint_no_colon.
  - rewrite string_of_uint_pos, includes_char_cons, uint_no_colon.
    reflexivity.
Qed.

Lemma decimal_truthy (n : Z) : Js.truthy (Wallet.decimal n) = true.
Proof.
  unfold Wallet.decimal.
  destruct n as [|p|p]; cbn [Z.to_int NilZero.string_of_int];
    [reflexivity| |reflexivity].
  pose proof (to_uint_nonnil p) as H.
  destruct (Pos.to_uint p); [contradiction|..]; reflexivity.
Qed.

(** What [handleSearchCallback] reads from the callback data of a
    pagination button: the query and the page when the query holds no
    colon, nothing it accepts otherwise. *)
Lemma handleSearchCallback_parse_data (chatId messageId : Z) (query : string)
    (page : Z) :
  chatId <> 0 -> messageId <> 0 -> 1 <= page ->
  handleSearchCallback_parse (Some chatId) (Some messageId)
    (Some (search_callback_data query page))
  = if Js.includes query ":" then InvalidSearchCallback
    else LoadPage query page.
Proof.
  intros Hchat Hmessage Hpage. unfold handleSearchCallback_parse, falsy.
  rewrite (proj2 (Z.eqb_neq chatId 0) Hchat).
  rewrite (proj2 (Z.eqb_neq messageId 0) Hmessage). cbn [orb].
  unfold search_callback_data.
  change (Js.or_else (Some ("search:" ++ query ++ ":" ++ Wallet.decimal page))
            "")
    with ("search" ++ String ":" (query ++ String ":" (Wallet.decimal page))).
  rewrite !split_app.
  rewrite (split_whole ":" (Wallet.decimal page)) by apply decimal_no_colon.
  change (Js.split ":" "search") with ["search"]. cbn [app].
  destruct (Js.includes query ":") eqn:Hcolon.
  - pose proof (split_fields ":" query Hcolon) as Hlen.
    destruct (Js.split ":" query) as [|q1 [|q2 qs]]; cbn in Hlen; try lia.
    destruct qs; reflexivity.
  - rewrite (split_whole ":" query Hcolon). cbn [app].
    change (String.eqb "search" "search") with true. cbn [negb].
    unfold Js.or_else. rewrite decimal_truthy, parseInt_decimal.
    rewrite (proj2 (Z.ltb_ge page 1)) by lia.
    destruct query; reflexivity.
Qed.

(** X23. The pagination buttons of a result page carry the callback
    data [search:<query>:<page>] of the neighbouring page: "Next" that
    of the following page, which shows at least one product of the
    list, and "Previous" that of the page before, which is page 1 or
    later.  [handleSearchCallback] reads the query and the page back
    from that data exactly when the query holds no colon; the buttons
    of a query with a colon are answered with "Invalid search
    callback".  Page numbers are safe integers. *)
Theorem pagination_buttons_lead_to_pages (products : list SearchProduct)
    (query : string) (page itemsPerPage : Z) (row : list InlineButton)
    (data : string) (chatId messageId : Z) :
  1 <= page -> page < 2 ^ 53 -> 0 < itemsPerPage ->
  chatId <> 0 -> messageId <> 0 ->
  In row (formatProductList_keyboard products query page itemsPerPage) ->
  (In (Next data) row ->
   data = "search:" ++ query ++ ":" ++ Wallet.decimal (page + 1)
   /\ currentProducts products (page + 1) itemsPerPage <> []
   /\ handleSearchCallback_parse (Some chatId) (Some messageId) (Some data)
      = if Js.includes query ":" then InvalidSearchCallback
        else LoadPage query (page + 1))
  /\ (In (Previous data) row ->
      data = "search:" ++ query ++ ":" ++ Wallet.decimal (page - 1)
      /\ 1 <= page - 1
      /\ handleSearchCallback_parse (Some chatId) (Some messageId) (Some data)
         = if Js.includes query ":" then InvalidSearchCallback
           else LoadPage query (page - 1)).
Proof.
  intros Hpage _ Hipp Hchat Hmessage Hrow.
  destruct (decide (products = [])) as [->|Hne]; [destruct Hrow|].
  rewrite formatProductList_keyboard_rows in Hrow by exact Hne.
  apply in_app_or in Hrow as [Hrow|Hrow].
  - apply list_elem_of_In, elem_of_lookup_imap in Hrow
      as (i & x & -> & _).
    split; intros Hb; apply action_row_buttons in Hb as [[url Hb]|Hb];
      discriminate.
  - unfold createPaginationKeyboard in Hrow.
    destruct (ceil_div (Z.of_nat (length products)) itemsPerPage >? 1);
      [|destruct Hrow].
    destruct Hrow as [<-|[]]. split; intros Hb.
    + apply in_app_or in Hb as [Hb|Hb].
      { destruct (page >? 1); [|destruct Hb].
        destruct Hb as [Hb|[]]. discriminate. }
      destruct Hb as [Hb|Hb]; [discriminate|].
      destruct (page <? ceil_div (Z.of_nat (length products)) itemsPerPage)
        eqn:Hlt; [|destruct Hb].
      destruct Hb as [Hb|[]]. injection Hb as <-.
      split; [reflexivity|]. split.
      * apply Z.ltb_lt in Hlt. apply ceil_div_gt in Hlt; [|exact Hipp].
        intros Hnil.
        pose proof (length_currentProducts products (page + 1) itemsPerPage
                      ltac:(lia) Hipp) as Hlen.
        rewrite Hnil in Hlen. cbn [length] in Hlen. nia.
      * apply handleSearchCallback_parse_data; [assumption..|lia].
    + apply in_app_or in Hb as [Hb|Hb].
      { destruct (page >? 1) eqn:Hgt; [|destruct Hb].
        destruct Hb as [Hb|[]]. injection Hb as <-.
        rewrite Z.gtb_ltb in Hgt. apply Z.ltb_lt in Hgt.
        split; [reflexivity|]. split; [lia|].
        apply handleSearchCallback_parse_data; [assumption..|lia]. }
      destruct Hb as [Hb|Hb]; [discriminate|].
      destruct (page <? _); [|destruct Hb].
      destruct Hb as [Hb|[]]. discriminate.
Qed.

(** The result page of a query with a colon: its "Next" button is
    there, and [handleSearchCallback] refuses it. *)
Example next_button_refused_after_colon :
  In [PageIndicator 1 2; Next "search:usb:c cable:2"]
     (formatProductList_keyboard Sample.ten_products "usb:c cable" 1 5)
  /\ handleSearchCallback_parse (Some 100) (Some 5)
       (Some "search:usb:c cable:2")
     = InvalidSearchCallback.
Proof.
  split; [|reflexivity]. vm_compute. do 5 right. left. reflexivity.
Qed.

Lemma buy_button_buys_product_shown_witness :
  let index := (1 - 1) * 5 + Z.of_nat 2 in
  exists row,
    formatProductList_keyboard (products Sample.headphones) "headphones" 1 5
      !! 2%nat = Some row
    /\ createProductActionKeyboard (Sample.product_named "p2") index = [row]
    /\ last row = Some (BuyWithCrossmint index)
    /\ getCachedProduct 1000 42 index Sample.cache42
       = (Some (Sample.product_named "p2"), Sample.cache42).
Proof.
  apply (buy_button_buys_product_shown 0 0 1000 42
           (products Sample.headphones) "headphones" ∅ 1 5 2
           (Sample.product_named "p2")).
  - lia.
  - lia.
  - lia.
  - unfold CACHE_DURATION. lia.
  - reflexivity.
Defined.

Lemma pagination_buttons_lead_to_pages_witness :
  ("search:headphones:2" = "search:" ++ "headphones" ++ ":" ++ Wallet.decimal 2
   /\ currentProducts Sample.ten_products 2 5 <> []
   /\ handleSearchCallback_parse (Some 100) (Some 5)
        (Some "search:headphones:2")
      = LoadPage "headphones" 2)
  /\ ("search:headphones:1"
      = "search:" ++ "headphones" ++ ":" ++ Wallet.decimal 1
      /\ 1 <= 2 - 1
      /\ handleSearchCallback_parse (Some 100) (Some 5)
           (Some "search:headphones:1")
         = LoadPage "headphones" 1).
Proof.
  split.
  - apply (proj1 (pagination_buttons_lead_to_pages Sample.ten_products
                    "headphones" 1 5
                    [PageIndicator 1 2; Next "search:headphones:2"]
                    "search:headphones:2" 100 5
                    ltac:(lia) ltac:(lia) ltac:(lia) ltac:(lia) ltac:(lia)
                    ltac:(vm_compute; do 5 right; left; reflexivity))).
    right. left. reflexivity.
  - apply (proj2 (pagination_buttons_lead_to_pages Sample.ten_products
                    "headphones" 2 5
                    [Previous "search:headphones:1"; PageIndicator 2 2]
                    "search:headphones:1" 100 5
                    ltac:(lia) ltac:(lia) ltac:(lia) ltac:(lia) ltac:(lia)
                    ltac:(vm_compute; do 5 right; left; reflexivity))).
    left. reflexivity.
Defined.

End KeyboardSpec.
